(** * Connectome-CNN regression scripts: data splitting, normalisation,
      minibatch control loop and parameter persistence

    Shallow embedding of [ccnn_regr_baseline.py] and [ccnn_regr_public.py].

    Conventions of the embedding.
    - Python exceptions are the [Raise] outcomes of the [result] monad.
    - Array entries are exact rationals ([Qc]) or [None], which stands for
      a float that is not finite: the not-a-number that numpy answers for
      0/0 and propagates, or the infinity that it answers for x/0.  In raw
      data [None] is a not-a-number.  Rounding of binary floating point is
      outside this model, so [astype(np.float32)] is the identity in it.
    - The module [F64] repeats the normalisation, the assembler of a fold
      and the cross-validation script in the arithmetic of the code:
      binary64 numbers with rounding to nearest, and the conversion to
      binary32 of [astype(np.float32)].
    - [/] is the true division of Python 3, so that
      [np.ceil(len(subjects)/num_folds)] is the ceiling of the quotient.
    - A tensor is the list of its instances (its leading dimension), each
      instance being the list of its entries.
    - The pseudo-random generator is a parameter: all that is known of
      [np.random.permutation n] is that it answers a permutation of
      [range(n)].
    - Arrays that the code updates in place and shares with its caller
      live in a store indexed by references. *)

From Stdlib Require Import ZArith QArith Qcanon Qcabs Lia.
From Stdlib Require Floats Uint63.
From stdpp Require Import gmap strings list fin_maps numbers.

(** ** Outcomes of Python code *)

Inductive exn : Set :=
  | ZeroDivisionError
  | ValueError
  | IndexError
  | KeyError
  | NameError
  | FailedPreconditionError.

Inductive result (A : Type) : Type :=
  | Ok (a : A)
  | Raise (e : exn).
Arguments Ok {A} a.
Arguments Raise {A} e.

#[global] Instance exn_eq_dec : EqDecision exn.
Proof. solve_decision. Defined.

#[global] Instance result_eq_dec `{EqDecision A} : EqDecision (result A).
Proof. solve_decision. Defined.

#[global] Instance result_ret : MRet result := λ A, Ok.

#[global] Instance result_bind : MBind result := λ A B f m,
  match m with
  | Ok a => f a
  | Raise e => Raise e
  end.

#[global] Instance result_fmap : FMap result := λ A B f m,
  match m with
  | Ok a => Ok (f a)
  | Raise e => Raise e
  end.

(** [a[i]] for an index that is known to be non-negative. *)
Definition get_item {A} (a : list A) (i : nat) : result A :=
  match a !! i with
  | Some x => Ok x
  | None => Raise IndexError
  end.

(** [a[idx]] for an integer index array: the rows of [a] in the order of [idx]. *)
Definition take_rows {A} (idx : list nat) (a : list A) : result (list A) :=
  mapM (get_item a) idx.

(** The rows that [take_rows] answers when every index is in range. *)
Definition gather {A} (idx : list nat) (a : list A) : list A := omap (λ i, a !! i) idx.

(** [a[mask]] for a boolean mask, which must be as long as [a]. *)
Fixpoint select {A} (mask : list bool) (a : list A) : list A :=
  match mask, a with
  | b :: mask', x :: a' => if b then x :: select mask' a' else select mask' a'
  | _, _ => []
  end.

Definition bool_index {A} (mask : list bool) (a : list A) : result (list A) :=
  if decide (length mask = length a) then Ok (select mask a) else Raise IndexError.

(** [a[start:stop]]: negative bounds count from the end, and both are
    clipped to the length. *)
Definition py_slice {A} (start stop : Z) (a : list A) : list A :=
  let n := Z.of_nat (length a) in
  let clip i := if decide (i < 0)%Z then Z.max (i + n) 0 else Z.min i n in
  let lo := clip start in
  let hi := clip stop in
  take (Z.to_nat (hi - lo)) (drop (Z.to_nat lo) a).

(** [a % b] on Python integers: the sign of the result is that of [b]. *)
Definition py_mod (a b : Z) : result Z :=
  if decide (b = 0)%Z then Raise ZeroDivisionError else Ok (a `mod` b)%Z.

(** ** Numbers *)

Definition fnum : Type := option Qc.

Definition of_nat (n : nat) : Qc := Q2Qc (inject_Z (Z.of_nat n)).
Definition of_Z (z : Z) : Qc := Q2Qc (inject_Z z).

Definition Qcmax (a b : Qc) : Qc := if decide (a ≤ b)%Qc then b else a.

Definition fadd (a b : fnum) : fnum :=
  match a, b with
  | Some x, Some y => Some (x + y)%Qc
  | _, _ => None
  end.

Definition fsub (a b : fnum) : fnum :=
  match a, b with
  | Some x, Some y => Some (x - y)%Qc
  | _, _ => None
  end.

Definition fdiv (a b : fnum) : fnum :=
  match a, b with
  | Some x, Some y => if decide (y = 0%Qc) then None else Some (x / y)%Qc
  | _, _ => None
  end.

Definition fsquare (a : fnum) : fnum := (λ x, x * x)%Qc <$> a.

Definition fabs (a : fnum) : fnum := Qcabs <$> a.

Definition fmax (a b : fnum) : fnum :=
  match a, b with
  | Some x, Some y => Some (Qcmax x y)
  | _, _ => None
  end.

(** [np.sum]: the order of summation is irrelevant in exact arithmetic. *)
Definition np_sum (a : list fnum) : fnum := foldr fadd (Some 0%Qc) a.

(** [np.mean]: the mean of no entry is 0/0. *)
Definition np_mean (a : list fnum) : fnum :=
  fdiv (np_sum a) (Some (of_nat (length a))).

(** [np.max] raises on an empty array and propagates a not-a-number. *)
Definition np_max (a : list fnum) : result fnum :=
  match a with
  | [] => Raise ValueError
  | x :: a' => Ok (foldl fmax x a')
  end.

(** Binary element-wise operation on two columns, with numpy's
    broadcasting of a column of one entry. *)
Definition np_broadcast2 (f : fnum → fnum → fnum) (a b : list fnum) : result (list fnum) :=
  if decide (length a = length b) then Ok (zip_with f a b)
  else match a, b with
       | [x], _ => Ok (f x <$> b)
       | _, [y] => Ok ((λ x, f x y) <$> a)
       | _, _ => Raise ValueError
       end.

(** ** Tensors *)

Definition tensor : Type := list (list fnum).

Definition tmap (f : fnum → fnum) (t : tensor) : tensor := map (map f) t.

(** [data_tensor[np.isnan(data_tensor)] = 0] *)
Definition nan_to_zero (t : tensor) : tensor := tmap (λ x, Some (default 0%Qc x)) t.

(** [normalize_tensor].  The two updates are in place; every caller either
    passes a fresh copy (a boolean-mask selection) or rebinds the name to
    the result, so that returning the new value is all there is to it. *)
Definition normalize_tensor (data_tensor : tensor) : result tensor :=
  let data_tensor := tmap (λ x, fsub x (np_mean (concat data_tensor))) data_tensor in
  m ← np_max (fabs <$> concat data_tensor);
  Ok (tmap (λ x, fdiv x m) data_tensor).

(** [r_squared] *)
Definition r_squared (labels predictions : list fnum) : result fnum :=
  d ← np_broadcast2 fsub labels predictions;
  let ss_res := np_mean (fsquare <$> d) in
  let ss_tot := np_mean (fsquare <$> ((λ y, fsub y (np_mean labels)) <$> labels)) in
  Ok (fsub (Some 1%Qc) (fdiv ss_res ss_tot)).

(** The spec's wording of the two functions, on tensors of rationals. *)
Module Spec.

Definition sum (a : list Qc) : Qc := foldr Qcplus 0%Qc a.

Definition mean (a : list Qc) : Qc := (sum a / of_nat (length a))%Qc.

(** The largest entry; of no interest on an empty list. *)
Definition maximum (a : list Qc) : Qc :=
  match a with
  | [] => 0%Qc
  | x :: a' => foldl Qcmax x a'
  end.

(** [tensor - mean(tensor)] *)
Definition centred (t : list (list Qc)) : list (list Qc) :=
  map (map (λ x, x - mean (concat t))%Qc) t.

(** [max(abs(tensor - mean(tensor)))] *)
Definition max_abs_dev (t : list (list Qc)) : Qc :=
  maximum (Qcabs <$> concat (centred t)).

(** [(tensor - mean(tensor)) / max(abs(tensor - mean(tensor)))] *)
Definition normalize (t : list (list Qc)) : list (list Qc) :=
  map (map (λ x, x / max_abs_dev t)%Qc) (centred t).

(** [mean((y - mean(y))²)] *)
Definition variance (y : list Qc) : Qc :=
  mean ((λ v, (v - mean y) * (v - mean y))%Qc <$> y).

(** [mean((y - ŷ)²)] *)
Definition mse (y p : list Qc) : Qc :=
  mean (zip_with (λ v w, (v - w) * (v - w))%Qc y p).

(** [1 - mean((y - ŷ)²) / mean((y - mean(y))²)] *)
Definition r2 (y p : list Qc) : Qc := (1 - mse y p / variance y)%Qc.

End Spec.

(** A tensor all of whose entries are numbers. *)
Definition finite (t : list (list Qc)) : tensor := map (map Some) t.

(** A tensor of the same shape all of whose entries are not-a-number. *)
Definition all_nan {A} (t : list (list A)) : tensor := map (map (λ _, None)) t.

(** What [normalize_tensor] answers on a tensor of numbers, case by case. *)
Definition normalize_finite (t : list (list Qc)) : result tensor :=
  if decide (concat t = []) then Raise ValueError
  else if decide (Spec.max_abs_dev t = 0%Qc) then Ok (all_nan t)
  else Ok (finite (Spec.normalize t)).

(** The numbers of a raw tensor once its not-a-numbers are replaced by 0. *)
Definition zeroed (t : tensor) : list (list Qc) := map (map (default 0%Qc)) t.

(** The number of entries of each instance. *)
Definition shape {A} (t : list (list A)) : list nat := map length t.

(** ** 2-D arrays of subject identifiers *)

(** The value of a 2-D array: its shape and its entries in row-major order. *)
Record array2 : Type := Array2 { a2_rows : nat; a2_cols : nat; a2_flat : list Z }.

(** [IDs[r, c]] *)
Definition entry (a : array2) (r c : nat) : option Z :=
  if decide (r < a2_rows a ∧ c < a2_cols a) then a2_flat a !! (r * a2_cols a + c)
  else None.

(** [IDs[:, fold]] *)
Definition column (a : array2) (fold : nat) : result (list Z) :=
  if decide (fold < a2_cols a)
  then mapM (λ r, get_item (a2_flat a) (r * a2_cols a + fold)) (seq 0 (a2_rows a))
  else Raise IndexError.

(** [x] is one of the entries of [IDs[:, fold]]. *)
Definition in_column (a : array2) (fold : nat) (x : Z) : Prop :=
  ∃ col, column a fold = Ok col ∧ x ∈ col.

(** [np.in1d(a, b)] *)
Definition np_in1d (a b : list Z) : list bool := (λ x, bool_decide (x ∈ b)) <$> a.

(** [testIDs = np.in1d(subjects, IDs[:,fold])] *)
Definition test_mask (fold : nat) (IDs : array2) (subjects : list Z) : result (list bool) :=
  col ← column IDs fold;
  Ok (np_in1d subjects col).

(** ** The store of 1-D arrays that are shared and updated in place *)

Definition loc : Type := positive.

(** A 2-D view on a buffer of the store, as [reshape] answers it. *)
Record view2 : Type := View2 { v_base : loc; v_rows : nat; v_cols : nat }.

Definition deref (h : gmap loc (list Z)) (v : view2) : option array2 :=
  Array2 (v_rows v) (v_cols v) <$> h !! v_base v.

(** [a.reshape((n, k))]: a view on the buffer of [a], whose size must be [n * k]. *)
Definition reshape (h : gmap loc (list Z)) (a : loc) (n k : nat) : result view2 :=
  match h !! a with
  | Some buf => if decide (length buf = n * k) then Ok (View2 a n k) else Raise ValueError
  | None => Raise NameError
  end.

(** [np.ceil(a / b)] for a positive [b]. *)
Definition ceil_div (a b : nat) : nat :=
  if decide (a `mod` b = 0) then a `div` b else S (a `div` b).

(** [offset = (step * batch_size) % (train_labels.shape[0] - batch_size)] *)
Definition batch_offset (batch_size num_train step : nat) : result Z :=
  py_mod (Z.of_nat step * Z.of_nat batch_size)
         (Z.of_nat num_train - Z.of_nat batch_size).

(** The starts of the disjoint batches that make up a training set. *)
Definition batch_starts (batch_size num_train : nat) : list Z :=
  (λ i, Z.of_nat (i * batch_size)) <$> seq 0 (num_train `div` batch_size).

Section random.

Context {rng : Type}.

(** [np.random.permutation(n)], threading the state of the generator. *)
Variable np_random_permutation : nat → rng → list nat * rng.

(** [randomize_tensor] *)
Definition randomize_tensor {A B} (dataset : list A) (labels : list B) (g : rng)
    : result (list A * list B * rng) :=
  let '(permutation, g) := np_random_permutation (length labels) g in
  shuffled_dataset ← take_rows permutation dataset;
  shuffled_labels ← take_rows permutation labels;
  Ok (shuffled_dataset, shuffled_labels, g).

(** [create_train_and_test_folds].  [subjects] is a reference: the
    shuffle updates the caller's array, and without padding the table
    that is returned is a view on that same array. *)
Definition create_train_and_test_folds (num_folds : nat) (subjects : loc)
    (h : gmap loc (list Z)) (g : rng) : result (view2 * gmap loc (list Z) * rng) :=
  match h !! subjects with
  | None => Raise NameError
  | Some s0 =>
    if decide (num_folds = 0) then Raise ZeroDivisionError else
    let n := ceil_div (length s0) num_folds in
    (* np.random.shuffle(subjects) *)
    let '(permutation, g) := np_random_permutation (length s0) g in
    s1 ← take_rows permutation s0;
    let h := <[subjects := s1]> h in
    if decide (length s1 ≠ n * num_folds) then
      (* s = np.zeros(n*num_folds) *)
      let s := fresh (dom h) in
      let zeros := replicate (n * num_folds) 0%Z in
      (* s[:len(subjects)] = subjects *)
      if decide (length s1 ≤ length zeros) then
        let h := <[s := s1 ++ drop (length s1) zeros]> h in
        IDs ← reshape h s n num_folds;
        Ok (IDs, h, g)
      else Raise ValueError
    else
      IDs ← reshape h subjects n num_folds;
      Ok (IDs, h, g)
  end.

(** [create_train_and_test_data] *)
Definition create_train_and_test_data {B} (fold : nat) (IDs : array2)
    (subjects : list Z) (labels : list B) (data_tensor : tensor) (g : rng)
    : result (tensor * list B * tensor * list B * rng) :=
  testIDs ← test_mask fold IDs subjects;
  test_sel ← bool_index testIDs data_tensor;
  test_data ← normalize_tensor test_sel;
  test_labels ← bool_index testIDs labels;
  train_sel ← bool_index (negb <$> testIDs) data_tensor;
  train_data ← normalize_tensor train_sel;
  train_labels ← bool_index (negb <$> testIDs) labels;
  '(train_data, train_labels, g) ← randomize_tensor train_data train_labels g;
  Ok (train_data, train_labels, test_data, test_labels, g).

(** The test part of what the assembler answers. *)
Definition test_part {B} (r : result (tensor * list B * tensor * list B * rng))
    : result (tensor * list B) :=
  '(_, _, test_data, test_labels, _) ← r; Ok (test_data, test_labels).

(** *** The training loop *)

Section loop.

(** Instances, labels, and the variables of the session. *)
Context {A B V : Type}.

(** One run of [optimizer] on a batch: the new values of the variables. *)
Variable run_optimizer : V → list A → list B → V.

Record loop_state : Type := LoopState {
  train_data : list A;
  train_labels : list B;
  gen : rng;
  variables : V
}.

(** What one step feeds to the session. *)
Record feed : Type := Feed {
  feed_step : nat;
  feed_offset : Z;
  batch_data : list A;
  batch_labels : list B
}.

(** [session.run([optimizer, loss, train_prediction], feed_dict)]: the
    two placeholders have [batch_size] as leading dimension, and a feed
    of another shape is refused. *)
Definition session_run (batch_size : nat) (vars : V)
    (batch_data : list A) (batch_labels : list B) : result V :=
  if decide (length batch_data = batch_size ∧ length batch_labels = batch_size)
  then Ok (run_optimizer vars batch_data batch_labels)
  else Raise ValueError.

(** The body of the [for step in range(num_steps)] loop. *)
Definition train_step (batch_size : nat) (st : loop_state) (step : nat)
    : result (loop_state * feed) :=
  offset ← batch_offset batch_size (length (train_labels st)) step;
  '(data, labels, g) ←
    (if decide (offset = 0%Z)
     then randomize_tensor (train_data st) (train_labels st) (gen st)
     else Ok (train_data st, train_labels st, gen st));
  let batch_data := py_slice offset (offset + Z.of_nat batch_size) data in
  let batch_labels := py_slice offset (offset + Z.of_nat batch_size) labels in
  vars ← session_run batch_size (variables st) batch_data batch_labels;
  Ok (LoopState data labels g vars, Feed step offset batch_data batch_labels).

Fixpoint train_loop (batch_size : nat) (st : loop_state) (steps : list nat)
    : result (loop_state * list feed) :=
  match steps with
  | [] => Ok (st, [])
  | step :: steps' =>
    '(st, f) ← train_step batch_size st step;
    '(st, fs) ← train_loop batch_size st steps';
    Ok (st, f :: fs)
  end.

(** [for step in range(num_steps): ...] *)
Definition train (batch_size num_steps : nat) (st : loop_state)
    : result (loop_state * list feed) :=
  train_loop batch_size st (seq 0 num_steps).

End loop.

End random.

(** ** The transfer script [ccnn_regr_public.py]

    The tensor engine is a collaborator.  What is kept of it: a constant
    of the graph has its value for good; a variable has a value per
    session, set by its initializer; [minimize] assigns a new value to the
    trainable variables and to nothing else.  How the new values are
    computed is a parameter, and so is whatever else the engine keeps
    from one run to the next (the moments of the optimizer, the seeds of
    dropout). *)

Section transfer.

Context {rng T B E : Type}.

Variable np_random_permutation : nat → rng → list nat * rng.

(** The initializers: [tf.contrib.layers.xavier_initializer()] at a shape
    and [tf.constant(c, shape=...)]. *)
Variable xavier_initializer : list nat → T.
Variable constant_fill : Qc → list nat → T.

(** The state of the engine when the session starts. *)
Variable initial_engine : E.

(** One run of [AdamOptimizer(...).minimize(loss)]: from the constants of
    the graph, the state of the engine, the values of the variables and
    the batch that is fed, the next state of the engine and the value that
    is assigned to each trainable variable. *)
Variable minimize_step :
  list T → E → gmap string T → tensor → list B → E * (string → T).

Inductive node : Type :=
  | Constant (value : T)
  | Variable_ (name : string).

Record graph : Type := Graph {
  layer1_weights : node;
  layer1_biases : node;
  layer2_weights : node;
  layer2_biases : node;
  layer3_weights : node;
  layer3_biases : node;
  layer4_weights : node;
  layer4_biases : node
}.

(** [save[key]] on the dictionary that was unpickled. *)
Definition load (save : gmap string T) (key : string) : result T :=
  match save !! key with
  | Some v => Ok v
  | None => Raise KeyError
  end.

(** The graph of the script: layers 1 and 2 are constants that hold the
    values read from [weights_public.pickle], layers 3 and 4 are
    variables. *)
Definition build_graph (save : gmap string T) : result graph :=
  layer1_weights_age ← load save "layer1_weights";
  layer1_biases_age ← load save "layer1_biases";
  layer2_weights_age ← load save "layer2_weights";
  layer2_biases_age ← load save "layer2_biases";
  layer3_weights_age ← load save "layer3_weights";
  layer3_biases_age ← load save "layer3_biases";
  layer4_weights_age ← load save "layer4_weights";
  layer4_biases_age ← load save "layer4_biases";
  Ok (Graph (Constant layer1_weights_age) (Constant layer1_biases_age)
            (Constant layer2_weights_age) (Constant layer2_biases_age)
            (Variable_ "layer3_weights") (Variable_ "layer3_biases")
            (Variable_ "layer4_weights") (Variable_ "layer4_biases")).

(** The variables of a graph, which are its trainable parameters. *)
Definition node_variable (n : node) : list string :=
  match n with
  | Constant _ => []
  | Variable_ x => [x]
  end.

Definition trainable_variables (gr : graph) : list string :=
  node_variable (layer1_weights gr) ++ node_variable (layer1_biases gr)
  ++ node_variable (layer2_weights gr) ++ node_variable (layer2_biases gr)
  ++ node_variable (layer3_weights gr) ++ node_variable (layer3_biases gr)
  ++ node_variable (layer4_weights gr) ++ node_variable (layer4_biases gr).

(** The values of the constants, which the forward pass reads. *)
Definition node_constant (n : node) : list T :=
  match n with
  | Constant v => [v]
  | Variable_ _ => []
  end.

Definition constants (gr : graph) : list T :=
  node_constant (layer1_weights gr) ++ node_constant (layer1_biases gr)
  ++ node_constant (layer2_weights gr) ++ node_constant (layer2_biases gr)
  ++ node_constant (layer3_weights gr) ++ node_constant (layer3_biases gr)
  ++ node_constant (layer4_weights gr) ++ node_constant (layer4_biases gr).

(** [tf.global_variables_initializer().run()] *)
Definition initial_session : gmap string T :=
  {[ "layer3_weights" := xavier_initializer [256; 96];
     "layer3_biases" := constant_fill (Q2Qc (1 # 100)) [96];
     "layer4_weights" := xavier_initializer [96; 1];
     "layer4_biases" := constant_fill (Q2Qc (1 # 100)) [1] ]}.

(** One run of the optimizer: every trainable variable is assigned. *)
Definition run_optimizer (gr : graph) (sess : E * gmap string T)
    (batch_data : tensor) (batch_labels : list B) : E * gmap string T :=
  let '(engine, new_value) :=
    minimize_step (constants gr) sess.1 sess.2 batch_data batch_labels in
  (engine, foldr (λ x s, <[x := new_value x]> s) sess.2 (trainable_variables gr)).

(** [node.eval()] in a session. *)
Definition eval (sess : gmap string T) (n : node) : result T :=
  match n with
  | Constant v => Ok v
  | Variable_ x =>
    match sess !! x with
    | Some v => Ok v
    | None => Raise FailedPreconditionError
    end
  end.

(** The training of the script, for a number of steps: the session after
    the last step. *)
Definition public_training (gr : graph) (num_steps : nat) (raw : tensor)
    (labels : list B) (g : rng) : result (gmap string T) :=
  data_tensor ← normalize_tensor (nan_to_zero raw);
  '(st, _) ← train np_random_permutation (run_optimizer gr) 4 num_steps
               (LoopState data_tensor labels g (initial_engine, initial_session));
  Ok (variables st).2.

(** [num_steps = 10001] *)
Definition num_steps : nat := Z.to_nat 10001.

(** The script: what it dumps to [weights_public_regr.pickle]. *)
Definition ccnn_regr_public (save : gmap string T) (raw : tensor)
    (labels : list B) (g : rng) : result (gmap string T) :=
  gr ← build_graph save;
  sess ← public_training gr num_steps raw labels g;
  layer1_weights_final ← eval sess (layer1_weights gr);
  layer1_biases_final ← eval sess (layer1_biases gr);
  layer2_weights_final ← eval sess (layer2_weights gr);
  layer2_biases_final ← eval sess (layer2_biases gr);
  layer3_weights_final ← eval sess (layer3_weights gr);
  layer3_biases_final ← eval sess (layer3_biases gr);
  layer4_weights_final ← eval sess (layer4_weights gr);
  layer4_biases_final ← eval sess (layer4_biases gr);
  Ok {[ "layer1_weights" := layer1_weights_final;
        "layer1_biases" := layer1_biases_final;
        "layer2_weights" := layer2_weights_final;
        "layer2_biases" := layer2_biases_final;
        "layer3_weights" := layer3_weights_final;
        "layer3_biases" := layer3_biases_final;
        "layer4_weights" := layer4_weights_final;
        "layer4_biases" := layer4_biases_final ]}.

End transfer.

(** Every one of [names] has a value in the session. *)
Definition defined {T} (names : list string) (sess : gmap string T) : Prop :=
  ∀ x, x ∈ names → is_Some (sess !! x).

(** The names of the tensors of layers 1 and 2, and of layers 3 and 4. *)
Definition frozen_names : list string :=
  ["layer1_weights"; "layer1_biases"; "layer2_weights"; "layer2_biases"].

Definition trained_names : list string :=
  ["layer3_weights"; "layer3_biases"; "layer4_weights"; "layer4_biases"].

(** ** A generator for the examples

    It answers the indices in decreasing order and counts its draws. *)
Definition countdown (n : nat) (g : nat) : list nat * nat := (reverse (seq 0 n), S g).

(** An optimizer for the examples: its only variable counts the runs. *)
Definition count_runs (v : nat) (_ _ : list nat) : nat := S v.

(** The scenario of the spec: 36 training instances, numbered, that are
    their own labels. *)
Definition scenario_state : loop_state (rng:=nat) (A:=nat) (B:=nat) (V:=nat) :=
  LoopState (seq 0 36) (seq 0 36) 0 0.

(** As many training instances as a batch holds. *)
Definition one_batch_state : loop_state (rng:=nat) (A:=nat) (B:=nat) (V:=nat) :=
  LoopState (seq 0 4) (seq 0 4) 0 0.

(** ** Data for the examples

    Four scans of two subjects, two entries each, and a table of two folds
    of one subject; a second run whose raw tensor differs on the scans of
    subject 2 only; and a table of two folds for one subject, whose
    second column is padding. *)
Definition num (z : Z) : fnum := Some (of_Z z).

Definition two_folds : array2 := Array2 1 2 [1; 2]%Z.

Definition four_subjects : list Z := [1; 1; 2; 2]%Z.

Definition four_labels : list fnum := [num 20; num 21; num 30; num 31].

Definition raw_a : tensor := [[num 1; num 2]; [num 3; None]; [num 5; num 6]; [num 7; num 9]].

Definition raw_b : tensor := [[num 1; num 2]; [num 3; None]; [num 50; num (-6)]; [None; num 9]].

Definition padded_folds : array2 := Array2 1 2 [1; 0]%Z.

(** A pretrained bundle, an engine and five scans for the transfer
    script: tensors are integers, the initializers answer 0, the engine
    counts its runs, and a run of the optimizer adds 1 to every trainable
    variable. *)
Definition pretrained : gmap string Z :=
  {[ "layer1_weights" := 11%Z; "layer1_biases" := 12%Z;
     "layer2_weights" := 21%Z; "layer2_biases" := 22%Z;
     "layer3_weights" := 31%Z; "layer3_biases" := 32%Z;
     "layer4_weights" := 41%Z; "layer4_biases" := 42%Z ]}.

Definition zero_xavier (_ : list nat) : Z := 0%Z.

Definition zero_fill (_ : Qc) (_ : list nat) : Z := 0%Z.

Definition add_one (_ : list Z) (runs : nat) (sess : gmap string Z) (_ : tensor)
    (_ : list fnum) : nat * (string → Z) :=
  (S runs, λ x, (default 0 (sess !! x) + 1)%Z).

Definition five_scans : tensor :=
  [[num 1; num 2]; [num 3; None]; [num 5; num 6]; [num 7; num 9]; [num 0; num 4]].

Definition five_labels : list fnum := [num 20; num 21; num 30; num 31; num 40].


(** ** The arithmetic of the code: binary64

    The arrays of the scripts hold binary64 numbers, which are Rocq's
    primitive floats: the operations round to nearest, ties to even, and
    not-a-number and the infinities are values.  The order in which numpy
    adds the entries of an array is the library's matter and a parameter
    here ([np_add_reduce]); on fewer than eight entries it adds them from
    left to right ([sum_left]). *)

Module F64.
Import PrimFloat.

Definition tensor : Type := list (list float).

(** The number of entries that [np.mean] divides by. *)
Definition of_count (n : nat) : float := of_uint63 (Uint63.of_Z (Z.of_nat n)).

(** Left-to-right summation. *)
Definition sum_left (a : list float) : float := foldl add 0%float a.

(** [x.astype(np.float32)] on one entry: the nearest binary32 number, ties
    to even, seen as a binary64 number again. *)
Definition astype_float32 (x : float) : float :=
  match FloatOps.Prim2SF x with
  | SpecFloat.S754_finite s m e =>
    FloatOps.SF2Prim (SpecFloat.binary_round 24 128 s m e)
  | _ => x
  end.

(** One step of [np.maximum.reduce]: the accumulator is kept when it is
    not below the next entry or is a not-a-number. *)
Definition fmax (x y : float) : float :=
  if (y <=? x)%float || is_nan x then x else y.

(** [np.max] raises on an empty array. *)
Definition np_max (a : list float) : result float :=
  match a with
  | [] => Raise ValueError
  | x :: a' => Ok (foldl fmax x a')
  end.

(** [data_tensor[np.isnan(data_tensor)] = 0] *)
Definition nan_to_zero (t : tensor) : tensor :=
  map (map (λ x, if is_nan x then 0%float else x)) t.

Section sum.

(** [np.add.reduce] over all the entries of an array. *)
Variable np_add_reduce : list float → float.

(** [np.mean] over all the entries of an array. *)
Definition np_mean (a : list float) : float :=
  (np_add_reduce a / of_count (length a))%float.

(** [normalize_tensor] *)
Definition normalize_tensor (data_tensor : tensor) : result tensor :=
  let m := np_mean (concat data_tensor) in
  let data_tensor := map (map (λ x, (x - m)%float)) data_tensor in
  m ← np_max (abs <$> concat data_tensor);
  Ok (map (map (λ x, (x / m)%float)) data_tensor).

(** Binary element-wise operation on two columns, with numpy's
    broadcasting of a column of one entry. *)
Definition np_broadcast2 (f : float → float → float) (a b : list float)
    : result (list float) :=
  if decide (length a = length b) then Ok (zip_with f a b)
  else match a, b with
       | [x], _ => Ok (f x <$> b)
       | _, [y] => Ok ((λ x, f x y) <$> a)
       | _, _ => Raise ValueError
       end.

(** [r_squared] *)
Definition r_squared (labels predictions : list float) : result float :=
  d ← np_broadcast2 sub labels predictions;
  let ss_res := np_mean ((λ x, x * x)%float <$> d) in
  let m := np_mean labels in
  let ss_tot := np_mean ((λ x, x * x)%float <$> ((λ y, y - m)%float <$> labels)) in
  Ok (1 - ss_res / ss_tot)%float.

Section random.

Context {rng : Type}.

Variable np_random_permutation : nat → rng → list nat * rng.

(** [create_train_and_test_data] *)
Definition create_train_and_test_data {B} (fold : nat) (IDs : array2)
    (subjects : list Z) (labels : list B) (data_tensor : tensor) (g : rng)
    : result (tensor * list B * tensor * list B * rng) :=
  testIDs ← test_mask fold IDs subjects;
  test_sel ← bool_index testIDs data_tensor;
  test_data ← normalize_tensor test_sel;
  let test_data := map (map astype_float32) test_data in
  test_labels ← bool_index testIDs labels;
  train_sel ← bool_index (negb <$> testIDs) data_tensor;
  train_data ← normalize_tensor train_sel;
  let train_data := map (map astype_float32) train_data in
  train_labels ← bool_index (negb <$> testIDs) labels;
  '(train_data, train_labels, g) ←
    randomize_tensor np_random_permutation train_data train_labels g;
  Ok (train_data, train_labels, test_data, test_labels, g).

(** The baseline script up to the data of one fold: the not-a-numbers of
    the raw tensor are replaced by 0, the whole tensor is normalised, and
    the fold is assembled from the result. *)
Definition baseline_fold_data {B} (fold : nat) (IDs : array2) (subjects : list Z)
    (labels : list B) (raw : tensor) (g : rng)
    : result (tensor * list B * tensor * list B * rng) :=
  data_tensor ← normalize_tensor (nan_to_zero raw);
  create_train_and_test_data fold IDs subjects labels data_tensor g.

(** The test part of what the assembler answers. *)
Definition test_part {B} (r : result (tensor * list B * tensor * list B * rng))
    : result (tensor * list B) :=
  '(_, _, test_data, test_labels, _) ← r; Ok (test_data, test_labels).

(** *** The cross-validation script [ccnn_regr_baseline.py]

    The tensor engine is a collaborator here as well.  What is kept of
    it: a session starts from values that the initializer draws, a run of
    the optimizer on a batch gives the next values, and the prediction on
    the test data, which is made without dropout, is a function of the
    values of the variables and of the test data.  The state of the engine
    (its seeds, the moments of the optimizer) is threaded from one fold to
    the next together with that of numpy's generator.  The progress lines
    that are printed during training are left out: they are computed from
    a batch and a prediction whose shapes the placeholders fix. *)

Context {E W : Type}.

(** [x[:image_size, :image_size, :]] on one instance. *)
Variable crop : list float → list float.

(** [tf.global_variables_initializer().run()] in a new session. *)
Variable initialize : E → E * W.

(** One run of [optimizer] on a batch. *)
Variable minimize_step : E * W → tensor → list float → E * W.

(** [test_prediction.eval()], that is [model(tf_test_dataset, 1)]. *)
Variable test_prediction : W → tensor → list float.

(** [num_folds = 10] *)
Definition num_folds : nat := 10.

(** [batch_size = 4] *)
Definition batch_size : nat := 4.

(** [num_steps = 15001] *)
Definition num_steps : nat := Z.to_nat 15001.

(** The body of [for i in range(num_folds)]: the test labels and the
    test predictions of fold [i]. *)
Definition run_fold (IDs : array2) (subjects : list Z) (labels : list float)
    (data_tensor : tensor) (i : nat) (s : rng * E)
    : result (list float * list float * (rng * E)) :=
  '(train_data, train_labels, test_data, test_labels, g) ←
    create_train_and_test_data i IDs subjects labels data_tensor s.1;
  let train_data := crop <$> train_data in
  let test_data := crop <$> test_data in
  '(st, _) ← train np_random_permutation minimize_step batch_size num_steps
               (LoopState train_data train_labels g (initialize s.2));
  let test_pred := test_prediction (variables st).2 test_data in
  (* print('Test R squared: %.2f' % r_squared(labels=test_labels, predictions=test_pred)) *)
  _ ← r_squared test_labels test_pred;
  Ok (test_labels, test_pred, (gen st, (variables st).1)).

(** The loop over the folds, with the two lists [test_labs] and
    [test_preds] that it fills. *)
Fixpoint fold_loop (IDs : array2) (subjects : list Z) (labels : list float)
    (data_tensor : tensor) (folds : list nat) (s : rng * E)
    : result (list (list float) * list (list float) * (rng * E)) :=
  match folds with
  | [] => Ok ([], [], s)
  | i :: folds' =>
    '(test_labels, test_pred, s) ← run_fold IDs subjects labels data_tensor i s;
    '(test_labs, test_preds, s) ← fold_loop IDs subjects labels data_tensor folds' s;
    Ok (test_labels :: test_labs, test_pred :: test_preds, s)
  end.

(** What [np.savez] writes to [results_ccnn_regr_baseline.npz]. *)
Record results : Type := Results {
  res_labels : list float;
  res_predictions : list float;
  res_splits : array2
}.

(** The script: what it saves, and the final R squared that it prints.
    [IDs] is the table read from [folds_inhouse.npy]. *)
Definition ccnn_regr_baseline (IDs : array2) (subjects : list Z) (labels : list float)
    (raw : tensor) (g : rng) (engine : E) : result (results * float) :=
  data_tensor ← normalize_tensor (nan_to_zero raw);
  '(test_labs, test_preds, _) ←
    fold_loop IDs subjects labels data_tensor (seq 0 num_folds) (g, engine);
  (* l = test_labs[0]; for i in range(1, num_folds): l = np.vstack((l, test_labs[i])) *)
  let l := concat test_labs in
  let p := concat test_preds in
  rsq ← r_squared l p;
  Ok (Results l p IDs, rsq).

End random.

End sum.

(** *** Data for the examples

    Three scans of two subjects, two entries each: the two scans of
    subject 1 are the test instances of fold 0 of [two_folds].  The two
    runs differ in the scan of subject 2 only. *)
Definition three_subjects : list Z := [1; 1; 2]%Z.

Definition three_labels : list float := [20; 21; 30]%float.

Definition scans_a : tensor := [[0.25; -0.5]; [0.75; 0.5]; [-1; -0.5]]%float.

Definition scans_b : tensor := [[0.25; -0.5]; [0.75; 0.5]; [-1; -0.75]]%float.

(** The test data of fold 0 in the two runs, as binary32 numbers: two
    thirds and one third are [0x1.555556p-1] and [0x1.555556p-2], and the
    first entry of the second run is about -6.5e-17. *)
Definition test_data_a : tensor := [[0; -1]; [0x1.555556p-1; 0x1.555556p-2]]%float.

Definition test_data_b : tensor :=
  [[-0x1.2aaaaap-54; -1]; [0x1.555556p-1; 0x1.555556p-2]]%float.

(** Ten subjects with one scan each and a table of ten folds of one
    subject, for the examples of the cross-validation script; the engine
    counts its runs, and the prediction is the first entry of the scan. *)
Definition ten_folds : array2 := Array2 1 10 [1; 2; 3; 4; 5; 6; 7; 8; 9; 10]%Z.

Definition ten_subjects : list Z := [1; 2; 3; 4; 5; 6; 7; 8; 9; 10]%Z.

Definition ten_labels : list float := (λ i, of_count (20 + i)) <$> seq 0 10.

Definition ten_scans : tensor := (λ i, [of_count i; of_count (2 * i + 1)]) <$> seq 0 10.

Definition same_crop (x : list float) : list float := x.

Definition fresh_session (runs : nat) : nat * nat := (runs, 0).

Definition one_run (s : nat * nat) (_ : tensor) (_ : list float) : nat * nat :=
  (S s.1, S s.2).

Definition first_entry (_ : nat) (t : tensor) : list float :=
  (λ x, default nan (head x)) <$> t.

End F64.
(* ================================================================== *)
(** * Properties *)

(** Case analysis on a hypothesis [H : x ∈ [a; b; ...]] of membership in
    an explicit list. *)
Ltac list_cases H :=
  repeat (apply elem_of_cons in H as [->|H]); try (by apply elem_of_nil in H).

(** ** Arithmetic of the rationals used below *)

Lemma of_nat_S n : of_nat (S n) = (of_nat n + 1)%Qc.
Proof.
  unfold of_nat. apply Qc_is_canon.
  rewrite Nat2Z.inj_succ, <- Z.add_1_r, inject_Z_plus. simpl.
  rewrite !Qred_correct. reflexivity.
Qed.

Lemma of_nat_nonneg n : (0 ≤ of_nat n)%Qc.
Proof.
  induction n as [|n IH]; [done|].
  rewrite of_nat_S. by apply Qcplus_nonneg_nonneg.
Qed.

Lemma of_nat_pos n : (0 < n)%nat → (0 < of_nat n)%Qc.
Proof.
  destruct n as [|n]; [lia|]. intros _. rewrite of_nat_S.
  apply Qcplus_nonneg_pos; [apply of_nat_nonneg | done].
Qed.

Lemma of_nat_ne_0 n : n ≠ 0%nat → of_nat n ≠ 0%Qc.
Proof.
  intros Hn Heq. assert (0 < of_nat n)%Qc as Hlt by (apply of_nat_pos; lia).
  rewrite Heq in Hlt. by apply Qclt_not_eq in Hlt.
Qed.

Lemma Qcmax_l a b : (a ≤ Qcmax a b)%Qc.
Proof. unfold Qcmax. case_decide; [done | apply Qcle_refl]. Qed.

Lemma Qcmax_r a b : (b ≤ Qcmax a b)%Qc.
Proof.
  unfold Qcmax. case_decide; [apply Qcle_refl|].
  by apply Qclt_le_weak, Qcnot_le_lt.
Qed.

Lemma Qcmax_scale a b k : (0 < k)%Qc → Qcmax (a * k) (b * k) = (Qcmax a b * k)%Qc.
Proof.
  intros Hk. unfold Qcmax.
  destruct (decide (a ≤ b)%Qc) as [Hab|Hab];
    destruct (decide (a * k ≤ b * k)%Qc) as [Habk|Habk]; try done.
  - destruct Habk. by apply Qcmult_le_mono_pos_r.
  - destruct Hab. by apply (Qcmult_le_mono_pos_r _ _ k).
Qed.

Lemma foldl_Qcmax_ge x l : (x ≤ foldl Qcmax x l)%Qc.
Proof.
  revert x. induction l as [|y l IH]; intros x; simpl; [apply Qcle_refl|].
  eapply Qcle_trans; [apply (Qcmax_l x y) | apply IH].
Qed.

Lemma foldl_Qcmax_elem x l y : y ∈ l → (y ≤ foldl Qcmax x l)%Qc.
Proof.
  revert x. induction l as [|z l IH]; intros x Hy; simpl; [by apply elem_of_nil in Hy|].
  apply elem_of_cons in Hy as [->|Hy]; [|by apply IH].
  eapply Qcle_trans; [apply (Qcmax_r x z) | apply foldl_Qcmax_ge].
Qed.

Lemma foldl_Qcmax_scale x l k :
  (0 < k)%Qc →
  foldl Qcmax (x * k)%Qc ((λ y, y * k)%Qc <$> l) = (foldl Qcmax x l * k)%Qc.
Proof.
  intros Hk. revert x. induction l as [|y l IH]; intros x; simpl; [done|].
  by rewrite Qcmax_scale, IH.
Qed.

(** ** Sums, means and maxima of numbers *)

Lemma np_sum_Some l : np_sum (Some <$> l) = Some (Spec.sum l).
Proof.
  induction l as [|x l IH]; [done|].
  change (fadd (Some x) (np_sum (Some <$> l)) = Some (x + Spec.sum l)%Qc).
  by rewrite IH.
Qed.

Lemma np_mean_Some l : l ≠ [] → np_mean (Some <$> l) = Some (Spec.mean l).
Proof.
  intros Hl. unfold np_mean, fdiv. rewrite np_sum_Some, length_fmap.
  rewrite decide_False; [done|]. apply of_nat_ne_0. by destruct l.
Qed.

Lemma foldl_fmax_Some x l : foldl fmax (Some x) (Some <$> l) = Some (foldl Qcmax x l).
Proof. revert x. induction l as [|y l IH]; intros x; [done|]. simpl. apply IH. Qed.

Lemma np_max_Some l : l ≠ [] → np_max (Some <$> l) = Ok (Some (Spec.maximum l)).
Proof. destruct l as [|x l]; [done|]. intros _. simpl. by rewrite foldl_fmax_Some. Qed.

Lemma foldl_fmax_None (l : list fnum) : foldl fmax None l = None.
Proof. induction l as [|y l IH]; [done|]. simpl. apply IH. Qed.

Lemma np_sum_None l : None ∈ l → np_sum l = None.
Proof.
  induction l as [|x l IH]; intros Hin; [by apply elem_of_nil in Hin|].
  change (fadd x (np_sum l) = None).
  apply elem_of_cons in Hin as [<-|Hin]; [done|].
  rewrite IH by done. by destruct x.
Qed.

Lemma concat_finite t : concat (finite t) = Some <$> concat t.
Proof.
  unfold finite. induction t as [|i t IH]; [done|]. simpl. by rewrite IH, fmap_app.
Qed.

Lemma maximum_abs_nonneg l : (0 ≤ Spec.maximum (Qcabs <$> l))%Qc.
Proof.
  destruct l as [|x l]; [done|]. simpl.
  eapply Qcle_trans; [apply Qcabs_nonneg | apply foldl_Qcmax_ge].
Qed.

Lemma maximum_abs_0 l x : Spec.maximum (Qcabs <$> l) = 0%Qc → x ∈ l → x = 0%Qc.
Proof.
  intros Hmax Hx. apply Qcabs_null, Qcle_antisym; [|apply Qcabs_nonneg].
  rewrite <- Hmax. destruct l as [|y l]; [by apply elem_of_nil in Hx|]. simpl.
  apply elem_of_cons in Hx as [->|Hx]; [apply foldl_Qcmax_ge|].
  apply foldl_Qcmax_elem. by apply list_elem_of_fmap_2.
Qed.

Lemma maximum_scale l k :
  (0 < k)%Qc → Spec.maximum ((λ y, y * k)%Qc <$> l) = (Spec.maximum l * k)%Qc.
Proof.
  intros Hk. destruct l as [|x l]; simpl; [ring|]. by apply foldl_Qcmax_scale.
Qed.

(** ** Normalisation of a tensor of numbers *)

Lemma concat_tmap f t : concat (tmap f t) = f <$> concat t.
Proof.
  unfold tmap. induction t as [|i t IH]; [done|]. simpl. by rewrite IH, fmap_app.
Qed.

Lemma concat_map_map {A B} (f : A → B) (t : list (list A)) :
  concat (map (map f) t) = f <$> concat t.
Proof. induction t as [|i t IH]; [done|]. simpl. by rewrite IH, fmap_app. Qed.

Lemma map_map_compose {A B C} (f : A → B) (g : B → C) (t : list (list A)) :
  map (map g) (map (map f) t) = map (map (g ∘ f)) t.
Proof.
  rewrite map_map. apply map_ext. intros i. by rewrite map_map.
Qed.

Lemma map_map_ext {A B} (f g : A → B) (t : list (list A)) :
  (∀ x, x ∈ concat t → f x = g x) → map (map f) t = map (map g) t.
Proof.
  induction t as [|i t IH]; intros Hfg; [done|]. simpl. f_equal.
  - apply map_ext_in. intros x Hx. apply Hfg. simpl.
    apply elem_of_app. left. by apply list_elem_of_In.
  - apply IH. intros x Hx. apply Hfg. simpl. apply elem_of_app. by right.
Qed.

Lemma normalize_tensor_finite t : normalize_tensor (finite t) = normalize_finite t.
Proof.
  unfold normalize_tensor, normalize_finite.
  rewrite concat_tmap, concat_finite.
  destruct (decide (concat t = [])) as [Hnil|Hne].
  { by rewrite Hnil. }
  rewrite np_mean_Some by done.
  assert (tmap (λ x, fsub x (Some (Spec.mean (concat t)))) (finite t)
          = finite (Spec.centred t)) as ->.
  { unfold tmap, finite, Spec.centred. by rewrite !map_map_compose. }
  assert (fabs <$> ((λ x, fsub x (Some (Spec.mean (concat t)))) <$> (Some <$> concat t))
          = Some <$> (Qcabs <$> concat (Spec.centred t))) as ->.
  { unfold Spec.centred. by rewrite concat_map_map, <- !list_fmap_compose. }
  rewrite np_max_Some.
  2:{ unfold Spec.centred. rewrite concat_map_map.
      intros Hc%fmap_nil_inv%fmap_nil_inv. done. }
  simpl. fold (Spec.max_abs_dev t). unfold tmap, finite.
  rewrite map_map_compose.
  destruct (decide (Spec.max_abs_dev t = 0%Qc)) as [H0|H0].
  - f_equal. unfold all_nan. unfold Spec.centred. rewrite map_map_compose.
    apply map_map_ext. intros x _. simpl. by rewrite H0, decide_True.
  - f_equal. unfold Spec.normalize. rewrite map_map_compose.
    apply map_map_ext. intros x _. simpl. by rewrite decide_False.
Qed.

Lemma concat_all_nan {A} (t : list (list A)) :
  concat (all_nan t) = (λ _, None) <$> concat t.
Proof. apply concat_map_map. Qed.

Lemma normalize_tensor_all_nan {A} (t : list (list A)) :
  normalize_tensor (all_nan t)
  = if decide (concat t = []) then Raise ValueError else Ok (all_nan t).
Proof.
  unfold normalize_tensor. rewrite concat_tmap, !concat_all_nan.
  destruct (concat t) as [|x l] eqn:Hc; [done|].
  rewrite decide_False by done. simpl.
  rewrite foldl_fmax_None. simpl. f_equal.
  unfold tmap, all_nan. rewrite !map_map_compose.
  apply map_map_ext. done.
Qed.

(** ** The coefficient of determination on columns of numbers *)

Lemma sum_replicate n c : Spec.sum (replicate n c) = (of_nat n * c)%Qc.
Proof.
  induction n as [|n IH]; simpl.
  - change (of_nat 0) with 0%Qc. ring.
  - change (c + Spec.sum (replicate n c) = of_nat (S n) * c)%Qc.
    rewrite IH, of_nat_S. ring.
Qed.

Lemma mean_replicate n c : n ≠ 0%nat → Spec.mean (replicate n c) = c.
Proof.
  intros Hn. unfold Spec.mean. rewrite sum_replicate, length_replicate.
  field. by apply of_nat_ne_0.
Qed.

Lemma sum_squares_nonneg (f : Qc → Qc) l : (0 ≤ Spec.sum ((λ v, f v * f v)%Qc <$> l))%Qc.
Proof.
  induction l as [|x l IH]; [done|].
  change (0 ≤ f x * f x + Spec.sum ((λ v, f v * f v)%Qc <$> l))%Qc.
  apply Qcplus_nonneg_nonneg; [|done].
  destruct (Qclt_le_dec (f x) 0) as [Hneg|Hpos].
  - replace (f x * f x)%Qc with ((- f x) * (- f x))%Qc by ring.
    apply Qcmult_nonneg_nonneg; apply (Qcopp_le_compat (f x) 0); by apply Qclt_le_weak.
  - by apply Qcmult_nonneg_nonneg.
Qed.

Lemma variance_nonneg y : (0 ≤ Spec.variance y)%Qc.
Proof.
  unfold Spec.variance, Spec.mean at 1. rewrite length_fmap.
  destruct y as [|v y]; [done|].
  unfold Qcdiv. apply Qcmult_nonneg_nonneg.
  - apply (sum_squares_nonneg (λ w, w - Spec.mean (v :: y))%Qc).
  - apply Qclt_le_weak, Qcinv_pos, of_nat_pos. simpl. lia.
Qed.

Lemma variance_ne_0_nonempty y : Spec.variance y ≠ 0%Qc → y ≠ [].
Proof. intros Hv ->. by apply Hv. Qed.

Lemma zip_with_Some {A} (f : Qc → Qc → A) (a b : list Qc) (g : fnum → fnum → option A) :
  (∀ x y, g (Some x) (Some y) = Some (f x y)) →
  zip_with g (Some <$> a) (Some <$> b) = Some <$> zip_with f a b.
Proof.
  intros Hg. revert b. induction a as [|x a IH]; intros [|y b]; simpl; try done.
  by rewrite Hg, IH.
Qed.

Lemma fsquare_Some (l : list Qc) : fsquare <$> (Some <$> l) = Some <$> ((λ x, x * x)%Qc <$> l).
Proof. by rewrite <- !list_fmap_compose. Qed.

Lemma fsub_Some (l : list Qc) m :
  (λ v, fsub v (Some m)) <$> (Some <$> l) = Some <$> ((λ v, v - m)%Qc <$> l).
Proof. by rewrite <- !list_fmap_compose. Qed.

Lemma r_squared_finite (y p : list Qc) :
  length p = length y → Spec.variance y ≠ 0%Qc →
  r_squared (Some <$> y) (Some <$> p) = Ok (Some (Spec.r2 y p)).
Proof.
  intros Hlen Hvar. pose proof (variance_ne_0_nonempty _ Hvar) as Hy.
  unfold r_squared, np_broadcast2.
  rewrite decide_True by (by rewrite !length_fmap). simpl.
  rewrite (zip_with_Some Qcminus) by done.
  rewrite (np_mean_Some y), fsub_Some, !fsquare_Some by done.
  rewrite !np_mean_Some.
  2:{ by intros Hnil%fmap_nil_inv%fmap_nil_inv. }
  2:{ intros Hnil%fmap_nil_inv. destruct y, p; simplify_eq/=. }
  assert (Spec.mean ((λ x, x * x)%Qc <$> ((λ v, v - Spec.mean y)%Qc <$> y))
          = Spec.variance y) as ->.
  { unfold Spec.variance. by rewrite <- list_fmap_compose. }
  assert (Spec.mean ((λ x, x * x)%Qc <$> zip_with Qcminus y p) = Spec.mse y p) as ->.
  { unfold Spec.mse. f_equal. clear.
    revert p. induction y as [|v y IH]; intros [|w p]; simpl; try done.
    by rewrite IH. }
  unfold fdiv. by rewrite decide_False.
Qed.

Lemma mse_same y : Spec.mse y y = 0%Qc.
Proof.
  unfold Spec.mse, Spec.mean.
  assert (Spec.sum (zip_with (λ v w, (v - w) * (v - w))%Qc y y) = 0%Qc) as ->.
  { induction y as [|v y IH]; [done|]. simpl.
    change ((v - v) * (v - v) + Spec.sum (zip_with (λ v w, (v - w) * (v - w))%Qc y y) = 0)%Qc.
    rewrite IH. ring. }
  unfold Qcdiv. ring.
Qed.

Lemma mse_mean y : Spec.mse y (replicate (length y) (Spec.mean y)) = Spec.variance y.
Proof.
  unfold Spec.mse, Spec.variance. f_equal.
  generalize (Spec.mean y). intros m.
  induction y as [|v y IH]; [done|]. simpl. by rewrite IH.
Qed.

Lemma mse_shift y c : y ≠ [] → Spec.mse y ((λ v, v + c)%Qc <$> y) = (c * c)%Qc.
Proof.
  intros Hy. unfold Spec.mse.
  assert (zip_with (λ v w, (v - w) * (v - w))%Qc y ((λ v, v + c)%Qc <$> y)
          = replicate (length y) (c * c)%Qc) as ->.
  { clear. induction y as [|v y IH]; [done|]. simpl. f_equal; [ring | apply IH]. }
  apply mean_replicate. by destruct y.
Qed.

(** ** Normalising twice: an affine change of the entries is forgotten *)

Lemma sum_affine (l : list Qc) a c :
  Spec.sum ((λ x, (x - a) / c)%Qc <$> l) = ((Spec.sum l - of_nat (length l) * a) / c)%Qc.
Proof.
  induction l as [|x l IH].
  - simpl. change (of_nat 0) with 0%Qc. unfold Qcdiv. ring.
  - change (((x - a) / c + Spec.sum ((λ x, (x - a) / c)%Qc <$> l))%Qc
            = ((x + Spec.sum l - of_nat (S (length l)) * a) / c)%Qc).
    rewrite IH, of_nat_S. unfold Qcdiv. ring.
Qed.

Lemma mean_affine (l : list Qc) a c :
  l ≠ [] → c ≠ 0%Qc →
  Spec.mean ((λ x, (x - a) / c)%Qc <$> l) = ((Spec.mean l - a) / c)%Qc.
Proof.
  intros Hl Hc. unfold Spec.mean. rewrite sum_affine, length_fmap.
  field. split; [|done]. apply of_nat_ne_0. by destruct l.
Qed.

Lemma Qcabs_div_pos y c : (0 < c)%Qc → Qcabs (y / c) = (Qcabs y * / c)%Qc.
Proof.
  intros Hc. unfold Qcdiv. rewrite Qcabs_Qcmult. f_equal.
  apply Qcabs_pos, Qclt_le_weak. by apply Qcinv_pos.
Qed.

Lemma centred_affine (t : list (list Qc)) a c :
  concat t ≠ [] → c ≠ 0%Qc →
  Spec.centred (map (map (λ x, (x - a) / c)%Qc) t)
  = map (map (λ y, y / c)%Qc) (Spec.centred t).
Proof.
  intros Ht Hc. unfold Spec.centred.
  rewrite concat_map_map, mean_affine by done.
  rewrite !map_map_compose. apply map_map_ext. intros x _. simpl. by field.
Qed.

Lemma max_abs_dev_affine (t : list (list Qc)) a c :
  concat t ≠ [] → (0 < c)%Qc →
  Spec.max_abs_dev (map (map (λ x, (x - a) / c)%Qc) t) = (Spec.max_abs_dev t / c)%Qc.
Proof.
  intros Ht Hc. assert (c ≠ 0%Qc) as Hc0 by (intros ->; by apply Qclt_not_eq in Hc).
  unfold Spec.max_abs_dev. rewrite centred_affine by done.
  rewrite concat_map_map, <- list_fmap_compose.
  unfold Qcdiv at 2. rewrite <- (maximum_scale _ (/ c)%Qc) by (by apply Qcinv_pos).
  rewrite <- list_fmap_compose. f_equal. apply list_fmap_ext.
  intros _ y _. simpl. by apply Qcabs_div_pos.
Qed.

Lemma all_nan_map {A B} (f : A → B) (t : list (list A)) :
  all_nan (map (map f) t) = all_nan t.
Proof. unfold all_nan. by rewrite map_map_compose. Qed.

Lemma normalize_finite_affine (t : list (list Qc)) a c :
  (0 < c)%Qc →
  normalize_finite (map (map (λ x, (x - a) / c)%Qc) t) = normalize_finite t.
Proof.
  intros Hc. assert (c ≠ 0%Qc) as Hc0 by (intros ->; by apply Qclt_not_eq in Hc).
  unfold normalize_finite. rewrite concat_map_map.
  destruct (decide (concat t = [])) as [Hnil|Hne].
  { by rewrite Hnil. }
  rewrite decide_False by (by intros ?%fmap_nil_inv).
  rewrite max_abs_dev_affine by done.
  destruct (decide (Spec.max_abs_dev t = 0%Qc)) as [H0|H0].
  - rewrite decide_True by (rewrite H0; unfold Qcdiv; ring).
    by rewrite all_nan_map.
  - rewrite decide_False.
    2:{ intros Hq. apply H0.
        replace (Spec.max_abs_dev t) with (Spec.max_abs_dev t / c * c)%Qc by (by field).
        rewrite Hq. ring. }
    do 2 f_equal. unfold Spec.normalize.
    rewrite max_abs_dev_affine, centred_affine by done.
    rewrite map_map_compose. apply map_map_ext. intros y _. simpl. by field.
Qed.

(** A tensor whose largest deviation from the mean is 0 is constant, and
    so is every selection of its instances. *)
Lemma max_abs_dev_0_const (t : list (list Qc)) x :
  Spec.max_abs_dev t = 0%Qc → x ∈ concat t → x = Spec.mean (concat t).
Proof.
  intros H0 Hx. unfold Spec.max_abs_dev in H0.
  assert ((x - Spec.mean (concat t))%Qc = 0%Qc) as Hd.
  { eapply maximum_abs_0; [done|]. unfold Spec.centred. rewrite concat_map_map.
    by apply (list_elem_of_fmap_2 (λ x, x - Spec.mean (concat t))%Qc). }
  replace x with (x - Spec.mean (concat t) + Spec.mean (concat t))%Qc by ring.
  rewrite Hd. ring.
Qed.

Lemma const_replicate {A} (l : list A) a : (∀ x, x ∈ l → x = a) → l = replicate (length l) a.
Proof.
  induction l as [|x l IH]; intros Hl; [done|]. simpl. f_equal.
  - apply Hl. by left.
  - apply IH. intros y Hy. apply Hl. by right.
Qed.

Lemma maximum_zeros n : Spec.maximum (replicate n 0%Qc) = 0%Qc.
Proof.
  assert (Qcmax 0 0 = 0%Qc) as Hm by (unfold Qcmax; by case_decide).
  destruct n as [|n]; [done|]. simpl.
  induction n as [|n IH]; [done|]. simpl. by rewrite Hm.
Qed.

Lemma max_abs_dev_const (t : list (list Qc)) a :
  (∀ x, x ∈ concat t → x = a) → Spec.max_abs_dev t = 0%Qc.
Proof.
  intros Hc. unfold Spec.max_abs_dev, Spec.centred. rewrite concat_map_map.
  destruct (decide (concat t = [])) as [Hnil|Hne]; [by rewrite Hnil|].
  assert (length (concat t) ≠ 0) as Hlen by (by destruct (concat t)).
  rewrite (const_replicate _ _ Hc).
  rewrite mean_replicate by done.
  rewrite !fmap_replicate.
  replace (Qcabs (a - a)) with 0%Qc; [apply maximum_zeros|].
  replace (a - a)%Qc with 0%Qc by ring. symmetry. by apply Qcabs_pos.
Qed.

(** ** Selection by a boolean mask *)

Lemma select_map {A B} (f : A → B) (m : list bool) (a : list A) :
  select m (map f a) = map f (select m a).
Proof.
  revert a. induction m as [|b m IH]; intros [|x a]; simpl; try done.
  destruct b; simpl; by rewrite IH.
Qed.

Lemma select_length_compl {A} (m : list bool) (a : list A) :
  length m = length a →
  length (select (negb <$> m) a) + length (select m a) = length a.
Proof.
  revert a. induction m as [|b m IH]; intros [|x a] Hlen; simplify_eq/=; [done|].
  specialize (IH a Hlen). destruct b; simpl; lia.
Qed.

Lemma select_length_eq {A B} (m : list bool) (a : list A) (b : list B) :
  length a = length b → length (select m a) = length (select m b).
Proof.
  revert a b. induction m as [|c m IH]; intros [|x a] [|y b] Hlen; try done.
  injection Hlen as Hlen. specialize (IH a b Hlen). destruct c; simpl; lia.
Qed.

Lemma elem_of_select {A} (m : list bool) (a : list A) x : x ∈ select m a → x ∈ a.
Proof.
  revert a. induction m as [|b m IH]; intros [|y a]; simpl;
    try (by intros ?%elem_of_nil).
  destruct b; [intros [->|Hx]%elem_of_cons|intros Hx].
  - by left.
  - right. by apply IH.
  - right. by apply IH.
Qed.

Lemma filter_all {A} (P : A → Prop) `{∀ x, Decision (P x)} (l : list A) :
  Forall P l → filter P l = l.
Proof.
  induction 1 as [|x l Hx _ IH]; [done|].
  by rewrite filter_cons_True, IH.
Qed.

Lemma elem_of_concat {A} (t : list (list A)) x :
  x ∈ concat t ↔ ∃ l, l ∈ t ∧ x ∈ l.
Proof.
  rewrite list_elem_of_In, in_concat. split.
  - intros (l & Hl & Hx). exists l. by rewrite !list_elem_of_In.
  - intros (l & Hl & Hx). exists l. by rewrite <- !list_elem_of_In.
Qed.

Lemma concat_ne_nil {A} (t : list (list A)) i : i ∈ t → i ≠ [] → concat t ≠ [].
Proof.
  intros Hi Hne Hnil. destruct i as [|x i]; [done|].
  assert (x ∈ concat t) as Hx.
  { apply elem_of_concat. exists (x :: i). split; [done | by left]. }
  rewrite Hnil in Hx. by apply elem_of_nil in Hx.
Qed.

Lemma elem_of_concat_select {A} (m : list bool) (t : list (list A)) x :
  x ∈ concat (select m t) → x ∈ concat t.
Proof.
  rewrite !elem_of_concat. intros (i & Hi & Hx).
  exists i. split; [|done]. by eapply elem_of_select.
Qed.

(** [select] in terms of the positions of the mask. *)
Lemma elem_of_select_lookup {A} (m : list bool) (a : list A) x :
  x ∈ select m a ↔ ∃ i, m !! i = Some true ∧ a !! i = Some x.
Proof.
  revert a. induction m as [|b m IH]; intros [|y a]; simpl.
  - split; [by intros ?%elem_of_nil | by intros (i & ? & ?)].
  - split; [by intros ?%elem_of_nil | by intros (i & ? & ?)].
  - split; [by intros ?%elem_of_nil | by intros (i & ? & ?)].
  - destruct b.
    + rewrite elem_of_cons, IH. split.
      * intros [->|(i & Hm & Ha)]; [by exists 0 | by exists (S i)].
      * intros ([|i] & Hm & Ha); simplify_eq/=; [by left | right; by exists i].
    + rewrite IH. split.
      * intros (i & Hm & Ha). by exists (S i).
      * intros ([|i] & Hm & Ha); simplify_eq/=. by exists i.
Qed.

Lemma concat_nil_shape {A} (t : list (list A)) :
  concat t = [] ↔ list_sum (shape t) = 0.
Proof.
  unfold shape. rewrite <- length_concat. split; [by intros -> | apply nil_length_inv].
Qed.

Lemma shape_select {A} (m : list bool) (t : list (list A)) :
  shape (select m t) = select m (shape t).
Proof. unfold shape. symmetry. apply (select_map length). Qed.

Lemma shape_map_map {A B} (f : A → B) (t : list (list A)) : shape (map (map f) t) = shape t.
Proof.
  unfold shape. rewrite map_map. apply map_ext. intros i. apply length_map.
Qed.

Lemma nan_to_zero_finite raw : nan_to_zero raw = finite (zeroed raw).
Proof. unfold nan_to_zero, tmap, finite, zeroed. by rewrite map_map_compose. Qed.

Lemma normalize_as_affine (q : list (list Qc)) :
  Spec.normalize q
  = map (map (λ x, (x - Spec.mean (concat q)) / Spec.max_abs_dev q)%Qc) q.
Proof. unfold Spec.normalize, Spec.centred. by rewrite map_map_compose. Qed.

Lemma max_abs_dev_nonneg q : (0 ≤ Spec.max_abs_dev q)%Qc.
Proof. apply maximum_abs_nonneg. Qed.

Lemma normalize_finite_length q t : normalize_finite q = Ok t → length t = length q.
Proof.
  unfold normalize_finite. repeat case_decide; intros [= <-].
  - unfold all_nan. by rewrite length_map.
  - unfold finite, Spec.normalize, Spec.centred. by rewrite !length_map.
Qed.

Lemma normalize_finite_raise q :
  concat q = [] → normalize_finite q = Raise ValueError.
Proof. intros Hq. unfold normalize_finite. by rewrite decide_True. Qed.

Lemma normalize_finite_ok q :
  concat q ≠ [] → ∃ t, normalize_finite q = Ok t.
Proof.
  intros Hq. unfold normalize_finite. rewrite decide_False by done.
  case_decide; by eexists.
Qed.

Lemma select_all_nan {A} (m : list bool) (t : list (list A)) :
  select m (all_nan t) = all_nan (select m t).
Proof. apply select_map. Qed.

Lemma select_finite (m : list bool) (t : list (list Qc)) :
  select m (finite t) = finite (select m t).
Proof. apply select_map. Qed.

(** ** Indexing by an index array *)

Lemma take_rows_ok {A} (idx : list nat) (a : list A) :
  Forall (λ i, i < length a) idx → take_rows idx a = Ok (gather idx a).
Proof.
  induction 1 as [|i idx Hi _ IH]; [done|].
  change (take_rows (i :: idx) a)
    with (get_item a i ≫= λ y, take_rows idx a ≫= λ k, mret (y :: k)).
  apply lookup_lt_is_Some_2 in Hi as [x Hx].
  rewrite IH. unfold get_item, gather. simpl. by rewrite Hx.
Qed.

Lemma gather_seq_app {A} (pre a : list A) :
  gather (seq (length pre) (length a)) (pre ++ a) = a.
Proof.
  unfold gather. revert pre. induction a as [|x a IH]; intros pre; [done|]. simpl.
  rewrite list_lookup_middle by done. f_equal.
  specialize (IH (pre ++ [x])). rewrite length_app, <- app_assoc in IH. simpl in IH.
  by rewrite Nat.add_1_r in IH.
Qed.

Lemma gather_seq {A} (a : list A) : gather (seq 0 (length a)) a = a.
Proof. apply (gather_seq_app []). Qed.

Lemma gather_Permutation {A} (idx : list nat) (a : list A) :
  idx ≡ₚ seq 0 (length a) → gather idx a ≡ₚ a.
Proof.
  intros Hp. unfold gather. rewrite Hp. fold (gather (seq 0 (length a)) a).
  by rewrite gather_seq.
Qed.

Lemma gather_length {A} (idx : list nat) (a : list A) :
  Forall (λ i, i < length a) idx → length (gather idx a) = length idx.
Proof.
  induction 1 as [|i idx Hi _ IH]; [done|].
  apply lookup_lt_is_Some_2 in Hi as [x Hx].
  unfold gather in *. simpl. rewrite Hx. simpl. f_equal. apply IH.
Qed.

Lemma gather_zip {A B} (idx : list nat) (a : list A) (b : list B) :
  length a = length b →
  gather idx (zip a b) = zip (gather idx a) (gather idx b).
Proof.
  intros Hlen. unfold gather. induction idx as [|i idx IH]; [done|]. simpl.
  rewrite lookup_zip_with.
  destruct (a !! i) as [x|] eqn:Ha; simpl.
  - apply lookup_lt_Some in Ha as Hi. rewrite Hlen in Hi.
    apply lookup_lt_is_Some_2 in Hi as [y ->]. simpl. f_equal. apply IH.
  - apply lookup_ge_None in Ha. rewrite Hlen in Ha.
    apply lookup_ge_None in Ha. by rewrite Ha.
Qed.

Lemma Permutation_seq_bound (idx : list nat) n :
  idx ≡ₚ seq 0 n → Forall (λ i, i < n) idx.
Proof.
  intros Hp. rewrite Hp. apply Forall_seq. lia.
Qed.

(** ** Columns of a 2-D array *)

Lemma mapM_fmap_result {A B C} (f : B → result C) (g : A → B) (l : list A) :
  mapM (λ x, f (g x)) l = mapM f (g <$> l).
Proof.
  induction l as [|x l IH]; [done|].
  change (f (g x) ≫= (λ y, mapM (λ x, f (g x)) l ≫= λ k, mret (y :: k))
          = f (g x) ≫= (λ y, mapM f (g <$> l) ≫= λ k, mret (y :: k))).
  by rewrite IH.
Qed.

Lemma column_ok (t : array2) (c : nat) :
  length (a2_flat t) = a2_rows t * a2_cols t → c < a2_cols t →
  column t c
  = Ok (gather ((λ r, r * a2_cols t + c) <$> seq 0 (a2_rows t)) (a2_flat t)).
Proof.
  intros Hlen Hc. unfold column. rewrite decide_True by done.
  rewrite (mapM_fmap_result (get_item (a2_flat t)) (λ r, r * a2_cols t + c)).
  apply take_rows_ok. apply Forall_fmap, Forall_seq. intros r Hr. simpl. nia.
Qed.

Lemma in_column_entry (t : array2) (c : nat) (x : Z) :
  length (a2_flat t) = a2_rows t * a2_cols t →
  in_column t c x ↔ c < a2_cols t ∧ ∃ r, entry t r c = Some x.
Proof.
  intros Hlen. unfold in_column, entry. split.
  - intros (col & Hcol & Hx).
    destruct (decide (c < a2_cols t)) as [Hc|Hc].
    2:{ unfold column in Hcol. by rewrite decide_False in Hcol. }
    split; [done|]. rewrite column_ok in Hcol by done. injection Hcol as <-.
    apply list_elem_of_omap in Hx as (i & Hi & Hx).
    apply list_elem_of_fmap in Hi as (r & -> & Hr). apply elem_of_seq in Hr.
    exists r. by rewrite decide_True by lia.
  - intros (Hc & r & Hr). case_decide as Hrc; [|done].
    eexists. split; [by apply column_ok|].
    apply list_elem_of_omap. exists (r * a2_cols t + c). split; [|done].
    apply list_elem_of_fmap. exists r. split; [done|]. apply elem_of_seq. lia.
Qed.

Lemma column_length (t : array2) (c : nat) col :
  length (a2_flat t) = a2_rows t * a2_cols t →
  column t c = Ok col → length col = a2_rows t.
Proof.
  intros Hlen Hcol.
  destruct (decide (c < a2_cols t)) as [Hc|Hc].
  2:{ unfold column in Hcol. by rewrite decide_False in Hcol. }
  rewrite column_ok in Hcol by done. injection Hcol as <-.
  rewrite gather_length, length_fmap, length_seq; [done|].
  apply Forall_fmap, Forall_seq. intros r Hr. simpl. nia.
Qed.

(** The entries of a table whose flat content is a list of distinct
    non-zero identifiers followed by zeros. *)
Lemma padded_table_entries (s1 : list Z) (n k pad : nat) :
  NoDup s1 → 0%Z ∉ s1 → k ≠ 0 → length s1 + pad = n * k →
  let t := Array2 n k (s1 ++ replicate pad 0%Z) in
  (∀ x, x ∈ s1 →
        ∃ r c, entry t r c = Some x
               ∧ ∀ r' c', entry t r' c' = Some x → r' = r ∧ c' = c)
  ∧ (∀ r c x, entry t r c = Some x → x ∈ s1 ∨ x = 0%Z).
Proof.
  intros Hnd H0 Hk Hlen t. split.
  - intros x Hx. apply list_elem_of_lookup in Hx as [i Hi].
    apply lookup_lt_Some in Hi as Hlt.
    pose proof (Nat.div_mod_eq i k) as Hdm.
    pose proof (Nat.mod_upper_bound i k Hk) as Hm.
    exists (i `div` k), (i `mod` k). split.
    + unfold entry, t. simpl. rewrite decide_True by (split; [nia | done]).
      replace (i `div` k * k + i `mod` k) with i by lia.
      by rewrite lookup_app_l.
    + intros r' c'. unfold entry, t. simpl. case_decide as Hrc; [|done].
      intros Hj. apply lookup_app_Some in Hj as [Hj|[_ Hj]].
      * pose proof (NoDup_lookup _ _ _ _ Hnd Hi Hj) as Hij.
        split.
        -- apply (Nat.div_unique i k r' c'); lia.
        -- apply (Nat.mod_unique i k r' c'); lia.
      * apply lookup_replicate in Hj as [-> _]. destruct H0.
        by eapply list_elem_of_lookup_2.
  - intros r c x. unfold entry, t. simpl. case_decide; [|done].
    intros Hj. apply lookup_app_Some in Hj as [Hj|[_ Hj]].
    + left. by eapply list_elem_of_lookup_2.
    + right. by apply lookup_replicate in Hj as [-> _].
Qed.

(** ** Properties that hold for every pseudo-random generator *)

Section random_props.

Context {rng : Type} (perm : nat → rng → list nat * rng).
Hypothesis perm_spec : ∀ n g, (perm n g).1 ≡ₚ seq 0 n.

Lemma randomize_tensor_ok {A B} (dataset : list A) (labels : list B) g :
  length dataset = length labels →
  randomize_tensor perm dataset labels g
  = Ok (gather (perm (length labels) g).1 dataset,
        gather (perm (length labels) g).1 labels,
        (perm (length labels) g).2).
Proof.
  intros Hlen. unfold randomize_tensor.
  pose proof (perm_spec (length labels) g) as Hp.
  destruct (perm (length labels) g) as [p g']. simpl in *.
  apply Permutation_seq_bound in Hp as Hb.
  rewrite !take_rows_ok by (by rewrite ?Hlen).
  done.
Qed.

Lemma randomize_tensor_length {A B} (dataset : list A) (labels : list B) g d l g' :
  length dataset = length labels →
  randomize_tensor perm dataset labels g = Ok (d, l, g') →
  length d = length labels ∧ length l = length labels.
Proof.
  intros Hlen. rewrite randomize_tensor_ok by done. intros [= <- <- <-].
  pose proof (perm_spec (length labels) g) as Hp.
  apply Permutation_seq_bound in Hp as Hb.
  rewrite !gather_length by (by rewrite ?Hlen).
  apply Permutation_length in Hp. rewrite length_seq in Hp. done.
Qed.

(** *** The assembler of a fold *)

Lemma normalize_tensor_length t t' : normalize_tensor t = Ok t' → length t' = length t.
Proof.
  unfold normalize_tensor. destruct (np_max _); simpl; [|done].
  intros [= <-]. unfold tmap. by rewrite !length_map.
Qed.

Lemma normalize_tensor_ok t : concat t ≠ [] → ∃ t', normalize_tensor t = Ok t'.
Proof.
  intros Ht. unfold normalize_tensor. rewrite concat_tmap.
  destruct (concat t) as [|x l]; [done|]. simpl. by eexists.
Qed.

Lemma normalize_tensor_raise t : concat t = [] → normalize_tensor t = Raise ValueError.
Proof. intros Ht. unfold normalize_tensor. by rewrite concat_tmap, Ht. Qed.

Lemma test_mask_length fold IDs subjects mask :
  test_mask fold IDs subjects = Ok mask → length mask = length subjects.
Proof.
  unfold test_mask. destruct (column IDs fold); simpl; [|done].
  intros [= <-]. unfold np_in1d. by rewrite length_fmap.
Qed.

Lemma test_mask_lookup fold IDs subjects mask i s :
  test_mask fold IDs subjects = Ok mask → subjects !! i = Some s →
  ∃ b, mask !! i = Some b ∧ (b = true ↔ in_column IDs fold s).
Proof.
  unfold test_mask, in_column. destruct (column IDs fold) as [col|]; simpl; [|done].
  intros [= <-] Hs. exists (bool_decide (s ∈ col)). split.
  - unfold np_in1d. by rewrite list_lookup_fmap, Hs.
  - rewrite bool_decide_eq_true. split.
    + intros Hin. by exists col.
    + by intros (col' & [= <-] & Hin).
Qed.

Lemma create_train_and_test_data_spec {B} fold IDs subjects (labels : list B)
    (data : tensor) g mask :
  test_mask fold IDs subjects = Ok mask →
  length data = length subjects → length labels = length subjects →
  create_train_and_test_data perm fold IDs subjects labels data g
  = (test_data ← normalize_tensor (select mask data);
     train_data ← normalize_tensor (select (negb <$> mask) data);
     let train_labels := select (negb <$> mask) labels in
     let p := perm (length train_labels) g in
     Ok (gather p.1 train_data, gather p.1 train_labels,
         test_data, select mask labels, p.2)).
Proof.
  intros Hmask Hd Hl. pose proof (test_mask_length _ _ _ _ Hmask) as Hm.
  unfold create_train_and_test_data. rewrite Hmask. simpl.
  unfold bool_index. rewrite !length_fmap.
  rewrite !decide_True by congruence. simpl.
  destruct (normalize_tensor (select mask data)) as [td|]; simpl; [|done].
  destruct (normalize_tensor (select (negb <$> mask) data)) as [trd|] eqn:Htr;
    simpl; [|done].
  rewrite randomize_tensor_ok; [done|].
  apply normalize_tensor_length in Htr. rewrite Htr.
  apply select_length_eq. congruence.
Qed.

Lemma normalize_tensor_cases (t : tensor) :
  (list_sum (shape t) = 0 ∧ normalize_tensor t = Raise ValueError)
  ∨ (list_sum (shape t) ≠ 0 ∧ ∃ t', normalize_tensor t = Ok t').
Proof.
  destruct (decide (list_sum (shape t) = 0)) as [Hnil|Hne].
  - left. split; [done|]. apply normalize_tensor_raise. by apply concat_nil_shape.
  - right. split; [done|]. apply normalize_tensor_ok. by rewrite concat_nil_shape.
Qed.

(** The test part that the assembler answers is the same for two tensors
    of the same shape that agree on the test instances. *)
Lemma create_test_part_agree {B} fold IDs subjects (labels : list B)
    (data_A data_B : tensor) g_A g_B mask :
  test_mask fold IDs subjects = Ok mask →
  length data_A = length subjects → length labels = length subjects →
  shape data_A = shape data_B →
  select mask data_A = select mask data_B →
  test_part (create_train_and_test_data perm fold IDs subjects labels data_A g_A)
  = test_part (create_train_and_test_data perm fold IDs subjects labels data_B g_B).
Proof.
  intros Hmask HdA Hl Hshape Hagree.
  assert (length data_B = length subjects) as HdB.
  { rewrite <- HdA. unfold shape in Hshape.
    by rewrite <- (length_map length data_A), Hshape, length_map. }
  rewrite !(create_train_and_test_data_spec fold IDs subjects labels _ _ mask) by done.
  rewrite <- Hagree.
  destruct (normalize_tensor (select mask data_A)) as [td|]; simpl; [|done].
  destruct (normalize_tensor_cases (select (negb <$> mask) data_A))
    as [[HA ->]|[HA [tA ->]]];
    destruct (normalize_tensor_cases (select (negb <$> mask) data_B))
      as [[HB ->]|[HB [tB ->]]]; try done;
    rewrite !shape_select, Hshape, <- shape_select in HA; done.
Qed.

(** *** The table of folds *)

Lemma ceil_div_bounds a k :
  k ≠ 0 →
  a ≤ ceil_div a k * k ∧ ceil_div a k * k < a + k
  ∧ (ceil_div a k * k = a ↔ a `mod` k = 0).
Proof.
  intros Hk. unfold ceil_div.
  pose proof (Nat.div_mod_eq a k) as Hdm.
  pose proof (Nat.mod_upper_bound a k Hk) as Hm.
  case_decide; nia.
Qed.

Lemma gather_perm_length {A} (a : list A) n g :
  length (gather (perm n g).1 a) = n ∨ n ≠ length a.
Proof.
  destruct (decide (n = length a)) as [->|]; [left | by right].
  pose proof (perm_spec (length a) g) as Hp.
  rewrite gather_length by (by apply Permutation_seq_bound).
  apply Permutation_length in Hp. by rewrite length_seq in Hp.
Qed.

Lemma create_train_and_test_folds_spec k subjects (h : gmap loc (list Z)) g s0 :
  k ≠ 0 → h !! subjects = Some s0 →
  let n := ceil_div (length s0) k in
  let s1 := gather (perm (length s0) g).1 s0 in
  let h1 := <[subjects := s1]> h in
  let s := fresh (dom h1) in
  create_train_and_test_folds perm k subjects h g
  = if decide (length s0 `mod` k = 0)
    then Ok (View2 subjects n k, h1, (perm (length s0) g).2)
    else Ok (View2 s n k,
             <[s := s1 ++ replicate (n * k - length s0) 0%Z]> h1,
             (perm (length s0) g).2).
Proof.
  intros Hk Hs0 n s1 h1 s. unfold create_train_and_test_folds.
  rewrite Hs0, decide_False by done. fold n.
  pose proof (perm_spec (length s0) g) as Hp.
  apply Permutation_seq_bound in Hp as Hb.
  destruct (gather_perm_length s0 (length s0) g) as [Hlen|]; [|done].
  fold s1 in Hlen.
  destruct (perm (length s0) g) as [p g'] eqn:Hpg. simpl in *.
  rewrite take_rows_ok by done. simpl. fold s1 h1 s. rewrite Hlen.
  destruct (ceil_div_bounds (length s0) k Hk) as (Hle & _ & Hiff). fold n in Hle, Hiff.
  destruct (decide (length s0 `mod` k = 0)) as [Hmod|Hmod].
  - rewrite decide_False by (intros Hne; apply Hne; symmetry; by apply Hiff).
    unfold reshape, h1. rewrite lookup_insert_eq, Hlen.
    rewrite decide_True by (symmetry; by apply Hiff). done.
  - rewrite decide_True by (intros Heq; apply Hmod, Hiff; done).
    rewrite length_replicate, decide_True by done.
    unfold reshape. rewrite lookup_insert_eq, drop_replicate.
    rewrite length_app, length_replicate, Hlen.
    rewrite decide_True by lia. done.
Qed.

(** *** One step of the training loop *)

Section loop_props.

Context {A B V : Type} (run : V → list A → list B → V).

Lemma train_step_spec bs (st : loop_state (rng:=rng) (A:=A) (B:=B) (V:=V)) step :
  let N := length (train_labels st) in
  let o := ((Z.of_nat step * Z.of_nat bs) `mod` (Z.of_nat N - Z.of_nat bs))%Z in
  length (train_data st) = N → bs < N →
  ∃ d l g',
    (if decide (o = 0%Z)
     then randomize_tensor perm (train_data st) (train_labels st) (gen st)
     else Ok (train_data st, train_labels st, gen st)) = Ok (d, l, g')
    ∧ length d = N ∧ length l = N
    ∧ (0 ≤ o < Z.of_nat N - Z.of_nat bs)%Z
    ∧ train_step perm run bs st step
      = Ok (LoopState d l g'
              (run (variables st) (take bs (drop (Z.to_nat o) d))
                                  (take bs (drop (Z.to_nat o) l))),
            Feed step o (take bs (drop (Z.to_nat o) d)) (take bs (drop (Z.to_nat o) l))).
Proof.
  intros N o Hd Hbs.
  assert (0 ≤ o < Z.of_nat N - Z.of_nat bs)%Z as Ho by (apply Z.mod_pos_bound; lia).
  assert (∃ d l g',
    (if decide (o = 0%Z)
     then randomize_tensor perm (train_data st) (train_labels st) (gen st)
     else Ok (train_data st, train_labels st, gen st)) = Ok (d, l, g')
    ∧ length d = N ∧ length l = N) as (d & l & g' & Hr & Hld & Hll).
  { case_decide.
    - rewrite randomize_tensor_ok by done. eexists _, _, _. split; [done|].
      eapply randomize_tensor_length; [done | by apply randomize_tensor_ok].
    - by eexists _, _, _. }
  exists d, l, g'. split_and!; try done; try lia.
  unfold train_step, batch_offset, py_mod. fold N.
  rewrite decide_False by lia. simpl. fold o. rewrite Hr. simpl.
  assert (∀ {C} (c : list C), length c = N →
            py_slice o (o + Z.of_nat bs) c = take bs (drop (Z.to_nat o) c)) as Hslice.
  { intros C c Hc. unfold py_slice. rewrite Hc. cbv beta zeta.
    rewrite !decide_False by lia. f_equal; [lia | f_equal; lia]. }
  rewrite !Hslice by done. unfold session_run.
  rewrite decide_True; [done|].
  rewrite !length_take, !length_drop. lia.
Qed.

Lemma train_step_equal bs (st : loop_state (rng:=rng) (A:=A) (B:=B) (V:=V)) step :
  length (train_labels st) = bs →
  train_step perm run bs st step = Raise ZeroDivisionError.
Proof.
  intros HN. unfold train_step, batch_offset, py_mod.
  by rewrite decide_True by lia.
Qed.

Lemma py_slice_length {C} lo hi (c : list C) : length (py_slice lo hi c) ≤ length c.
Proof. unfold py_slice. rewrite length_take, length_drop. lia. Qed.

Lemma train_step_short bs (st : loop_state (rng:=rng) (A:=A) (B:=B) (V:=V)) step :
  length (train_data st) = length (train_labels st) →
  length (train_labels st) < bs →
  train_step perm run bs st step = Raise ValueError.
Proof.
  intros Hd HN. unfold train_step, batch_offset, py_mod.
  rewrite decide_False by lia. simpl.
  match goal with |- context [decide (?o = 0%Z)] => generalize o end. intros o.
  assert (∃ d l g',
    (if decide (o = 0%Z)
     then randomize_tensor perm (train_data st) (train_labels st) (gen st)
     else Ok (train_data st, train_labels st, gen st)) = Ok (d, l, g')
    ∧ length l = length (train_labels st)) as (d & l & g' & -> & Hl).
  { case_decide.
    - rewrite randomize_tensor_ok by done. eexists _, _, _. split; [done|].
      eapply randomize_tensor_length; [done | by apply randomize_tensor_ok].
    - by eexists _, _, _. }
  simpl. unfold session_run. rewrite decide_False; [done|].
  intros [_ Hlen].
  pose proof (py_slice_length o (o + Z.of_nat bs) l). lia.
Qed.

Lemma train_loop_spec bs (st : loop_state (rng:=rng) (A:=A) (B:=B) (V:=V)) steps :
  let N := length (train_labels st) in
  length (train_data st) = N → bs < N →
  ∃ st' fs,
    train_loop perm run bs st steps = Ok (st', fs)
    ∧ length (train_data st') = N ∧ length (train_labels st') = N
    ∧ feed_offset <$> fs
      = (λ s, (Z.of_nat s * Z.of_nat bs) `mod` (Z.of_nat N - Z.of_nat bs))%Z <$> steps.
Proof.
  intros N. unfold N. clear N. revert st.
  induction steps as [|s steps IH]; intros st Hd Hbs; simpl.
  { by eexists _, _. }
  destruct (train_step_spec bs st s Hd Hbs) as (d & l & g' & _ & Hld & Hll & _ & ->).
  simpl.
  match goal with |- context [train_loop perm run bs ?st1 steps] =>
    destruct (IH st1) as (st' & fs & -> & Hd' & Hl' & Hfs) end; simpl in *.
  { congruence. } { lia. }
  eexists _, _. split; [done|]. rewrite Hll in *. split_and!; [done..|].
  rewrite fmap_cons, Hfs. done.
Qed.

Lemma train_loop_invariant (P : V → Prop) bs
    (st st' : loop_state (rng:=rng) (A:=A) (B:=B) (V:=V)) steps fs :
  (∀ v bd bl, P v → P (run v bd bl)) →
  P (variables st) →
  train_loop perm run bs st steps = Ok (st', fs) →
  P (variables st').
Proof.
  intros Hrun. revert st fs. induction steps as [|s steps IH]; intros st fs HP; simpl.
  { by intros [= <- <-]. }
  destruct (train_step perm run bs st s) as [[st1 f]|] eqn:Hstep; simpl; [|done].
  destruct (train_loop perm run bs st1 steps) as [[st2 fs2]|] eqn:Hloop; simpl; [|done].
  intros [= <- <-]. apply (IH st1 fs2); [|done].
  unfold train_step in Hstep.
  destruct (batch_offset _ _ _) as [o|]; simpl in Hstep; [|done].
  destruct (if decide (o = 0%Z) then _ else _) as [[[d l] g']|]; simpl in Hstep; [|done].
  unfold session_run in Hstep. case_decide; simpl in Hstep; [|done].
  injection Hstep as <- <-. simpl. by apply Hrun.
Qed.

(** A step whose offset is 0 draws a new order and feeds its first rows. *)
Lemma train_step_shuffle bs (st : loop_state (rng:=rng) (A:=A) (B:=B) (V:=V)) step :
  let N := length (train_labels st) in
  length (train_data st) = N → bs < N →
  ((Z.of_nat step * Z.of_nat bs) `mod` (Z.of_nat N - Z.of_nat bs))%Z = 0%Z →
  ∃ d l g',
    randomize_tensor perm (train_data st) (train_labels st) (gen st) = Ok (d, l, g')
    ∧ length d = N ∧ length l = N
    ∧ train_step perm run bs st step
      = Ok (LoopState d l g' (run (variables st) (take bs d) (take bs l)),
            Feed step 0 (take bs d) (take bs l)).
Proof.
  intros N Hd Hbs Ho.
  destruct (train_step_spec bs st step Hd Hbs) as (d & l & g' & Hr & Hld & Hll & _ & Hrun).
  fold N in Hr, Hrun. rewrite Ho in Hr, Hrun. rewrite decide_True in Hr by done.
  exists d, l, g'. by split_and!.
Qed.

(** A step whose offset is not 0 leaves the order and the generator as
    they are and feeds the window at its offset. *)
Lemma train_step_quiet bs (st : loop_state (rng:=rng) (A:=A) (B:=B) (V:=V)) step :
  let N := length (train_labels st) in
  let o := ((Z.of_nat step * Z.of_nat bs) `mod` (Z.of_nat N - Z.of_nat bs))%Z in
  length (train_data st) = N → bs < N → o ≠ 0%Z →
  train_step perm run bs st step
  = Ok (LoopState (train_data st) (train_labels st) (gen st)
          (run (variables st) (take bs (drop (Z.to_nat o) (train_data st)))
                              (take bs (drop (Z.to_nat o) (train_labels st)))),
        Feed step o (take bs (drop (Z.to_nat o) (train_data st)))
                    (take bs (drop (Z.to_nat o) (train_labels st)))).
Proof.
  intros N o Hd Hbs Ho.
  destruct (train_step_spec bs st step Hd Hbs) as (d & l & g' & Hr & _ & _ & _ & Hrun).
  fold N in Hr. fold o in Hr. rewrite decide_False in Hr by done.
  injection Hr as <- <- <-. exact Hrun.
Qed.

Lemma train_loop_app bs (st : loop_state (rng:=rng) (A:=A) (B:=B) (V:=V)) s1 s2 :
  train_loop perm run bs st (s1 ++ s2)
  = ('(st1, f1) ← train_loop perm run bs st s1;
     '(st2, f2) ← train_loop perm run bs st1 s2;
     Ok (st2, f1 ++ f2)).
Proof.
  revert st. induction s1 as [|s s1 IH]; intros st; simpl.
  { by destruct (train_loop perm run bs st s2) as [[st2 f2]|]. }
  destruct (train_step perm run bs st s) as [[st1 f]|]; simpl; [|done].
  rewrite IH.
  destruct (train_loop perm run bs st1 s1) as [[st1' f1]|]; simpl; [|done].
  by destruct (train_loop perm run bs st1' s2) as [[st2 f2]|].
Qed.

(** Steps whose offsets are not 0 feed windows of one and the same order. *)
Lemma train_loop_quiet bs (d : list A) (l : list B) (g : rng) (v : V) steps :
  let off s := ((Z.of_nat s * Z.of_nat bs) `mod` (Z.of_nat (length l) - Z.of_nat bs))%Z in
  length d = length l → bs < length l →
  Forall (λ s, off s ≠ 0%Z) steps →
  ∃ v',
    train_loop perm run bs (LoopState d l g v) steps
    = Ok (LoopState d l g v',
          (λ s, Feed s (off s) (take bs (drop (Z.to_nat (off s)) d))
                               (take bs (drop (Z.to_nat (off s)) l))) <$> steps).
Proof.
  intros off Hd Hbs Hsteps. revert v.
  induction Hsteps as [|s steps Hs _ IH]; intros v; simpl.
  { by eexists. }
  rewrite (train_step_quiet bs (LoopState d l g v) s) by done. simpl.
  match goal with |- context [train_loop perm run bs (LoopState d l g ?v1) steps] =>
    destruct (IH v1) as [v' ->] end.
  simpl. by eexists.
Qed.

(** Consecutive windows tile a prefix. *)
Lemma windows_tile {C} (b k : nat) (c : list C) :
  concat ((λ i, take b (drop (b * i) c)) <$> seq 0 k) = take (b * k) c.
Proof.
  induction k as [|k IH].
  { by rewrite Nat.mul_0_r. }
  rewrite seq_S, fmap_app, concat_app, IH. simpl. rewrite app_nil_r.
  rewrite take_take_drop. f_equal. lia.
Qed.

(** The variables after the loop are the runs of the optimizer on the
    batches that were fed, in their order. *)
Lemma train_loop_variables bs
    (st st' : loop_state (rng:=rng) (A:=A) (B:=B) (V:=V)) steps fs :
  train_loop perm run bs st steps = Ok (st', fs) →
  variables st'
  = foldl (λ v f, run v (batch_data f) (batch_labels f)) (variables st) fs.
Proof.
  revert st fs. induction steps as [|s steps IH]; intros st fs; simpl.
  { by intros [= <- <-]. }
  destruct (train_step perm run bs st s) as [[st1 f1]|] eqn:Hstep; simpl; [|done].
  destruct (train_loop perm run bs st1 steps) as [[st2 fs2]|] eqn:Hloop;
    simpl; [|done].
  intros [= <- <-]. rewrite (IH st1 fs2 Hloop). simpl. f_equal.
  unfold train_step in Hstep.
  destruct (batch_offset _ _ _) as [o|]; simpl in Hstep; [|done].
  destruct (if decide (o = 0%Z) then _ else _) as [[[d l] g']|]; simpl in Hstep; [|done].
  unfold session_run in Hstep. case_decide; simpl in Hstep; [|done].
  by injection Hstep as <- <-.
Qed.

End loop_props.

End random_props.

(** ** The transfer script *)

Section transfer_props.

Context {rng T B E : Type} (perm : nat → rng → list nat * rng).
Context (xavier : list nat → T) (fill : Qc → list nat → T) (engine : E).
Context (step : list T → E → gmap string T → tensor → list B → E * (string → T)).
Hypothesis perm_spec : ∀ n g, (perm n g).1 ≡ₚ seq 0 n.

Lemma build_graph_ok (save : gmap string T) :
  (∀ k, k ∈ frozen_names ++ trained_names → is_Some (save !! k)) →
  ∃ v1 v2 v3 v4,
    save !! "layer1_weights" = Some v1 ∧ save !! "layer1_biases" = Some v2
    ∧ save !! "layer2_weights" = Some v3 ∧ save !! "layer2_biases" = Some v4
    ∧ build_graph save
      = Ok (Graph (Constant v1) (Constant v2) (Constant v3) (Constant v4)
                  (Variable_ "layer3_weights") (Variable_ "layer3_biases")
                  (Variable_ "layer4_weights") (Variable_ "layer4_biases")).
Proof.
  intros Hkeys.
  assert (∀ k, k ∈ frozen_names ++ trained_names → ∃ v, save !! k = Some v) as Hk.
  { intros k Hin. by apply Hkeys. }
  destruct (Hk "layer1_weights") as [v1 H1]; [compute_done|].
  destruct (Hk "layer1_biases") as [v2 H2]; [compute_done|].
  destruct (Hk "layer2_weights") as [v3 H3]; [compute_done|].
  destruct (Hk "layer2_biases") as [v4 H4]; [compute_done|].
  destruct (Hk "layer3_weights") as [v5 H5]; [compute_done|].
  destruct (Hk "layer3_biases") as [v6 H6]; [compute_done|].
  destruct (Hk "layer4_weights") as [v7 H7]; [compute_done|].
  destruct (Hk "layer4_biases") as [v8 H8]; [compute_done|].
  exists v1, v2, v3, v4. split_and!; try done.
  unfold build_graph, load. by rewrite H1, H2, H3, H4, H5, H6, H7, H8.
Qed.

(** The variables of the session stay defined through the training. *)
Lemma run_optimizer_defined gr names (sess : E * gmap string T) bd bl :
  defined names sess.2 → defined names (run_optimizer step gr sess bd bl).2.
Proof.
  intros Hdef x Hx. unfold run_optimizer.
  destruct (step _ _ _ _ _) as [e' new]. simpl.
  induction (trainable_variables gr) as [|y ys IH]; simpl; [by apply Hdef|].
  destruct (decide (y = x)) as [->|Hne].
  - rewrite lookup_insert_eq. by eexists.
  - by rewrite lookup_insert_ne.
Qed.

Lemma initial_session_defined : defined trained_names (initial_session xavier fill).
Proof.
  intros x Hx. unfold trained_names in Hx. unfold initial_session.
  list_cases Hx;
    by eexists.
Qed.

Lemma public_training_defined gr num_steps raw labels g sess :
  public_training perm xavier fill engine step gr num_steps raw labels g = Ok sess →
  defined trained_names sess.
Proof.
  unfold public_training.
  destruct (normalize_tensor (nan_to_zero raw)) as [data|]; simpl; [|done].
  destruct (train _ _ _ _ _) as [[st fs]|] eqn:Htrain; simpl; [|done].
  intros [= <-]. unfold train in Htrain.
  apply (train_loop_invariant perm (run_optimizer step gr)
           (λ v, defined trained_names v.2) 4
           (LoopState data labels g (engine, initial_session xavier fill)) st
           (seq 0 num_steps) fs); [|apply initial_session_defined|exact Htrain].
  intros v bd bl. apply run_optimizer_defined.
Qed.

Lemma public_training_ok gr num_steps raw labels g :
  concat raw ≠ [] → length labels = length raw → 4 < length raw →
  ∃ sess,
    public_training perm xavier fill engine step gr num_steps raw labels g = Ok sess.
Proof.
  intros Hraw Hlen HN. unfold public_training.
  destruct (normalize_tensor_ok (nan_to_zero raw)) as [data Hdata].
  { unfold nan_to_zero. rewrite concat_tmap. by intros ?%fmap_nil_inv. }
  rewrite Hdata. simpl. apply normalize_tensor_length in Hdata as Hld.
  assert (length data = length raw) as Hdr.
  { rewrite Hld. unfold nan_to_zero, tmap. by rewrite length_map. }
  destruct (train_loop_spec perm perm_spec (run_optimizer step gr) 4
              (LoopState data labels g (engine, initial_session xavier fill))
              (seq 0 num_steps))
    as (st & fs & Hrun & _); simpl; [congruence | lia |].
  unfold train. rewrite Hrun. simpl. by eexists.
Qed.

End transfer_props.

(** ** The binary64 model *)

Section f64_props.

Context (sum : list PrimFloat.float → PrimFloat.float).
Context {rng : Type} (perm : nat → rng → list nat * rng).
Hypothesis perm_spec : ∀ n g, (perm n g).1 ≡ₚ seq 0 n.

Lemma f64_normalize_tensor_ok t :
  concat t ≠ [] → ∃ t', F64.normalize_tensor sum t = Ok t'.
Proof.
  intros Ht. unfold F64.normalize_tensor. rewrite concat_map_map.
  destruct (concat t) as [|x l]; [done|]. simpl. by eexists.
Qed.

Lemma f64_normalize_tensor_raise t :
  concat t = [] → F64.normalize_tensor sum t = Raise ValueError.
Proof. intros Ht. unfold F64.normalize_tensor. by rewrite concat_map_map, Ht. Qed.

Lemma f64_normalize_tensor_shape t t' :
  F64.normalize_tensor sum t = Ok t' → shape t' = shape t.
Proof.
  unfold F64.normalize_tensor. destruct (F64.np_max _); simpl; [|done].
  intros [= <-]. by rewrite !shape_map_map.
Qed.

Lemma f64_normalize_tensor_length t t' :
  F64.normalize_tensor sum t = Ok t' → length t' = length t.
Proof.
  intros Ht%f64_normalize_tensor_shape. apply (f_equal length) in Ht.
  unfold shape in Ht. by rewrite !length_map in Ht.
Qed.

Lemma f64_normalize_tensor_cases t :
  (list_sum (shape t) = 0 ∧ F64.normalize_tensor sum t = Raise ValueError)
  ∨ (list_sum (shape t) ≠ 0 ∧ ∃ t', F64.normalize_tensor sum t = Ok t').
Proof.
  destruct (decide (list_sum (shape t) = 0)) as [Hnil|Hne].
  - left. split; [done|]. apply f64_normalize_tensor_raise. by apply concat_nil_shape.
  - right. split; [done|]. apply f64_normalize_tensor_ok. by rewrite concat_nil_shape.
Qed.

Lemma f64_create_train_and_test_data_spec {B} fold IDs subjects (labels : list B)
    (data : F64.tensor) g mask :
  test_mask fold IDs subjects = Ok mask →
  length data = length subjects → length labels = length subjects →
  F64.create_train_and_test_data sum perm fold IDs subjects labels data g
  = (test_data ← F64.normalize_tensor sum (select mask data);
     train_data ← F64.normalize_tensor sum (select (negb <$> mask) data);
     let train_labels := select (negb <$> mask) labels in
     let p := perm (length train_labels) g in
     Ok (gather p.1 (map (map F64.astype_float32) train_data), gather p.1 train_labels,
         map (map F64.astype_float32) test_data, select mask labels, p.2)).
Proof.
  intros Hmask Hd Hl. pose proof (test_mask_length _ _ _ _ Hmask) as Hm.
  unfold F64.create_train_and_test_data. rewrite Hmask. simpl.
  unfold bool_index. rewrite !length_fmap.
  rewrite !decide_True by congruence. simpl.
  destruct (F64.normalize_tensor sum (select mask data)) as [td|]; simpl; [|done].
  destruct (F64.normalize_tensor sum (select (negb <$> mask) data)) as [trd|] eqn:Htr;
    simpl; [|done].
  rewrite (randomize_tensor_ok perm perm_spec); [done|].
  apply f64_normalize_tensor_length in Htr. rewrite length_map, Htr.
  apply select_length_eq. congruence.
Qed.

(** The test part that the assembler answers is the same for two tensors
    of the same shape that agree on the test instances. *)
Lemma f64_create_test_part_agree {B} fold IDs subjects (labels : list B)
    (data_A data_B : F64.tensor) g_A g_B mask :
  test_mask fold IDs subjects = Ok mask →
  length data_A = length subjects → length labels = length subjects →
  shape data_A = shape data_B →
  select mask data_A = select mask data_B →
  F64.test_part (F64.create_train_and_test_data sum perm fold IDs subjects labels data_A g_A)
  = F64.test_part (F64.create_train_and_test_data sum perm fold IDs subjects labels data_B g_B).
Proof.
  intros Hmask HdA Hl Hshape Hagree.
  assert (length data_B = length subjects) as HdB.
  { rewrite <- HdA. unfold shape in Hshape.
    by rewrite <- (length_map length data_A), Hshape, length_map. }
  rewrite !(f64_create_train_and_test_data_spec fold IDs subjects labels _ _ mask) by done.
  rewrite <- Hagree.
  destruct (F64.normalize_tensor sum (select mask data_A)) as [td|]; simpl; [|done].
  destruct (f64_normalize_tensor_cases (select (negb <$> mask) data_A))
    as [[HA ->]|[HA [tA ->]]];
    destruct (f64_normalize_tensor_cases (select (negb <$> mask) data_B))
      as [[HB ->]|[HB [tB ->]]]; try done;
    rewrite !shape_select, Hshape, <- shape_select in HA; done.
Qed.

End f64_props.

Lemma countdown_spec n g : (countdown n g).1 ≡ₚ seq 0 n.
Proof. simpl. apply reverse_Permutation. Qed.

(** ** The model on small inputs *)

Example normalize_tensor_numbers :
  normalize_tensor [[num 1; num 2]; [num 3; num 6]]
  = Ok [[Some (Q2Qc (-2 # 3)); Some (Q2Qc (-1 # 3))]; [num 0; num 1]].
Proof. compute_done. Qed.

Example normalize_tensor_constant :
  normalize_tensor [[num 5; num 5]] = Ok [[None; None]].
Proof. compute_done. Qed.

Example normalize_tensor_empty : normalize_tensor [] = Raise ValueError.
Proof. reflexivity. Qed.

Example r_squared_negative : r_squared [num 0; num 2] [num 2; num 0] = Ok (num (-3)).
Proof. compute_done. Qed.

Example r_squared_constant_labels : r_squared [num 5; num 5] [num 2; num 0] = Ok None.
Proof. compute_done. Qed.

Example py_slice_inside : py_slice 4 8 (seq 0 10) = [4; 5; 6; 7].
Proof. reflexivity. Qed.

Example py_slice_clipped : py_slice 0 4 [1; 2; 3] = [1; 2; 3].
Proof. reflexivity. Qed.

Example py_slice_negative : py_slice (-1) 3 [1; 2; 3] = [3].
Proof. reflexivity. Qed.

Example batch_offset_negative_modulus : batch_offset 4 2 1 = Ok 0%Z.
Proof. reflexivity. Qed.

Example folds_padded :
  create_train_and_test_folds countdown 2 1%positive {[ 1%positive := [11; 12; 13]%Z ]} 0
  = Ok (View2 2%positive 2 2,
        {[ 1%positive := [13; 12; 11]%Z; 2%positive := [13; 12; 11; 0]%Z ]}, 1).
Proof. vm_compute. reflexivity. Qed.

Example folds_exact :
  create_train_and_test_folds countdown 3 1%positive {[ 1%positive := [11; 12; 13]%Z ]} 0
  = Ok (View2 1%positive 1 3, {[ 1%positive := [13; 12; 11]%Z ]}, 1).
Proof. vm_compute. reflexivity. Qed.


(* ================================================================== *)
(** * The claims *)

(** C1, as the code has it: when there are more training instances than
    [batch_size], every step computes the offset
    [(step * batch_size) mod (num_train_instances - batch_size)], slices
    the contiguous batch of [batch_size] instances and labels that starts
    there, and re-shuffles the whole training set before slicing exactly
    when the offset is 0 (step 0 included).  With [batch_size = 4] and 36
    training instances, the run of nine steps draws an order at step 0,
    feeds at the steps 0 to 7 the windows of that one order at the
    offsets 0, 4, ..., 28, which are disjoint and make up its first 32
    rows, so that its last four rows are not fed; at step 8 the offset is
    back at 0, the order that step 0 has left is shuffled again, with the
    generator as step 0 has left it, and the first four rows of the new
    order are fed. *)
Theorem training_loop_batches {rng A B V} (perm : nat → rng → list nat * rng)
    (run : V → list A → list B → V) (batch_size : nat)
    (st : loop_state (rng:=rng) (A:=A) (B:=B) (V:=V)) :
  (∀ n g, (perm n g).1 ≡ₚ seq 0 n) →
  let N := length (train_labels st) in
  length (train_data st) = N →
  batch_size < N →
  (∀ step, ∃ st' f,
      train_step perm run batch_size st step = Ok (st', f)
      ∧ feed_offset f
        = ((Z.of_nat step * Z.of_nat batch_size) `mod` (Z.of_nat N - Z.of_nat batch_size))%Z
      ∧ batch_data f = take batch_size (drop (Z.to_nat (feed_offset f)) (train_data st'))
      ∧ batch_labels f = take batch_size (drop (Z.to_nat (feed_offset f)) (train_labels st'))
      ∧ length (batch_data f) = batch_size
      ∧ length (batch_labels f) = batch_size
      ∧ (feed_offset f = 0%Z →
         randomize_tensor perm (train_data st) (train_labels st) (gen st)
         = Ok (train_data st', train_labels st', gen st'))
      ∧ (feed_offset f ≠ 0%Z →
         train_data st' = train_data st ∧ train_labels st' = train_labels st
         ∧ gen st' = gen st))
  ∧ (batch_size = 4 → N = 36 →
     ∃ d1 l1 g1 d2 l2 g2 st' fs,
       randomize_tensor perm (train_data st) (train_labels st) (gen st) = Ok (d1, l1, g1)
       ∧ randomize_tensor perm d1 l1 g1 = Ok (d2, l2, g2)
       ∧ train perm run batch_size 9 st = Ok (st', fs)
       ∧ feed_offset <$> fs = [0; 4; 8; 12; 16; 20; 24; 28; 0]%Z
       ∧ fs = ((λ i, Feed i (Z.of_nat (4 * i)) (take 4 (drop (4 * i) d1))
                                               (take 4 (drop (4 * i) l1))) <$> seq 0 8)
              ++ [Feed 8 0 (take 4 d2) (take 4 l2)]
       ∧ concat (batch_data <$> take 8 fs) = take 32 d1
       ∧ concat (batch_labels <$> take 8 fs) = take 32 l1
       ∧ length (drop 32 d1) = 4 ∧ length (drop 32 l1) = 4
       ∧ train_data st' = d2 ∧ train_labels st' = l2 ∧ gen st' = g2
       ∧ variables st'
         = foldl (λ v f, run v (batch_data f) (batch_labels f)) (variables st) fs).
Proof.
  intros Hperm N Hd Hbs. split.
  - intros step.
    destruct (train_step_spec perm Hperm run batch_size st step Hd Hbs)
      as (d & l & g' & Hr & Hld & Hll & Ho & ->).
    eexists _, _. split; [done|]. simpl. fold N in Hld, Hll.
    split_and!; try done.
    + rewrite length_take, length_drop. lia.
    + rewrite length_take, length_drop. lia.
    + intros H0. fold N in Hr. by rewrite decide_True in Hr.
    + intros H0. fold N in Hr. rewrite decide_False in Hr by done.
      by injection Hr as <- <- <-.
  - intros -> HN.
    destruct (train_step_shuffle perm Hperm run 4 st 0 Hd Hbs)
      as (d1 & l1 & g1 & Hr1 & Hld1 & Hll1 & Hstep0); [done|].
    fold N in Hld1, Hll1. rewrite HN in Hld1, Hll1.
    destruct (train_loop_quiet perm Hperm run 4 d1 l1 g1
                (run (variables st) (take 4 d1) (take 4 l1)) (seq 1 7))
      as [v7 Hquiet]; [congruence | lia | |].
    { rewrite Hll1. repeat constructor; done. }
    destruct (train_step_shuffle perm Hperm run 4 (LoopState d1 l1 g1 v7) 8)
      as (d2 & l2 & g2 & Hr2 & Hld2 & Hll2 & Hstep8); simpl; [congruence | lia | |].
    { by rewrite Hll1. }
    simpl in Hr2, Hstep8.
    assert (train perm run 4 9 st
            = Ok (LoopState d2 l2 g2 (run v7 (take 4 d2) (take 4 l2)),
                  ((λ i, Feed i (Z.of_nat (4 * i)) (take 4 (drop (4 * i) d1))
                                                   (take 4 (drop (4 * i) l1))) <$> seq 0 8)
                  ++ [Feed 8 0 (take 4 d2) (take 4 l2)])) as Hrun.
    { unfold train.
      change (seq 0 9) with ([0] ++ seq 1 7 ++ [8]).
      assert (∀ s0 s f,
                train_step perm run 4 s0 s = Ok f →
                train_loop perm run 4 s0 [s] = Ok (f.1, [f.2])) as Hone.
      { intros s0 s [s1 f] Hs. simpl. by rewrite Hs. }
      rewrite train_loop_app, (Hone _ _ _ Hstep0). cbn [mbind result_bind fst snd].
      rewrite train_loop_app, Hquiet. cbn [mbind result_bind fst snd].
      rewrite (Hone _ _ _ Hstep8). cbn [mbind result_bind fst snd].
      rewrite Hll1. reflexivity. }
    eexists d1, l1, g1, d2, l2, g2, _, _.
    split_and!; [done | done | exact Hrun | ..].
    + reflexivity.
    + reflexivity.
    + rewrite take_app_length' by (by rewrite length_fmap, length_seq).
      rewrite <- list_fmap_compose. apply (windows_tile 4 8 d1).
    + rewrite take_app_length' by (by rewrite length_fmap, length_seq).
      rewrite <- list_fmap_compose. apply (windows_tile 4 8 l1).
    + rewrite length_drop. lia.
    + rewrite length_drop. lia.
    + done.
    + done.
    + done.
    + by rewrite (train_loop_variables perm run 4 st _ (seq 0 9) _ Hrun).
Qed.

Lemma training_loop_batches_witness :
  ∃ d1 l1 g1 d2 l2 g2 st' fs,
    randomize_tensor countdown (train_data scenario_state) (train_labels scenario_state)
      (gen scenario_state) = Ok (d1, l1, g1)
    ∧ randomize_tensor countdown d1 l1 g1 = Ok (d2, l2, g2)
    ∧ train countdown count_runs 4 9 scenario_state = Ok (st', fs)
    ∧ feed_offset <$> fs = [0; 4; 8; 12; 16; 20; 24; 28; 0]%Z
    ∧ fs = ((λ i, Feed i (Z.of_nat (4 * i)) (take 4 (drop (4 * i) d1))
                                            (take 4 (drop (4 * i) l1))) <$> seq 0 8)
           ++ [Feed 8 0 (take 4 d2) (take 4 l2)]
    ∧ concat (batch_data <$> take 8 fs) = take 32 d1
    ∧ concat (batch_labels <$> take 8 fs) = take 32 l1
    ∧ length (drop 32 d1) = 4 ∧ length (drop 32 l1) = 4
    ∧ train_data st' = d2 ∧ train_labels st' = l2 ∧ gen st' = g2
    ∧ variables st'
      = foldl (λ v f, count_runs v (batch_data f) (batch_labels f))
              (variables scenario_state) fs.
Proof.
  apply (training_loop_batches countdown count_runs 4 scenario_state).
  - apply countdown_spec.
  - reflexivity.
  - simpl. lia.
  - reflexivity.
  - reflexivity.
Defined.

(** The scenario of the spec for the training loop, as it is worded,
    fails: with [batch_size = 4] and 36 training instances, nine steps do
    not visit each of the nine disjoint batches once.  The modulus is 32,
    the ninth step is back at offset 0, and the batch that starts at
    instance 32 is never fed.  And no offset is computed at all when the
    training set is one batch long. *)
Lemma nine_steps_miss_a_batch :
  (∃ st' fs, train countdown count_runs 4 9 scenario_state = Ok (st', fs)
             ∧ feed_offset <$> fs = [0; 4; 8; 12; 16; 20; 24; 28; 0]%Z
             ∧ batch_starts 4 36 = [0; 4; 8; 12; 16; 20; 24; 28; 32]%Z
             ∧ ¬ (feed_offset <$> fs ≡ₚ batch_starts 4 36))
  ∧ train_step countdown count_runs 4 one_batch_state 0 = Raise ZeroDivisionError.
Proof.
  split; [|reflexivity].
  eexists _, _. split; [vm_compute; reflexivity|]. split; [reflexivity|].
  split; [reflexivity|].
  intros Hp. assert (32%Z ∉ [0; 4; 8; 12; 16; 20; 24; 28; 0]%Z) as Hout by compute_done.
  apply Hout. rewrite Hp. compute_done.
Qed.




(** C3, as the code has it: in the transfer script the weights and biases
    of layers 1 and 2 are constants of the graph.  They are not among the
    trainable variables, which are the four tensors of layers 3 and 4;
    after any number of training steps they evaluate to the values that
    were loaded; and the bundle that is persisted at the end holds all
    eight tensors: the four of layers 1 and 2 with their loaded values and
    the four of layers 3 and 4 with their values in the final session. *)
Theorem frozen_layers_persisted {rng T B E} (perm : nat → rng → list nat * rng)
    (xavier : list nat → T) (fill : Qc → list nat → T) (engine : E)
    (step : list T → E → gmap string T → tensor → list B → E * (string → T))
    (save : gmap string T) (raw : tensor) (labels : list B) (g : rng) :
  (∀ n g, (perm n g).1 ≡ₚ seq 0 n) →
  (∀ k, k ∈ frozen_names ++ trained_names → is_Some (save !! k)) →
  concat raw ≠ [] →
  length labels = length raw →
  4 < length raw →
  ∃ gr bundle sess,
    build_graph save = Ok gr
    ∧ trainable_variables gr = trained_names
    ∧ (∀ k, k ∈ frozen_names → k ∉ trainable_variables gr)
    ∧ (∀ n sess',
         public_training perm xavier fill engine step gr n raw labels g = Ok sess' →
         eval sess' (layer1_weights gr) = load save "layer1_weights"
         ∧ eval sess' (layer1_biases gr) = load save "layer1_biases"
         ∧ eval sess' (layer2_weights gr) = load save "layer2_weights"
         ∧ eval sess' (layer2_biases gr) = load save "layer2_biases")
    ∧ public_training perm xavier fill engine step gr num_steps raw labels g = Ok sess
    ∧ ccnn_regr_public perm xavier fill engine step save raw labels g = Ok bundle
    ∧ (∀ k, k ∈ frozen_names → bundle !! k = save !! k)
    ∧ (∀ k, k ∈ trained_names → bundle !! k = sess !! k ∧ is_Some (sess !! k))
    ∧ dom bundle = list_to_set (frozen_names ++ trained_names).
Proof.
  intros Hperm Hkeys Hraw Hlen HN.
  destruct (build_graph_ok save Hkeys) as (v1 & v2 & v3 & v4 & H1 & H2 & H3 & H4 & Hgr).
  set (gr := Graph _ _ _ _ _ _ _ _) in Hgr.
  destruct (public_training_ok perm xavier fill engine step Hperm gr num_steps raw labels g)
    as [sess Hsess]; try done.
  pose proof (public_training_defined perm xavier fill engine step gr _ _ _ _ _ Hsess) as Hdef.
  destruct (Hdef "layer3_weights") as [w3 Hw3]; [compute_done|].
  destruct (Hdef "layer3_biases") as [b3 Hb3]; [compute_done|].
  destruct (Hdef "layer4_weights") as [w4 Hw4]; [compute_done|].
  destruct (Hdef "layer4_biases") as [b4 Hb4]; [compute_done|].
  assert (ccnn_regr_public perm xavier fill engine step save raw labels g
          = Ok {[ "layer1_weights" := v1; "layer1_biases" := v2;
                  "layer2_weights" := v3; "layer2_biases" := v4;
                  "layer3_weights" := w3; "layer3_biases" := b3;
                  "layer4_weights" := w4; "layer4_biases" := b4 ]}) as Hrun.
  { unfold ccnn_regr_public. rewrite Hgr. simpl. rewrite Hsess. simpl.
    by rewrite Hw3, Hb3, Hw4, Hb4. }
  eexists gr, _, sess. split_and!; [done | done | | | done | exact Hrun | | |].
  - intros k Hk. unfold frozen_names in Hk. simpl.
    list_cases Hk;
      compute_done.
  - intros n sess' _. unfold load. simpl. by rewrite H1, H2, H3, H4.
  - intros k Hk. unfold frozen_names in Hk.
    list_cases Hk;
      by simplify_map_eq.
  - intros k Hk. unfold trained_names in Hk.
    list_cases Hk;
      simplify_map_eq; (split; [done | by eexists]).
  - rewrite !dom_insert_L, dom_singleton_L. unfold frozen_names, trained_names.
    simpl. set_solver.
Qed.

Lemma frozen_layers_persisted_witness :
  ∃ bundle,
    ccnn_regr_public countdown zero_xavier zero_fill 0 add_one pretrained five_scans
      five_labels 0 = Ok bundle
    ∧ ∀ k, k ∈ frozen_names → bundle !! k = pretrained !! k.
Proof.
  destruct (frozen_layers_persisted countdown zero_xavier zero_fill 0 add_one pretrained
              five_scans five_labels 0)
    as (gr & bundle & sess & _ & _ & _ & _ & _ & Hrun & Hfrozen & _).
  - apply countdown_spec.
  - intros k Hk. unfold frozen_names, trained_names in Hk. simpl in Hk.
    list_cases Hk;
      by eexists.
  - done.
  - reflexivity.
  - simpl. lia.
  - exists bundle. split; [exact Hrun | exact Hfrozen].
Defined.

(** The bundle that the transfer script persists does not hold the four
    trainable tensors only.  On a pretrained bundle of eight tensors and
    five scans, the script dumps eight tensors, those of layers 1 and 2
    among them. *)
Lemma bundle_holds_frozen_layers :
  ∃ bundle,
    ccnn_regr_public countdown zero_xavier zero_fill 0 add_one pretrained five_scans
      five_labels 0 = Ok bundle
    ∧ bundle !! "layer1_weights" = Some 11%Z
    ∧ bundle !! "layer3_weights" = Some 10001%Z
    ∧ size bundle = 8
    ∧ dom bundle ≠ list_to_set trained_names.
Proof.
  eexists. split; [vm_compute; reflexivity|].
  split_and!; [vm_compute; reflexivity..|].
  intros Heq.
  assert ("layer1_weights" ∉ (list_to_set trained_names : gset string)) as Hout
    by compute_done.
  apply Hout. rewrite <- Heq. compute_done.
Qed.

(** C4: for every positive number of folds and every array of distinct
    non-zero subject identifiers, the table that
    [create_train_and_test_folds] returns has [ceil(S/k)] rows and [k]
    columns that partition the subjects: every identifier is at exactly
    one place of the table, hence in exactly one column, every entry of a
    column is an identifier or the sentinel 0, and so the non-zero entries
    of the columns are exactly the subjects. *)
Theorem folds_partition {rng} (perm : nat → rng → list nat * rng)
    (num_folds : nat) (subjects : loc) (h : gmap loc (list Z)) (g : rng)
    (s0 : list Z) :
  (∀ n g, (perm n g).1 ≡ₚ seq 0 n) →
  0 < num_folds →
  h !! subjects = Some s0 →
  NoDup s0 →
  0%Z ∉ s0 →
  ∃ IDs h' g' t,
    create_train_and_test_folds perm num_folds subjects h g = Ok (IDs, h', g')
    ∧ deref h' IDs = Some t
    ∧ a2_rows t = ceil_div (length s0) num_folds
    ∧ a2_cols t = num_folds
    ∧ (∀ c, c < num_folds → ∃ col, column t c = Ok col ∧ length col = a2_rows t)
    ∧ (∀ x, x ∈ s0 →
            ∃ r c, c < num_folds
                   ∧ entry t r c = Some x
                   ∧ in_column t c x
                   ∧ (∀ r' c', entry t r' c' = Some x → r' = r ∧ c' = c)
                   ∧ (∀ c', in_column t c' x → c' = c))
    ∧ (∀ c x, in_column t c x → x ∈ s0 ∨ x = 0%Z)
    ∧ (∀ c x, in_column t c x → x ≠ 0%Z → x ∈ s0).
Proof.
  intros Hperm Hk Hs0 Hnd H0.
  assert (num_folds ≠ 0) as Hk' by lia.
  rewrite (create_train_and_test_folds_spec perm Hperm num_folds subjects h g s0)
    by done.
  set (n := ceil_div (length s0) num_folds).
  set (s1 := gather (perm (length s0) g).1 s0).
  set (h1 := <[subjects := s1]> h).
  assert (s1 ≡ₚ s0) as Hs1 by apply gather_Permutation, Hperm.
  assert (length s1 = length s0) as Hlen by by rewrite Hs1.
  destruct (ceil_div_bounds (length s0) num_folds Hk') as (Hle & _ & Hiff).
  fold n in Hle, Hiff.
  set (pad := n * num_folds - length s0).
  set (t := Array2 n num_folds (s1 ++ replicate pad 0%Z)).
  assert (length (a2_flat t) = a2_rows t * a2_cols t) as Hflat.
  { simpl. rewrite length_app, length_replicate. lia. }
  assert (∃ IDs h' g',
    (if decide (length s0 `mod` num_folds = 0)
     then Ok (View2 subjects n num_folds, h1, (perm (length s0) g).2)
     else Ok (View2 (fresh (dom h1)) n num_folds,
              <[fresh (dom h1) := s1 ++ replicate pad 0%Z]> h1,
              (perm (length s0) g).2)) = Ok (IDs, h', g')
    ∧ deref h' IDs = Some t) as (IDs & h' & g' & -> & Hderef).
  { case_decide as Hmod.
    - eexists _, _, _. split; [done|]. unfold deref, h1. simpl.
      rewrite lookup_insert_eq. simpl. unfold t, pad.
      replace (n * num_folds - length s0) with 0 by (apply Hiff in Hmod; lia).
      simpl. by rewrite app_nil_r.
    - eexists _, _, _. split; [done|]. unfold deref. simpl.
      by rewrite lookup_insert_eq. }
  destruct (padded_table_entries s1 n num_folds pad) as [Hreal Hrest].
  { by rewrite Hs1. } { by rewrite Hs1. } { done. } { unfold pad. lia. }
  fold t in Hreal, Hrest.
  exists IDs, h', g', t. split_and!; try done.
  - intros c Hc. eexists. split; [by apply column_ok|].
    eapply column_length; [done | by apply column_ok].
  - intros x Hx. rewrite <- Hs1 in Hx.
    destruct (Hreal x Hx) as (r & c & Hrc & Huniq).
    assert (c < num_folds) as Hc.
    { unfold entry in Hrc. case_decide as Hb; [|done]. simpl in Hb. lia. }
    exists r, c. split_and!; try done.
    + apply in_column_entry; [done|]. split; [done | by exists r].
    + intros c' Hin. apply in_column_entry in Hin as (_ & r' & Hr'); [|done].
      by destruct (Huniq r' c' Hr').
  - intros c x Hin. apply in_column_entry in Hin as (_ & r & Hr); [|done].
    rewrite <- Hs1. by eapply Hrest.
  - intros c x Hin Hx. apply in_column_entry in Hin as (_ & r & Hr); [|done].
    rewrite <- Hs1. destruct (Hrest r c x Hr); done.
Qed.

Lemma folds_partition_witness :
  ∃ IDs h' g' t,
    create_train_and_test_folds countdown 2 1%positive {[ 1%positive := [11; 12; 13]%Z ]} 0
    = Ok (IDs, h', g')
    ∧ deref h' IDs = Some t
    ∧ a2_rows t = ceil_div (length [11; 12; 13]%Z) 2
    ∧ a2_cols t = 2
    ∧ (∀ c, c < 2 → ∃ col, column t c = Ok col ∧ length col = a2_rows t)
    ∧ (∀ x, x ∈ [11; 12; 13]%Z →
            ∃ r c, c < 2
                   ∧ entry t r c = Some x
                   ∧ in_column t c x
                   ∧ (∀ r' c', entry t r' c' = Some x → r' = r ∧ c' = c)
                   ∧ (∀ c', in_column t c' x → c' = c))
    ∧ (∀ c x, in_column t c x → x ∈ [11; 12; 13]%Z ∨ x = 0%Z)
    ∧ (∀ c x, in_column t c x → x ≠ 0%Z → x ∈ [11; 12; 13]%Z).
Proof.
  apply (folds_partition countdown 2 1%positive
           {[ 1%positive := [11; 12; 13]%Z ]} 0 [11; 12; 13]%Z).
  - apply countdown_spec.
  - lia.
  - reflexivity.
  - compute_done.
  - compute_done.
Defined.

(** C5, as the code has it: for a fold index within the table, instances
    whose subjects are real identifiers of the table, and a fold that has
    an entry to test on and an entry to train on, the assembler answers
    the instances whose subject is in column [fold] as the test set and
    all others, shuffled, as the train set.  No subject has instances on
    both sides, and the two sets together count the instances of real
    subjects. *)
Theorem fold_split_disjoint {rng B} (perm : nat → rng → list nat * rng)
    (fold : nat) (IDs : array2) (subjects : list Z) (labels : list B)
    (data_tensor : tensor) (g : rng) :
  (∀ n g, (perm n g).1 ≡ₚ seq 0 n) →
  length (a2_flat IDs) = a2_rows IDs * a2_cols IDs →
  fold < a2_cols IDs →
  length data_tensor = length subjects →
  length labels = length subjects →
  (∀ s, s ∈ subjects → s ≠ 0%Z ∧ ∃ c, in_column IDs c s) →
  (∃ i s inst, subjects !! i = Some s ∧ in_column IDs fold s
               ∧ data_tensor !! i = Some inst ∧ inst ≠ []) →
  (∃ i s inst, subjects !! i = Some s ∧ ¬ in_column IDs fold s
               ∧ data_tensor !! i = Some inst ∧ inst ≠ []) →
  ∃ train_data train_labels test_data test_labels g' mask train_sel,
    create_train_and_test_data perm fold IDs subjects labels data_tensor g
    = Ok (train_data, train_labels, test_data, test_labels, g')
    ∧ test_mask fold IDs subjects = Ok mask
    ∧ (∀ i s, subjects !! i = Some s →
              (mask !! i = Some true ↔ in_column IDs fold s)
              ∧ (mask !! i = Some false ↔ ¬ in_column IDs fold s))
    ∧ normalize_tensor (select mask data_tensor) = Ok test_data
    ∧ test_labels = select mask labels
    ∧ normalize_tensor (select (negb <$> mask) data_tensor) = Ok train_sel
    ∧ zip train_data train_labels ≡ₚ zip train_sel (select (negb <$> mask) labels)
    ∧ length test_data = length (select mask subjects)
    ∧ length train_data = length (select (negb <$> mask) subjects)
    ∧ (∀ s, s ∈ select mask subjects → s ∉ select (negb <$> mask) subjects)
    ∧ length train_data + length test_data
      = length (filter (λ s, s ≠ 0%Z) subjects).
Proof.
  intros Hperm Hflat Hfold Hd Hl Hcover Htest Htrain.
  assert (∃ mask, test_mask fold IDs subjects = Ok mask) as [mask Hmask].
  { unfold test_mask. rewrite column_ok by done. by eexists. }
  pose proof (test_mask_length _ _ _ _ Hmask) as Hm.
  assert (∀ i s, subjects !! i = Some s →
            (mask !! i = Some true ↔ in_column IDs fold s)
            ∧ (mask !! i = Some false ↔ ¬ in_column IDs fold s)) as Hmask_spec.
  { intros i s Hs.
    destruct (test_mask_lookup _ _ _ _ _ _ Hmask Hs) as (b & Hb & Hiff).
    rewrite Hb. destruct b.
    - assert (in_column IDs fold s) as Hin by (by apply Hiff). split; split; done.
    - assert (¬ in_column IDs fold s) as Hout by (by intros ?%Hiff). split; split; done. }
  assert (concat (select mask data_tensor) ≠ []) as Hne_test.
  { destruct Htest as (i & s & inst & Hs & Hin & Hi & Hinst).
    apply (proj1 (Hmask_spec i s Hs)) in Hin.
    apply (concat_ne_nil _ inst); [|done].
    apply elem_of_select_lookup. by exists i. }
  assert (concat (select (negb <$> mask) data_tensor) ≠ []) as Hne_train.
  { destruct Htrain as (i & s & inst & Hs & Hin & Hi & Hinst).
    apply (proj2 (Hmask_spec i s Hs)) in Hin.
    apply (concat_ne_nil _ inst); [|done].
    apply elem_of_select_lookup. exists i. by rewrite list_lookup_fmap, Hin. }
  destruct (normalize_tensor_ok _ Hne_test) as [td Htd].
  destruct (normalize_tensor_ok _ Hne_train) as [trd Htrd].
  rewrite (create_train_and_test_data_spec perm Hperm fold IDs subjects labels
             data_tensor g mask) by done.
  rewrite Htd, Htrd. simpl.
  set (tl := select (negb <$> mask) labels).
  pose proof (normalize_tensor_length _ _ Htd) as Hltd.
  pose proof (normalize_tensor_length _ _ Htrd) as Hltrd.
  assert (length trd = length tl) as Hlen_tr.
  { rewrite Hltrd. apply select_length_eq. congruence. }
  pose proof (Hperm (length tl) g) as Hp.
  apply Permutation_seq_bound in Hp as Hb.
  eexists _, _, _, _, _, mask, trd. split; [done|].
  split_and!; try done.
  - rewrite <- gather_zip by done. apply gather_Permutation.
    by rewrite length_zip, Hlen_tr, Nat.min_id.
  - rewrite Hltd. apply select_length_eq. congruence.
  - rewrite gather_length by (by rewrite Hlen_tr).
    apply Permutation_length in Hp. rewrite length_seq in Hp. rewrite Hp.
    apply select_length_eq. congruence.
  - intros s (i & Hi & Hs)%elem_of_select_lookup (j & Hj & Hs')%elem_of_select_lookup.
    rewrite list_lookup_fmap in Hj.
    destruct (mask !! j) as [[]|] eqn:Hmj; simplify_eq/=.
    apply (proj1 (Hmask_spec i s Hs)) in Hi.
    by apply (proj2 (Hmask_spec j s Hs')) in Hmj.
  - rewrite gather_length by (by rewrite Hlen_tr).
    apply Permutation_length in Hp. rewrite length_seq in Hp. rewrite Hp, Hltd.
    unfold tl. rewrite (select_length_eq (negb <$> mask) labels data_tensor) by congruence.
    rewrite select_length_compl by congruence.
    rewrite filter_all; [done|].
    apply Forall_forall. intros s Hs%list_elem_of_In. by destruct (Hcover s Hs).
Qed.

Lemma fold_split_disjoint_witness :
  ∃ r, create_train_and_test_data countdown 0 two_folds four_subjects four_labels raw_a 0
       = Ok r.
Proof.
  destruct (fold_split_disjoint countdown 0 two_folds four_subjects four_labels raw_a 0)
    as (trd & trl & td & tl & g' & mask & sel & Hrun & _).
  - apply countdown_spec.
  - reflexivity.
  - simpl. lia.
  - reflexivity.
  - reflexivity.
  - intros s Hs. split.
    + intros ->. revert Hs. compute_done.
    + unfold four_subjects in Hs.
      list_cases Hs.
      * exists 0, [1%Z]. split; [reflexivity | compute_done].
      * exists 0, [1%Z]. split; [reflexivity | compute_done].
      * exists 1, [2%Z]. split; [reflexivity | compute_done].
      * exists 1, [2%Z]. split; [reflexivity | compute_done].
  - exists 0, 1%Z, [num 1; num 2]. split_and!; [reflexivity | | reflexivity | done].
    exists [1%Z]. split; [reflexivity | compute_done].
  - exists 2, 2%Z, [num 5; num 6]. split_and!; [reflexivity | | reflexivity | done].
    intros (col & Hcol & Hin). injection Hcol as <-. revert Hin. compute_done.
  - eexists. exact Hrun.
Defined.

(** The assembler does not answer for every fold: [normalize_tensor]
    raises on an empty selection.  Here the scans of one subject are split
    into two folds.  The second column of the table holds padding only and
    selects no test instance; the first one selects every instance and
    leaves none to train on. *)
Lemma fold_without_test_instance :
  (∀ s, s ∈ [1%Z] → s ≠ 0%Z ∧ ∃ c, in_column padded_folds c s)
  ∧ a2_cols padded_folds = 2
  ∧ create_train_and_test_data countdown 1 padded_folds [1%Z] [num 30] [[num 1; num 2]] 0
    = Raise ValueError
  ∧ create_train_and_test_data countdown 0 padded_folds [1%Z] [num 30] [[num 1; num 2]] 0
    = Raise ValueError.
Proof.
  split_and!.
  - intros s ->%list_elem_of_singleton. split; [done|].
    exists 0, [1%Z]. split; [reflexivity | compute_done].
  - reflexivity.
  - reflexivity.
  - reflexivity.
Qed.

(** C6: for every tensor of numbers whose maximum absolute deviation from
    its mean is non-zero, [normalize_tensor] returns
    [(tensor - mean(tensor)) / max(abs(tensor - mean(tensor)))]: the mean
    is subtracted first, and the result is divided by the largest absolute
    value of the mean-subtracted tensor. *)
Theorem normalize_tensor_formula (t : list (list Qc)) :
  Spec.max_abs_dev t ≠ 0%Qc →
  normalize_tensor (finite t) = Ok (finite (Spec.normalize t)).
Proof.
  intros Hdev. rewrite normalize_tensor_finite. unfold normalize_finite.
  rewrite (decide_False (P:=Spec.max_abs_dev t = 0%Qc)) by done.
  case_decide as Hnil; [|done].
  destruct Hdev. unfold Spec.max_abs_dev, Spec.centred.
  by rewrite concat_map_map, Hnil.
Qed.

Lemma normalize_tensor_formula_witness :
  let t := [[of_Z 1; of_Z 2]; [of_Z 3; of_Z 6]] in
  Spec.max_abs_dev t ≠ 0%Qc ∧
  normalize_tensor (finite t) = Ok (finite (Spec.normalize t)).
Proof.
  split; [compute_done | apply normalize_tensor_formula; compute_done].
Defined.

(** C7: [r_squared(labels, predictions)] is
    [1 - mean((y - ŷ)²) / mean((y - mean(y))²)]; for every label vector of
    non-zero variance it is exactly 1 when the predictions are the labels,
    exactly 0 when every prediction is the mean of the labels, and it is
    not clamped: some predictions make it negative. *)
Theorem r_squared_spec (y : list Qc) :
  Spec.variance y ≠ 0%Qc →
  (∀ p, length p = length y →
        r_squared (Some <$> y) (Some <$> p) = Ok (Some (Spec.r2 y p)))
  ∧ r_squared (Some <$> y) (Some <$> y) = Ok (Some 1%Qc)
  ∧ r_squared (Some <$> y) (Some <$> replicate (length y) (Spec.mean y))
    = Ok (Some 0%Qc)
  ∧ ∃ p r, length p = length y
           ∧ r_squared (Some <$> y) (Some <$> p) = Ok (Some r) ∧ (r < 0)%Qc.
Proof.
  intros Hvar. pose proof (variance_ne_0_nonempty _ Hvar) as Hy.
  split_and!.
  - intros p Hp. by apply r_squared_finite.
  - rewrite r_squared_finite by done. do 2 f_equal.
    unfold Spec.r2. rewrite mse_same. unfold Qcdiv. ring.
  - rewrite r_squared_finite by (by rewrite ?length_replicate). do 2 f_equal.
    unfold Spec.r2. rewrite mse_mean. by field.
  - set (c := (1 + Spec.variance y)%Qc).
    exists ((λ v, v + c)%Qc <$> y), (Spec.r2 y ((λ v, v + c)%Qc <$> y)).
    split_and!; [by rewrite length_fmap | by apply r_squared_finite; rewrite ?length_fmap |].
    unfold Spec.r2. rewrite mse_shift by done.
    assert (0 < Spec.variance y)%Qc as Hpos.
    { destruct (Qcle_lt_or_eq _ _ (variance_nonneg y)) as [?|Heq]; [done|].
      by destruct Hvar. }
    replace (1 - c * c / Spec.variance y)%Qc
      with (- ((1 + Spec.variance y + Spec.variance y * Spec.variance y)
               * / Spec.variance y))%Qc by (unfold c; by field).
    apply Qclt_minus_iff.
    match goal with |- (0 < 0 + - - ?k)%Qc => replace (0 + - - k)%Qc with k by ring end.
    apply Qcmult_pos_pos; [|by apply Qcinv_pos].
    apply Qcplus_pos_nonneg; [apply Qcplus_pos_nonneg; [done | by apply Qclt_le_weak]|].
    apply Qcmult_nonneg_nonneg; by apply Qclt_le_weak.
Qed.

Lemma r_squared_spec_witness :
  let y := [of_Z 0; of_Z 2] in
  Spec.variance y ≠ 0%Qc ∧
  r_squared (Some <$> y) (Some <$> y) = Ok (Some 1%Qc).
Proof.
  split; [compute_done | apply r_squared_spec; compute_done].
Defined.

(** C8: for a dataset and a label vector of the same leading dimension N,
    [randomize_tensor] draws one permutation of [0, N) and indexes both
    with it, so that the multiset of (data, label) pairs is preserved:
    the shuffled pairs are a permutation of the original ones. *)
Theorem randomize_tensor_pairs {rng A B} (perm : nat → rng → list nat * rng)
    (dataset : list A) (labels : list B) (g : rng) :
  (∀ n g, (perm n g).1 ≡ₚ seq 0 n) →
  length dataset = length labels →
  ∃ p sd sl g',
    randomize_tensor perm dataset labels g = Ok (sd, sl, g')
    ∧ p ≡ₚ seq 0 (length labels)
    ∧ take_rows p dataset = Ok sd
    ∧ take_rows p labels = Ok sl
    ∧ zip sd sl ≡ₚ zip dataset labels.
Proof.
  intros Hperm Hlen.
  pose proof (Hperm (length labels) g) as Hp.
  apply Permutation_seq_bound in Hp as Hb.
  eexists (perm (length labels) g).1, _, _, _.
  split_and!; [by apply randomize_tensor_ok | done | ..].
  - apply take_rows_ok. by rewrite Hlen.
  - by apply take_rows_ok.
  - rewrite <- gather_zip by done. apply gather_Permutation.
    by rewrite length_zip, Hlen, Nat.min_id.
Qed.

Lemma randomize_tensor_pairs_witness :
  ∃ p sd sl g',
    randomize_tensor countdown [[Some (of_Z 1)]; [Some (of_Z 2)]; [None]] [10; 20; 30] 0
    = Ok (sd, sl, g')
    ∧ p ≡ₚ seq 0 3
    ∧ take_rows p [[Some (of_Z 1)]; [Some (of_Z 2)]; [None]] = Ok sd
    ∧ take_rows p [10; 20; 30] = Ok sl
    ∧ zip sd sl ≡ₚ zip [[Some (of_Z 1)]; [Some (of_Z 2)]; [None]] [10; 20; 30].
Proof.
  apply (randomize_tensor_pairs countdown
           [[Some (of_Z 1)]; [Some (of_Z 2)]; [None]] [10; 20; 30] 0).
  - apply countdown_spec.
  - reflexivity.
Defined.

(** C9: [create_train_and_test_folds] updates its [subjects] argument in
    place: after the call the caller's array holds the shuffled
    identifiers, the permutation that the generator drew applied to the
    old content.  The table that is returned is a separate, fresh array
    when padding occurs, and a view on the caller's array otherwise; no
    other array of the store changes. *)
Theorem folds_shuffle_in_place {rng} (perm : nat → rng → list nat * rng)
    (num_folds : nat) (subjects : loc) (h : gmap loc (list Z)) (g : rng)
    (s0 : list Z) :
  (∀ n g, (perm n g).1 ≡ₚ seq 0 n) →
  0 < num_folds →
  h !! subjects = Some s0 →
  ∃ IDs h' g' s1,
    create_train_and_test_folds perm num_folds subjects h g = Ok (IDs, h', g')
    ∧ h' !! subjects = Some s1
    ∧ s1 = gather (perm (length s0) g).1 s0
    ∧ s1 ≡ₚ s0
    ∧ (length s0 `mod` num_folds ≠ 0 →
       v_base IDs ≠ subjects ∧ h !! v_base IDs = None)
    ∧ (length s0 `mod` num_folds = 0 → v_base IDs = subjects)
    ∧ (∀ l, l ≠ subjects → l ≠ v_base IDs → h' !! l = h !! l).
Proof.
  intros Hperm Hk Hs0.
  rewrite (create_train_and_test_folds_spec perm Hperm num_folds subjects h g s0)
    by (done || lia).
  set (s1 := gather (perm (length s0) g).1 s0).
  set (h1 := <[subjects := s1]> h).
  assert (s1 ≡ₚ s0) as Hs1 by apply gather_Permutation, Hperm.
  pose proof (is_fresh (dom h1)) as Hfresh.
  assert (fresh (dom h1) ≠ subjects) as Hne.
  { intros Heq. apply Hfresh. rewrite Heq. unfold h1. set_solver. }
  case_decide as Hmod.
  - eexists (View2 subjects _ _), h1, _, s1.
    simpl. split_and!; try done.
    + unfold h1. by rewrite lookup_insert_eq.
    + intros l Hl _. unfold h1. by rewrite lookup_insert_ne.
  - eexists (View2 (fresh (dom h1)) _ _), _, _, s1. simpl.
    split_and!; try done.
    + rewrite lookup_insert_ne by done. unfold h1. by rewrite lookup_insert_eq.
    + intros _. split; [done|]. apply not_elem_of_dom. intros Hin.
      apply Hfresh. unfold h1. set_solver.
    + intros l Hl Hl'. rewrite lookup_insert_ne by done.
      unfold h1. by rewrite lookup_insert_ne.
Qed.

Lemma folds_shuffle_in_place_witness :
  ∃ IDs h' g' s1,
    create_train_and_test_folds countdown 2 1%positive {[ 1%positive := [11; 12; 13]%Z ]} 0
    = Ok (IDs, h', g')
    ∧ h' !! 1%positive = Some s1
    ∧ s1 = gather (countdown (length [11; 12; 13]%Z) 0).1 [11; 12; 13]%Z
    ∧ s1 ≡ₚ [11; 12; 13]%Z
    ∧ (length [11; 12; 13]%Z `mod` 2 ≠ 0 →
       v_base IDs ≠ 1%positive
       ∧ ({[ 1%positive := [11; 12; 13]%Z ]} : gmap loc (list Z)) !! v_base IDs = None)
    ∧ (length [11; 12; 13]%Z `mod` 2 = 0 → v_base IDs = 1%positive)
    ∧ (∀ l, l ≠ 1%positive → l ≠ v_base IDs →
            h' !! l = ({[ 1%positive := [11; 12; 13]%Z ]} : gmap loc (list Z)) !! l).
Proof.
  apply (folds_shuffle_in_place countdown 2 1%positive
           {[ 1%positive := [11; 12; 13]%Z ]} 0 [11; 12; 13]%Z).
  - apply countdown_spec.
  - lia.
  - reflexivity.
Defined.

(** C10: a step of the training loop is well defined only when there are
    more training instances than [batch_size].  With as many, the modulus
    [num_train_instances - batch_size] is zero and the offset computation
    raises; with fewer, no batch of [batch_size] instances exists and the
    feed is refused.  With more, the offset lies in
    [0, num_train_instances - batch_size) and the batch that is sliced
    holds exactly [batch_size] instances and as many labels. *)
Theorem train_step_well_defined {rng A B V} (perm : nat → rng → list nat * rng)
    (run : V → list A → list B → V) (batch_size : nat)
    (st : loop_state (rng:=rng) (A:=A) (B:=B) (V:=V)) (step : nat) :
  (∀ n g, (perm n g).1 ≡ₚ seq 0 n) →
  length (train_data st) = length (train_labels st) →
  let N := length (train_labels st) in
  (N = batch_size → train_step perm run batch_size st step = Raise ZeroDivisionError)
  ∧ (N < batch_size → train_step perm run batch_size st step = Raise ValueError)
  ∧ (batch_size < N →
     ∃ st' f, train_step perm run batch_size st step = Ok (st', f)
              ∧ (0 ≤ feed_offset f < Z.of_nat N - Z.of_nat batch_size)%Z
              ∧ length (batch_data f) = batch_size
              ∧ length (batch_labels f) = batch_size).
Proof.
  intros Hperm Hd N. split_and!.
  - intros HN. by apply train_step_equal.
  - intros HN. by apply train_step_short.
  - intros HN.
    destruct (train_step_spec perm Hperm run batch_size st step Hd HN)
      as (d & l & g' & _ & Hld & Hll & Ho & ->).
    eexists _, _. split; [done|]. simpl. split; [done|].
    rewrite !length_take, !length_drop. fold N in Hld, Hll. lia.
Qed.

Lemma train_step_well_defined_witness :
  ∃ st' f, train_step countdown count_runs 4 scenario_state 3 = Ok (st', f)
           ∧ (0 ≤ feed_offset f < 36 - 4)%Z
           ∧ length (batch_data f) = 4
           ∧ length (batch_labels f) = 4.
Proof.
  apply (train_step_well_defined countdown count_runs 4 scenario_state 3).
  - apply countdown_spec.
  - reflexivity.
  - simpl. lia.
Defined.

(* ================================================================== *)
(** * Further properties of the code *)

(** ** [normalize_tensor] *)

Lemma shape_tmap f t : shape (tmap f t) = shape t.
Proof. apply shape_map_map. Qed.

Lemma fsub_None_r x : fsub x None = None.
Proof. by destruct x. Qed.

Lemma fdiv_None_r x : fdiv x None = None.
Proof. by destruct x. Qed.

Lemma np_mean_None l : None ∈ l → np_mean l = None.
Proof. intros Hl. unfold np_mean. by rewrite np_sum_None. Qed.

Lemma normalize_tensor_nan (t : tensor) :
  None ∈ concat t → normalize_tensor t = Ok (all_nan t).
Proof.
  intros Hnan. unfold normalize_tensor. rewrite np_mean_None by done.
  assert (tmap (λ x, fsub x None) t = all_nan t) as ->.
  { unfold tmap, all_nan. apply map_map_ext. intros x _. apply fsub_None_r. }
  rewrite concat_all_nan.
  destruct (concat t) as [|x l]; [by apply elem_of_nil in Hnan|]. simpl.
  rewrite foldl_fmax_None. simpl. f_equal.
  unfold tmap, all_nan. rewrite map_map_compose. by apply map_map_ext.
Qed.

(** X1: [normalize_tensor] raises [ValueError] exactly on a tensor without
    entries, and otherwise answers a tensor of the same shape. *)
Theorem normalize_tensor_shape (t : tensor) :
  match normalize_tensor t with
  | Ok t' => concat t ≠ [] ∧ shape t' = shape t
  | Raise e => e = ValueError ∧ concat t = []
  end.
Proof.
  destruct (decide (concat t = [])) as [Hnil|Hne].
  - by rewrite normalize_tensor_raise.
  - unfold normalize_tensor. rewrite concat_tmap.
    destruct (concat t) as [|x l] eqn:Hc; [done|]. simpl.
    split; [done|]. by rewrite !shape_tmap.
Qed.

(** X2: one not-a-number spoils the whole tensor: if any entry is not a
    number, every entry of the normalised tensor is not a number.  (This
    is why the scripts replace the not-a-numbers by 0 first.) *)
Theorem normalize_tensor_spoiled (t : tensor) :
  None ∈ concat t →
  normalize_tensor t = Ok (all_nan t)
  ∧ ∀ t' x, normalize_tensor t = Ok t' → x ∈ concat t' → x = None.
Proof.
  intros Hnan. rewrite normalize_tensor_nan by done. split; [done|].
  intros t' x [= <-]. rewrite concat_all_nan.
  by intros (y & -> & _)%list_elem_of_fmap.
Qed.

Lemma normalize_tensor_spoiled_witness :
  normalize_tensor [[num 1; None]; [num 3; num 4]] = Ok [[None; None]; [None; None]].
Proof.
  apply (normalize_tensor_spoiled [[num 1; None]; [num 3; num 4]]). compute_done.
Defined.

(** ** [randomize_tensor] *)

Lemma take_rows_raise {A} (idx : list nat) (a : list A) i :
  i ∈ idx → length a ≤ i → take_rows idx a = Raise IndexError.
Proof.
  intros Hi Hlen. induction idx as [|j idx IH]; [by apply elem_of_nil in Hi|].
  change (take_rows (j :: idx) a)
    with (get_item a j ≫= λ y, take_rows idx a ≫= λ k, mret (y :: k)).
  unfold get_item at 1. destruct (a !! j) as [x|] eqn:Hj; [|done]. simpl.
  apply elem_of_cons in Hi as [->|Hi].
  - apply lookup_lt_Some in Hj. lia.
  - by rewrite IH.
Qed.

Lemma gather_take {A} (idx : list nat) (a : list A) n :
  Forall (λ i, i < n) idx → gather idx a = gather idx (take n a).
Proof.
  induction 1 as [|i idx Hi _ IH]; [done|].
  change (gather (i :: idx) a) with (from_option (λ x, x :: gather idx a) (gather idx a) (a !! i)).
  change (gather (i :: idx) (take n a))
    with (from_option (λ x, x :: gather idx (take n a)) (gather idx (take n a)) (take n a !! i)).
  by rewrite IH, lookup_take_lt.
Qed.

(** X3: the permutation is drawn for the number of labels.  A dataset
    with fewer rows than there are labels makes [randomize_tensor] raise
    [IndexError]; of a dataset with more rows, the rows beyond the number
    of labels are dropped without notice, and the others are shuffled
    with the labels. *)
Theorem randomize_tensor_mismatch {rng A B} (perm : nat → rng → list nat * rng)
    (dataset : list A) (labels : list B) (g : rng) :
  (∀ n g, (perm n g).1 ≡ₚ seq 0 n) →
  (length dataset < length labels →
   randomize_tensor perm dataset labels g = Raise IndexError)
  ∧ (length labels ≤ length dataset →
     ∃ sd sl g', randomize_tensor perm dataset labels g = Ok (sd, sl, g')
                 ∧ zip sd sl ≡ₚ zip (take (length labels) dataset) labels
                 ∧ length sd = length labels).
Proof.
  intros Hperm. pose proof (Hperm (length labels) g) as Hp.
  apply Permutation_seq_bound in Hp as Hb.
  unfold randomize_tensor.
  destruct (perm (length labels) g) as [p g'] eqn:Hpg. simpl in *.
  split.
  - intros Hlt. rewrite (take_rows_raise p dataset (length labels - 1)); [done| |lia].
    rewrite Hp. apply elem_of_seq. lia.
  - intros Hle.
    assert (Forall (λ i, i < length dataset) p) as Hb'.
    { apply Forall_forall. intros i Hi.
      rewrite Forall_forall in Hb. specialize (Hb i Hi). simpl in Hb. lia. }
    rewrite (take_rows_ok p dataset) by done.
    rewrite (take_rows_ok p labels) by done.
    simpl. eexists _, _, _. split; [done|].
    assert (length (take (length labels) dataset) = length labels) as Hlt
      by (rewrite length_take; lia).
    rewrite (gather_take p dataset (length labels)) by done. split.
    + rewrite <- gather_zip by done. apply gather_Permutation.
      by rewrite length_zip, Hlt, Nat.min_id.
    + rewrite gather_length by (by rewrite Hlt).
      apply Permutation_length in Hp. by rewrite length_seq in Hp.
Qed.

Lemma randomize_tensor_mismatch_witness :
  randomize_tensor countdown [10; 20] [1; 2; 3] 0 = Raise IndexError
  ∧ ∃ sd sl g', randomize_tensor countdown [10; 20; 30; 40] [1; 2; 3] 0 = Ok (sd, sl, g')
                ∧ zip sd sl ≡ₚ zip (take 3 [10; 20; 30; 40]) [1; 2; 3]
                ∧ length sd = 3.
Proof.
  split.
  - apply (randomize_tensor_mismatch countdown [10; 20] [1; 2; 3] 0 countdown_spec).
    simpl. lia.
  - apply (randomize_tensor_mismatch countdown [10; 20; 30; 40] [1; 2; 3] 0
             countdown_spec).
    simpl. lia.
Defined.

(** ** [create_train_and_test_folds] *)

(** The table that is returned, for any identifiers. *)
Lemma folds_table {rng} (perm : nat → rng → list nat * rng)
    (k : nat) (subjects : loc) (h : gmap loc (list Z)) (g : rng) (s0 : list Z) :
  (∀ n g, (perm n g).1 ≡ₚ seq 0 n) →
  k ≠ 0 → h !! subjects = Some s0 →
  let n := ceil_div (length s0) k in
  let s1 := gather (perm (length s0) g).1 s0 in
  let pad := n * k - length s0 in
  ∃ IDs h' g',
    create_train_and_test_folds perm k subjects h g = Ok (IDs, h', g')
    ∧ deref h' IDs = Some (Array2 n k (s1 ++ replicate pad 0%Z))
    ∧ v_rows IDs = n ∧ v_cols IDs = k
    ∧ s1 ≡ₚ s0 ∧ length s0 + pad = n * k ∧ pad < k
    ∧ h' !! subjects = Some s1
    ∧ (pad = 0 → v_base IDs = subjects)
    ∧ (pad ≠ 0 → v_base IDs ≠ subjects).
Proof.
  intros Hperm Hk Hs0 n s1 pad.
  rewrite (create_train_and_test_folds_spec perm Hperm k subjects h g s0) by done.
  fold n s1.
  assert (s1 ≡ₚ s0) as Hs1 by apply gather_Permutation, Hperm.
  destruct (ceil_div_bounds (length s0) k Hk) as (Hle & Hlt & Hiff).
  fold n in Hle, Hlt, Hiff.
  set (h1 := <[subjects := s1]> h).
  pose proof (is_fresh (dom h1)) as Hfresh.
  assert (fresh (dom h1) ≠ subjects) as Hne.
  { intros Heq. apply Hfresh. rewrite Heq. unfold h1.
    apply elem_of_dom. rewrite lookup_insert_eq. by eexists. }
  case_decide as Hmod.
  - assert (pad = 0) as Hpad by (unfold pad; apply Hiff in Hmod; lia).
    eexists _, _, _. split; [done|]. unfold deref, h1. simpl.
    rewrite lookup_insert_eq. simpl. rewrite Hpad. simpl. rewrite app_nil_r.
    split_and!; try done; lia.
  - assert (pad ≠ 0) as Hpad.
    { unfold pad. intros Hz. apply Hmod, Hiff. lia. }
    eexists _, _, _. split; [done|]. unfold deref. simpl.
    rewrite lookup_insert_eq, lookup_insert_ne by done. unfold h1.
    rewrite lookup_insert_eq. simpl.
    split_and!; try done; unfold pad; lia.
Qed.

(** X4: whatever the identifiers (repeated ones and zeros included), the
    table of folds holds, row after row, the shuffled identifiers followed
    by fewer than [num_folds] zeros: none is lost and none is repeated by
    the function, and the table has [ceil(S / num_folds)] rows. *)
Theorem folds_table_content {rng} (perm : nat → rng → list nat * rng)
    (num_folds : nat) (subjects : loc) (h : gmap loc (list Z)) (g : rng)
    (s0 : list Z) :
  (∀ n g, (perm n g).1 ≡ₚ seq 0 n) →
  0 < num_folds →
  h !! subjects = Some s0 →
  ∃ IDs h' g' t s1 pad,
    create_train_and_test_folds perm num_folds subjects h g = Ok (IDs, h', g')
    ∧ deref h' IDs = Some t
    ∧ a2_rows t = ceil_div (length s0) num_folds
    ∧ a2_cols t = num_folds
    ∧ a2_flat t = s1 ++ replicate pad 0%Z
    ∧ s1 ≡ₚ s0
    ∧ length s0 + pad = a2_rows t * num_folds
    ∧ pad < num_folds.
Proof.
  intros Hperm Hk Hs0.
  destruct (folds_table perm num_folds subjects h g s0 Hperm) as
    (IDs & h' & g' & Hrun & Hderef & _ & _ & Hs1 & Hlen & Hpad & _); [lia | done |].
  eexists IDs, h', g', _, _, _. split_and!; try done.
Qed.

Lemma folds_table_content_witness :
  ∃ IDs h' g' t s1 pad,
    create_train_and_test_folds countdown 2 1%positive {[ 1%positive := [7; 7; 0]%Z ]} 0
    = Ok (IDs, h', g')
    ∧ deref h' IDs = Some t
    ∧ a2_rows t = ceil_div (length [7; 7; 0]%Z) 2
    ∧ a2_cols t = 2
    ∧ a2_flat t = s1 ++ replicate pad 0%Z
    ∧ s1 ≡ₚ [7; 7; 0]%Z
    ∧ length [7; 7; 0]%Z + pad = a2_rows t * 2
    ∧ pad < 2.
Proof.
  apply (folds_table_content countdown 2 1%positive {[ 1%positive := [7; 7; 0]%Z ]} 0
           [7; 7; 0]%Z countdown_spec).
  - lia.
  - reflexivity.
Defined.

(** X5: the folds are balanced: the padding lies in the last row only,
    where it fills the last columns.  Every entry above the last row is
    one of the subjects, so that the numbers of subjects of two folds
    differ by one at most. *)
Theorem folds_balanced {rng} (perm : nat → rng → list nat * rng)
    (num_folds : nat) (subjects : loc) (h : gmap loc (list Z)) (g : rng)
    (s0 : list Z) :
  (∀ n g, (perm n g).1 ≡ₚ seq 0 n) →
  0 < num_folds →
  h !! subjects = Some s0 →
  ∃ IDs h' g' t pad,
    create_train_and_test_folds perm num_folds subjects h g = Ok (IDs, h', g')
    ∧ deref h' IDs = Some t
    ∧ length s0 + pad = a2_rows t * num_folds
    ∧ pad < num_folds
    ∧ (∀ r c, r + 1 < a2_rows t → c < num_folds →
              ∃ x, entry t r c = Some x ∧ x ∈ s0)
    ∧ (∀ c, c + pad < num_folds → 0 < a2_rows t →
            ∃ x, entry t (a2_rows t - 1) c = Some x ∧ x ∈ s0)
    ∧ (∀ c, c < num_folds → num_folds ≤ c + pad →
            entry t (a2_rows t - 1) c = Some 0%Z).
Proof.
  intros Hperm Hk Hs0.
  destruct (folds_table perm num_folds subjects h g s0 Hperm) as
    (IDs & h' & g' & Hrun & Hderef & _ & _ & Hs1 & Hlen & Hpad & _); [lia | done |].
  set (n := ceil_div (length s0) num_folds) in *.
  set (s1 := gather (perm (length s0) g).1 s0) in *.
  set (pad := n * num_folds - length s0) in *.
  assert (length s1 = length s0) as Hl1 by (by rewrite Hs1).
  assert (∀ r c, r < n → c < num_folds → r * num_folds + c < length s0 →
            ∃ x, entry (Array2 n num_folds (s1 ++ replicate pad 0%Z)) r c = Some x
                 ∧ x ∈ s0) as Hreal.
  { intros r c Hr Hc Hi. unfold entry. simpl. rewrite decide_True by done.
    destruct (lookup_lt_is_Some_2 s1 (r * num_folds + c)) as [x Hx]; [lia|].
    exists x. rewrite lookup_app_l by lia. split; [done|].
    rewrite <- Hs1. by eapply list_elem_of_lookup_2. }
  eexists IDs, h', g', _, pad. split_and!; try done; simpl.
  - intros r c Hr Hc. apply Hreal; [lia | done | nia].
  - intros c Hc Hn. apply Hreal; [lia | lia | nia].
  - intros c Hc Hp. unfold entry. simpl.
    assert (0 < n) as Hn by nia.
    rewrite decide_True by (split; lia).
    rewrite lookup_app_r by nia.
    apply lookup_replicate. split; [done | nia].
Qed.

Lemma folds_balanced_witness :
  ∃ IDs h' g' t pad,
    create_train_and_test_folds countdown 3 1%positive
      {[ 1%positive := [11; 12; 13; 14]%Z ]} 0 = Ok (IDs, h', g')
    ∧ deref h' IDs = Some t
    ∧ length [11; 12; 13; 14]%Z + pad = a2_rows t * 3
    ∧ pad < 3
    ∧ (∀ r c, r + 1 < a2_rows t → c < 3 →
              ∃ x, entry t r c = Some x ∧ x ∈ [11; 12; 13; 14]%Z)
    ∧ (∀ c, c + pad < 3 → 0 < a2_rows t →
            ∃ x, entry t (a2_rows t - 1) c = Some x ∧ x ∈ [11; 12; 13; 14]%Z)
    ∧ (∀ c, c < 3 → 3 ≤ c + pad → entry t (a2_rows t - 1) c = Some 0%Z).
Proof.
  apply (folds_balanced countdown 3 1%positive {[ 1%positive := [11; 12; 13; 14]%Z ]} 0
           [11; 12; 13; 14]%Z countdown_spec).
  - lia.
  - reflexivity.
Defined.

Lemma test_mask_ok (t : array2) (c : nat) (inst : list Z) :
  length (a2_flat t) = a2_rows t * a2_cols t → c < a2_cols t →
  ∃ m, test_mask c t inst = Ok m.
Proof.
  intros Hlen Hc. unfold test_mask. rewrite column_ok by done. simpl. by eexists.
Qed.

(** X6: cross-validation tests every instance once.  On a table made by
    [create_train_and_test_folds] from distinct non-zero identifiers, an
    instance of one of these subjects is a test instance (mask of
    [create_train_and_test_data]) of one fold and of no other, and an
    instance of an unknown, non-zero subject is a test instance of no
    fold. *)
Theorem each_instance_tested_once {rng} (perm : nat → rng → list nat * rng)
    (num_folds : nat) (subjects : loc) (h : gmap loc (list Z)) (g : rng)
    (s0 inst : list Z) :
  (∀ n g, (perm n g).1 ≡ₚ seq 0 n) →
  0 < num_folds →
  h !! subjects = Some s0 →
  NoDup s0 → 0%Z ∉ s0 →
  ∃ IDs h' g' t,
    create_train_and_test_folds perm num_folds subjects h g = Ok (IDs, h', g')
    ∧ deref h' IDs = Some t
    ∧ (∀ i s, inst !! i = Some s → s ∈ s0 →
         ∃ fold, fold < num_folds
           ∧ ∀ f, f < num_folds →
               ∃ m, test_mask f t inst = Ok m
                    ∧ m !! i = Some (bool_decide (f = fold)))
    ∧ (∀ i s, inst !! i = Some s → s ∉ s0 → s ≠ 0%Z →
         ∀ f, f < num_folds →
           ∃ m, test_mask f t inst = Ok m ∧ m !! i = Some false).
Proof.
  intros Hperm Hk Hs0 Hnd H0.
  destruct (folds_table perm num_folds subjects h g s0 Hperm) as
    (IDs & h' & g' & Hrun & Hderef & _ & _ & Hs1 & Hlen & Hpad & _); [lia | done |].
  set (n := ceil_div (length s0) num_folds) in *.
  set (s1 := gather (perm (length s0) g).1 s0) in *.
  set (pad := n * num_folds - length s0) in *.
  set (t := Array2 n num_folds (s1 ++ replicate pad 0%Z)) in *.
  assert (length s1 = length s0) as Hl1 by (by rewrite Hs1).
  assert (length (a2_flat t) = a2_rows t * a2_cols t) as Hflat.
  { unfold t. simpl. rewrite length_app, length_replicate. lia. }
  destruct (padded_table_entries s1 n num_folds pad) as [Hone Hany];
    [by rewrite Hs1 | by rewrite Hs1 | lia | lia |].
  fold t in Hone, Hany.
  exists IDs, h', g', t. split_and!; [done | done | |].
  - intros i s Hi Hs. rewrite <- Hs1 in Hs.
    destruct (Hone s Hs) as (r & c & Hrc & Huniq).
    assert (c < num_folds) as Hc.
    { unfold entry in Hrc. case_decide as Hd; [|done]. simpl in Hd. lia. }
    exists c. split; [done|]. intros f Hf.
    destruct (test_mask_ok t f inst Hflat Hf) as [m Hm].
    exists m. split; [done|].
    destruct (test_mask_lookup f t inst m i s Hm Hi) as (b & -> & Hb).
    f_equal. rewrite in_column_entry in Hb by done.
    destruct b.
    + destruct (proj1 Hb eq_refl) as (_ & r' & Hr').
      destruct (Huniq r' f Hr') as [_ ->]. by rewrite bool_decide_eq_true_2.
    + destruct (decide (f = c)) as [->|Hne].
      * assert (false = true); [|done]. apply Hb. split; [done|]. by exists r.
      * by rewrite bool_decide_eq_false_2.
  - intros i s Hi Hs Hnz f Hf.
    destruct (test_mask_ok t f inst Hflat Hf) as [m Hm].
    exists m. split; [done|].
    destruct (test_mask_lookup f t inst m i s Hm Hi) as (b & -> & Hb).
    f_equal. rewrite in_column_entry in Hb by done.
    destruct b; [|done].
    destruct (proj1 Hb eq_refl) as (_ & r' & Hr').
    destruct (Hany r' f s Hr') as [Hin| ->]; [|done].
    rewrite Hs1 in Hin. done.
Qed.

Lemma each_instance_tested_once_witness :
  ∃ IDs h' g' t,
    create_train_and_test_folds countdown 2 1%positive
      {[ 1%positive := [11; 12; 13]%Z ]} 0 = Ok (IDs, h', g')
    ∧ deref h' IDs = Some t
    ∧ (∀ i s, [11; 11; 13; 12; 99]%Z !! i = Some s → s ∈ [11; 12; 13]%Z →
         ∃ fold, fold < 2
           ∧ ∀ f, f < 2 →
               ∃ m, test_mask f t [11; 11; 13; 12; 99]%Z = Ok m
                    ∧ m !! i = Some (bool_decide (f = fold)))
    ∧ (∀ i s, [11; 11; 13; 12; 99]%Z !! i = Some s → s ∉ [11; 12; 13]%Z → s ≠ 0%Z →
         ∀ f, f < 2 →
           ∃ m, test_mask f t [11; 11; 13; 12; 99]%Z = Ok m ∧ m !! i = Some false).
Proof.
  apply (each_instance_tested_once countdown 2 1%positive
           {[ 1%positive := [11; 12; 13]%Z ]} 0 [11; 12; 13]%Z
           [11; 11; 13; 12; 99]%Z countdown_spec).
  - lia.
  - reflexivity.
  - compute_done.
  - compute_done.
Defined.

Lemma select_none {A} (m : list bool) (a : list A) :
  (∀ b, b ∈ m → b = false) → select m a = [].
Proof.
  revert a. induction m as [|b m IH]; intros [|x a] Hm; simpl; try done.
  rewrite (Hm b) by left. apply IH. intros b' Hb'. apply Hm. by right.
Qed.

(** X7: with more folds than subjects the cross-validation cannot run.
    The columns [S, S+1, ...] of the table made by
    [create_train_and_test_folds] from [S] identifiers hold padding only;
    for such a fold, and instances of non-zero subjects,
    [create_train_and_test_data] selects no test instance and raises the
    error of the maximum of an empty array. *)
Theorem more_folds_than_subjects {rng B} (perm : nat → rng → list nat * rng)
    (num_folds : nat) (subjects : loc) (h : gmap loc (list Z)) (g : rng)
    (s0 : list Z) (fold : nat) (inst : list Z) (labels : list B)
    (data_tensor : tensor) (g2 : rng) :
  (∀ n g, (perm n g).1 ≡ₚ seq 0 n) →
  h !! subjects = Some s0 →
  length s0 ≤ fold < num_folds →
  0%Z ∉ inst →
  length data_tensor = length inst →
  ∃ IDs h' g' t,
    create_train_and_test_folds perm num_folds subjects h g = Ok (IDs, h', g')
    ∧ deref h' IDs = Some t
    ∧ (∀ x, in_column t fold x → x = 0%Z)
    ∧ create_train_and_test_data perm fold t inst labels data_tensor g2
      = Raise ValueError.
Proof.
  intros Hperm Hs0 Hfold Hinst Hdata.
  destruct (folds_table perm num_folds subjects h g s0 Hperm) as
    (IDs & h' & g' & Hrun & Hderef & _ & _ & Hs1 & Hlen & Hpad & _); [lia | done |].
  set (n := ceil_div (length s0) num_folds) in *.
  set (s1 := gather (perm (length s0) g).1 s0) in *.
  set (pad := n * num_folds - length s0) in *.
  set (t := Array2 n num_folds (s1 ++ replicate pad 0%Z)) in *.
  assert (length s1 = length s0) as Hl1 by (by rewrite Hs1).
  assert (length (a2_flat t) = a2_rows t * a2_cols t) as Hflat.
  { unfold t. simpl. rewrite length_app, length_replicate. lia. }
  assert (∀ x, in_column t fold x → x = 0%Z) as Hcol.
  { intros x Hx. apply in_column_entry in Hx as (_ & r & Hr); [|done].
    unfold entry in Hr. case_decide; [|done]. simpl in Hr.
    rewrite lookup_app_r in Hr by nia.
    by apply lookup_replicate in Hr as [-> _]. }
  exists IDs, h', g', t. split_and!; [done..|].
  destruct (test_mask_ok t fold inst Hflat) as [m Hm]; [simpl; lia|].
  assert (∀ b, b ∈ m → b = false) as Hfalse.
  { intros b Hb. apply list_elem_of_lookup in Hb as [i Hi].
    pose proof (test_mask_length _ _ _ _ Hm) as Hml.
    destruct (lookup_lt_is_Some_2 inst i) as [s Hs].
    { rewrite <- Hml. by eapply lookup_lt_Some. }
    destruct (test_mask_lookup fold t inst m i s Hm Hs) as (b' & Hb' & Hiff).
    rewrite Hi in Hb'. injection Hb' as <-.
    destruct b; [|done]. destruct Hinst.
    rewrite <- (Hcol s); [|by apply Hiff]. by eapply list_elem_of_lookup_2. }
  unfold create_train_and_test_data. rewrite Hm. simpl.
  pose proof (test_mask_length _ _ _ _ Hm) as Hml.
  assert (bool_index m data_tensor = Ok []) as ->.
  { unfold bool_index. rewrite decide_True by congruence.
    by rewrite (select_none m data_tensor Hfalse). }
  reflexivity.
Qed.

Lemma more_folds_than_subjects_witness :
  ∃ IDs h' g' t,
    create_train_and_test_folds countdown 3 1%positive
      {[ 1%positive := [11; 12]%Z ]} 0 = Ok (IDs, h', g')
    ∧ deref h' IDs = Some t
    ∧ (∀ x, in_column t 2 x → x = 0%Z)
    ∧ create_train_and_test_data countdown 2 t [11; 12; 12]%Z [num 1; num 2; num 3]
        [[num 1]; [num 2]; [num 4]] 0
      = Raise ValueError.
Proof.
  apply (more_folds_than_subjects countdown 3 1%positive {[ 1%positive := [11; 12]%Z ]} 0
           [11; 12]%Z 2 [11; 12; 12]%Z [num 1; num 2; num 3]
           [[num 1]; [num 2]; [num 4]] 0 countdown_spec).
  - reflexivity.
  - simpl. lia.
  - compute_done.
  - reflexivity.
Defined.

(** ** The training loop *)

(** What a step does to the order of the training set, and the batch it feeds. *)
Lemma train_step_pairs {rng A B V} (perm : nat → rng → list nat * rng)
    (run : V → list A → list B → V) (bs : nat)
    (st : loop_state (rng:=rng) (A:=A) (B:=B) (V:=V)) (step : nat) :
  (∀ n g, (perm n g).1 ≡ₚ seq 0 n) →
  length (train_data st) = length (train_labels st) →
  bs < length (train_labels st) →
  ∃ st' o,
    train_step perm run bs st step
    = Ok (st', Feed step (Z.of_nat o) (take bs (drop o (train_data st')))
                                      (take bs (drop o (train_labels st'))))
    ∧ o + bs < length (train_labels st)
    ∧ length (train_data st') = length (train_labels st)
    ∧ length (train_labels st') = length (train_labels st)
    ∧ zip (train_data st') (train_labels st') ≡ₚ zip (train_data st) (train_labels st)
    ∧ variables st'
      = run (variables st) (take bs (drop o (train_data st')))
                           (take bs (drop o (train_labels st'))).
Proof.
  intros Hperm Hd Hbs.
  destruct (train_step_spec perm Hperm run bs st step Hd Hbs)
    as (d & l & g' & Hif & Hld & Hll & Ho & Hrun).
  set (o := ((Z.of_nat step * Z.of_nat bs)
             `mod` (Z.of_nat (length (train_labels st)) - Z.of_nat bs))%Z) in *.
  exists (LoopState d l g' (run (variables st) (take bs (drop (Z.to_nat o) d))
                                               (take bs (drop (Z.to_nat o) l)))),
         (Z.to_nat o).
  simpl. rewrite Z2Nat.id by lia. split_and!; try done; try lia.
  case_decide.
  - rewrite randomize_tensor_ok in Hif by done. injection Hif as <- <- _.
    rewrite <- gather_zip by done. apply gather_Permutation.
    rewrite length_zip_with, Hd, Nat.min_id. apply Hperm.
  - by injection Hif as <- <- _.
Qed.

(** X8: the training loop keeps every instance with its own label.  With
    more training instances than [batch_size], any number of steps
    succeeds; the (instance, label) pairs of the training set after the
    loop are a permutation of those before it; and every batch that is
    fed consists of [batch_size] such pairs, none of them twice. *)
Theorem train_loop_keeps_pairs {rng A B V} (perm : nat → rng → list nat * rng)
    (run : V → list A → list B → V) (batch_size : nat)
    (st : loop_state (rng:=rng) (A:=A) (B:=B) (V:=V)) (steps : list nat) :
  (∀ n g, (perm n g).1 ≡ₚ seq 0 n) →
  length (train_data st) = length (train_labels st) →
  batch_size < length (train_labels st) →
  ∃ st' fs,
    train_loop perm run batch_size st steps = Ok (st', fs)
    ∧ zip (train_data st') (train_labels st') ≡ₚ zip (train_data st) (train_labels st)
    ∧ ∀ f, f ∈ fs →
        length (zip (batch_data f) (batch_labels f)) = batch_size
        ∧ zip (batch_data f) (batch_labels f) ⊆+ zip (train_data st) (train_labels st).
Proof.
  intros Hperm. revert st. induction steps as [|s steps IH]; intros st Hd Hbs; simpl.
  { eexists _, _. split_and!; [done | done |]. by intros f ?%elem_of_nil. }
  destruct (train_step_pairs perm run batch_size st s Hperm Hd Hbs)
    as (st1 & o & -> & Ho & Hd1 & Hl1 & Hz1 & _). simpl.
  destruct (IH st1) as (st' & fs & -> & Hz & Hfs); [congruence | lia |]. simpl.
  eexists _, _. split_and!; [done | by rewrite Hz |].
  intros f [->|Hf]%elem_of_cons; simpl.
  - split.
    + rewrite length_zip_with, !length_take, !length_drop. lia.
    + rewrite <- Hz1. rewrite <- zip_with_take, <- zip_with_drop.
      apply sublist_submseteq. etrans; [apply sublist_take | apply sublist_drop].
  - destruct (Hfs f Hf) as [Hlen Hsub]. split; [done|]. by rewrite <- Hz1.
Qed.

Lemma train_loop_keeps_pairs_witness :
  ∃ st' fs,
    train_loop countdown count_runs 4 scenario_state [0; 1; 2] = Ok (st', fs)
    ∧ zip (train_data st') (train_labels st')
      ≡ₚ zip (train_data scenario_state) (train_labels scenario_state)
    ∧ ∀ f, f ∈ fs →
        length (zip (batch_data f) (batch_labels f)) = 4
        ∧ zip (batch_data f) (batch_labels f)
          ⊆+ zip (train_data scenario_state) (train_labels scenario_state).
Proof.
  apply (train_loop_keeps_pairs countdown count_runs 4 scenario_state [0; 1; 2]
           countdown_spec).
  - reflexivity.
  - simpl. lia.
Defined.

(** X9: whenever the loop completes, it has made one run of the
    optimizer per step, in the order of the steps and each on a batch of
    exactly [batch_size] instances and [batch_size] labels; the variables
    at the end are those runs applied in turn to the initial ones. *)
Theorem train_loop_runs {rng A B V} (perm : nat → rng → list nat * rng)
    (run : V → list A → list B → V) (batch_size : nat)
    (st st' : loop_state (rng:=rng) (A:=A) (B:=B) (V:=V)) (steps : list nat)
    (fs : list feed) :
  train_loop perm run batch_size st steps = Ok (st', fs) →
  feed_step <$> fs = steps
  ∧ (∀ f, f ∈ fs → length (batch_data f) = batch_size
                    ∧ length (batch_labels f) = batch_size)
  ∧ variables st'
    = foldl (λ v f, run v (batch_data f) (batch_labels f)) (variables st) fs.
Proof.
  revert st fs. induction steps as [|s steps IH]; intros st fs; simpl.
  { intros [= <- <-]. split_and!; [done | | done]. by intros f ?%elem_of_nil. }
  destruct (train_step perm run batch_size st s) as [[st1 f1]|] eqn:Hstep;
    simpl; [|done].
  destruct (train_loop perm run batch_size st1 steps) as [[st2 fs2]|] eqn:Hloop;
    simpl; [|done].
  intros [= <- <-]. destruct (IH st1 fs2 Hloop) as (Hsteps & Hlen & Hvars).
  unfold train_step in Hstep.
  destruct (batch_offset _ _ _) as [o|]; simpl in Hstep; [|done].
  destruct (if decide (o = 0%Z) then _ else _) as [[[d l] g']|]; simpl in Hstep; [|done].
  unfold session_run in Hstep. case_decide as Hshape; simpl in Hstep; [|done].
  injection Hstep as <- <-. simpl in *. split_and!.
  - by f_equal.
  - intros f [->|Hf]%elem_of_cons; [done | by apply Hlen].
  - done.
Qed.

Lemma train_loop_runs_witness :
  ∃ st' fs,
    train_loop countdown count_runs 4 scenario_state [0; 1; 2; 3] = Ok (st', fs)
    ∧ feed_step <$> fs = [0; 1; 2; 3]
    ∧ (∀ f, f ∈ fs → length (batch_data f) = 4 ∧ length (batch_labels f) = 4)
    ∧ variables st'
      = foldl (λ v f, count_runs v (batch_data f) (batch_labels f))
              (variables scenario_state) fs.
Proof.
  eexists _, _. split; [vm_compute; reflexivity|].
  apply (train_loop_runs countdown count_runs 4 scenario_state _ [0; 1; 2; 3]).
  vm_compute. reflexivity.
Defined.

(** X10: a batch is a window of the training set in its current order,
    and the window never reaches the last row: whatever the step, at
    least one instance and its label lie behind the batch that is fed. *)
Theorem last_row_never_fed {rng A B V} (perm : nat → rng → list nat * rng)
    (run : V → list A → list B → V) (batch_size : nat)
    (st : loop_state (rng:=rng) (A:=A) (B:=B) (V:=V)) (step : nat) :
  (∀ n g, (perm n g).1 ≡ₚ seq 0 n) →
  length (train_data st) = length (train_labels st) →
  batch_size < length (train_labels st) →
  ∃ st' f pre post lpre lpost,
    train_step perm run batch_size st step = Ok (st', f)
    ∧ train_data st' = pre ++ batch_data f ++ post
    ∧ train_labels st' = lpre ++ batch_labels f ++ lpost
    ∧ Z.of_nat (length pre) = feed_offset f
    ∧ length lpre = length pre
    ∧ post ≠ [] ∧ lpost ≠ [].
Proof.
  intros Hperm Hd Hbs.
  destruct (train_step_pairs perm run batch_size st step Hperm Hd Hbs)
    as (st' & o & Hstep & Ho & Hd' & Hl' & _).
  exists st', (Feed step (Z.of_nat o) (take batch_size (drop o (train_data st')))
                                     (take batch_size (drop o (train_labels st')))),
         (take o (train_data st')), (drop batch_size (drop o (train_data st'))),
         (take o (train_labels st')), (drop batch_size (drop o (train_labels st'))).
  simpl. split_and!.
  - done.
  - by rewrite !take_drop.
  - by rewrite !take_drop.
  - rewrite length_take. lia.
  - rewrite !length_take. lia.
  - intros Hnil%(f_equal length). rewrite !length_drop in Hnil. simpl in Hnil. lia.
  - intros Hnil%(f_equal length). rewrite !length_drop in Hnil. simpl in Hnil. lia.
Qed.

Lemma last_row_never_fed_witness :
  ∃ st' f pre post lpre lpost,
    train_step countdown count_runs 4 scenario_state 7 = Ok (st', f)
    ∧ train_data st' = pre ++ batch_data f ++ post
    ∧ train_labels st' = lpre ++ batch_labels f ++ lpost
    ∧ Z.of_nat (length pre) = feed_offset f
    ∧ length lpre = length pre
    ∧ post ≠ [] ∧ lpost ≠ [].
Proof.
  apply (last_row_never_fed countdown count_runs 4 scenario_state 7 countdown_spec).
  - reflexivity.
  - simpl. lia.
Defined.

(** ** The transfer script *)

(** X11: the transfer script reads all eight tensors of the pretrained
    bundle, those of layers 3 and 4 included: when any of them is
    missing, the script raises [KeyError], whatever the data. *)
Theorem missing_key_raises {rng T B E} (perm : nat → rng → list nat * rng)
    (xavier : list nat → T) (fill : Qc → list nat → T) (engine : E)
    (step : list T → E → gmap string T → tensor → list B → E * (string → T))
    (save : gmap string T) (raw : tensor) (labels : list B) (g : rng) (k : string) :
  k ∈ frozen_names ++ trained_names →
  save !! k = None →
  ccnn_regr_public perm xavier fill engine step save raw labels g = Raise KeyError.
Proof.
  intros Hk Hnone. unfold ccnn_regr_public, build_graph, load.
  destruct (save !! "layer1_weights") eqn:H1; simpl; [|done].
  destruct (save !! "layer1_biases") eqn:H2; simpl; [|done].
  destruct (save !! "layer2_weights") eqn:H3; simpl; [|done].
  destruct (save !! "layer2_biases") eqn:H4; simpl; [|done].
  destruct (save !! "layer3_weights") eqn:H5; simpl; [|done].
  destruct (save !! "layer3_biases") eqn:H6; simpl; [|done].
  destruct (save !! "layer4_weights") eqn:H7; simpl; [|done].
  destruct (save !! "layer4_biases") eqn:H8; simpl; [|done].
  unfold frozen_names, trained_names in Hk. simpl in Hk.
  list_cases Hk; congruence.
Qed.

Lemma missing_key_raises_witness :
  ccnn_regr_public countdown zero_xavier zero_fill 0 add_one
    (delete "layer4_biases" pretrained) five_scans five_labels 0 = Raise KeyError.
Proof.
  apply (missing_key_raises countdown zero_xavier zero_fill 0 add_one
           (delete "layer4_biases" pretrained) five_scans five_labels 0
           "layer4_biases").
  - compute_done.
  - reflexivity.
Defined.

(** X12: the values of the pretrained layers 3 and 4 are read and never
    used: two bundles that hold all eight tensors and agree on those of
    layers 1 and 2 give the same outcome, on any data and with any
    engine. *)
Theorem pretrained_head_ignored {rng T B E} (perm : nat → rng → list nat * rng)
    (xavier : list nat → T) (fill : Qc → list nat → T) (engine : E)
    (step : list T → E → gmap string T → tensor → list B → E * (string → T))
    (save save' : gmap string T) (raw : tensor) (labels : list B) (g : rng) :
  (∀ k, k ∈ frozen_names ++ trained_names → is_Some (save !! k)) →
  (∀ k, k ∈ trained_names → is_Some (save' !! k)) →
  (∀ k, k ∈ frozen_names → save' !! k = save !! k) →
  ccnn_regr_public perm xavier fill engine step save' raw labels g
  = ccnn_regr_public perm xavier fill engine step save raw labels g.
Proof.
  intros Hkeys Hkeys' Hagree.
  assert (∀ k, k ∈ frozen_names ++ trained_names → is_Some (save' !! k)) as Hall.
  { intros k [Hk|Hk]%elem_of_app; [|by apply Hkeys'].
    rewrite Hagree by done. apply Hkeys, elem_of_app. by left. }
  destruct (build_graph_ok save Hkeys) as (v1 & v2 & v3 & v4 & H1 & H2 & H3 & H4 & Hgr).
  destruct (build_graph_ok save' Hall)
    as (v1' & v2' & v3' & v4' & H1' & H2' & H3' & H4' & Hgr').
  rewrite Hagree in H1', H2', H3', H4' by compute_done.
  unfold ccnn_regr_public. rewrite Hgr, Hgr'. congruence.
Qed.

Lemma pretrained_head_ignored_witness :
  ccnn_regr_public countdown zero_xavier zero_fill 0 add_one
    (<["layer3_weights" := 7%Z]> (<["layer4_biases" := 9%Z]> pretrained))
    five_scans five_labels 0
  = ccnn_regr_public countdown zero_xavier zero_fill 0 add_one pretrained
      five_scans five_labels 0.
Proof.
  apply (pretrained_head_ignored countdown zero_xavier zero_fill 0 add_one pretrained
           (<["layer3_weights" := 7%Z]> (<["layer4_biases" := 9%Z]> pretrained))
           five_scans five_labels 0).
  - intros k Hk. unfold frozen_names, trained_names in Hk. simpl in Hk.
    list_cases Hk; by eexists.
  - intros k Hk. unfold trained_names in Hk.
    list_cases Hk; by eexists.
  - intros k Hk. unfold frozen_names in Hk.
    list_cases Hk; reflexivity.
Defined.

Lemma train_step_few {rng A B V} (perm : nat → rng → list nat * rng)
    (run : V → list A → list B → V) (bs : nat)
    (st : loop_state (rng:=rng) (A:=A) (B:=B) (V:=V)) (step : nat) :
  (∀ n g, (perm n g).1 ≡ₚ seq 0 n) →
  length (train_labels st) ≤ bs →
  ∃ e, train_step perm run bs st step = Raise e.
Proof.
  intros Hperm HN. unfold train_step, batch_offset, py_mod.
  case_decide as Hz; [by eexists|]. simpl.
  match goal with |- context [decide (?o = 0%Z)] => generalize o end. intros o.
  assert (∀ (d : list A) (l : list B), length l = length (train_labels st) →
            session_run run bs (variables st) (py_slice o (o + Z.of_nat bs) d)
              (py_slice o (o + Z.of_nat bs) l) = Raise ValueError) as Hfeed.
  { intros d l Hl. unfold session_run. rewrite decide_False; [done|].
    intros [_ Hlen]. pose proof (py_slice_length o (o + Z.of_nat bs) l). lia. }
  case_decide.
  - unfold randomize_tensor.
    pose proof (Hperm (length (train_labels st)) (gen st)) as Hp.
    destruct (perm (length (train_labels st)) (gen st)) as [p g']. simpl in Hp.
    apply Permutation_seq_bound in Hp as Hb.
    destruct (take_rows p (train_data st)) as [d|e]; simpl; [|by eexists].
    rewrite (take_rows_ok p (train_labels st)) by done. simpl.
    rewrite Hfeed; [by eexists|].
    rewrite gather_length by done. rewrite Hp. by rewrite length_seq.
  - simpl. rewrite Hfeed by done. by eexists.
Qed.

Lemma train_loop_cons_raise {rng A B V} (perm : nat → rng → list nat * rng)
    (run : V → list A → list B → V) (bs : nat)
    (st : loop_state (rng:=rng) (A:=A) (B:=B) (V:=V)) (s : nat) (steps : list nat) e :
  train_step perm run bs st s = Raise e →
  train_loop perm run bs st (s :: steps) = Raise e.
Proof. intros H. simpl. by rewrite H. Qed.

Lemma num_steps_S : num_steps = S (Z.to_nat 10000).
Proof.
  unfold num_steps. change 10001%Z with (Z.succ 10000). apply Z2Nat.inj_succ. lia.
Qed.

(** X13: the transfer script cannot run on four labelled scans or fewer:
    with at most [batch_size] labels it ends in an exception, whatever
    the pretrained bundle, the data and the engine. *)
Theorem too_few_scans {rng T B E} (perm : nat → rng → list nat * rng)
    (xavier : list nat → T) (fill : Qc → list nat → T) (engine : E)
    (step : list T → E → gmap string T → tensor → list B → E * (string → T))
    (save : gmap string T) (raw : tensor) (labels : list B) (g : rng) :
  (∀ n g, (perm n g).1 ≡ₚ seq 0 n) →
  length labels ≤ 4 →
  ∃ e, ccnn_regr_public perm xavier fill engine step save raw labels g = Raise e.
Proof.
  intros Hperm Hlen. unfold ccnn_regr_public.
  destruct (build_graph save) as [gr|e]; simpl; [|by eexists].
  unfold public_training.
  destruct (normalize_tensor (nan_to_zero raw)) as [data|e]; simpl; [|by eexists].
  unfold train. rewrite num_steps_S, <- cons_seq.
  destruct (train_step_few perm (run_optimizer step gr) 4
              (LoopState data labels g (engine, initial_session xavier fill)) 0 Hperm)
    as [e He]; [done|].
  rewrite (train_loop_cons_raise _ _ _ _ _ _ e He). simpl. by eexists.
Qed.

Lemma too_few_scans_witness :
  ∃ e, ccnn_regr_public countdown zero_xavier zero_fill 0 add_one pretrained
         (take 4 five_scans) (take 4 five_labels) 0 = Raise e.
Proof.
  apply (too_few_scans countdown zero_xavier zero_fill 0 add_one pretrained
           (take 4 five_scans) (take 4 five_labels) 0 countdown_spec).
  simpl. lia.
Defined.

(** What a completed run of the transfer script has read and written. *)
Lemma ccnn_regr_public_bundle {rng T B E} (perm : nat → rng → list nat * rng)
    (xavier : list nat → T) (fill : Qc → list nat → T) (engine : E)
    (step : list T → E → gmap string T → tensor → list B → E * (string → T))
    (save bundle : gmap string T) (raw : tensor) (labels : list B) (g : rng) :
  ccnn_regr_public perm xavier fill engine step save raw labels g = Ok bundle →
  (∀ k, k ∈ frozen_names ++ trained_names →
        is_Some (save !! k) ∧ is_Some (bundle !! k))
  ∧ (∀ k, k ∈ frozen_names → bundle !! k = save !! k)
  ∧ dom bundle = list_to_set (frozen_names ++ trained_names).
Proof.
  unfold ccnn_regr_public, build_graph at 1, load.
  destruct (save !! "layer1_weights") eqn:H1; simpl; [|done].
  destruct (save !! "layer1_biases") eqn:H2; simpl; [|done].
  destruct (save !! "layer2_weights") eqn:H3; simpl; [|done].
  destruct (save !! "layer2_biases") eqn:H4; simpl; [|done].
  destruct (save !! "layer3_weights") eqn:H5; simpl; [|done].
  destruct (save !! "layer3_biases") eqn:H6; simpl; [|done].
  destruct (save !! "layer4_weights") eqn:H7; simpl; [|done].
  destruct (save !! "layer4_biases") eqn:H8; simpl; [|done].
  destruct (public_training _ _ _ _ _ _ _ _ _ _) as [sess|]; simpl; [|done].
  destruct (sess !! "layer3_weights"); simpl; [|done].
  destruct (sess !! "layer3_biases"); simpl; [|done].
  destruct (sess !! "layer4_weights"); simpl; [|done].
  destruct (sess !! "layer4_biases"); simpl; [|done].
  intros [= <-]. split_and!.
  - intros k Hk. unfold frozen_names, trained_names in Hk. simpl in Hk.
    list_cases Hk; simplify_map_eq; (split; by eexists).
  - intros k Hk. unfold frozen_names in Hk.
    list_cases Hk; by simplify_map_eq.
  - rewrite !dom_insert_L, dom_singleton_L. unfold frozen_names, trained_names.
    simpl. set_solver.
Qed.

Lemma ccnn_regr_public_ok {rng T B E} (perm : nat → rng → list nat * rng)
    (xavier : list nat → T) (fill : Qc → list nat → T) (engine : E)
    (step : list T → E → gmap string T → tensor → list B → E * (string → T))
    (save : gmap string T) (raw : tensor) (labels : list B) (g : rng) :
  (∀ n g, (perm n g).1 ≡ₚ seq 0 n) →
  (∀ k, k ∈ frozen_names ++ trained_names → is_Some (save !! k)) →
  concat raw ≠ [] → length labels = length raw → 4 < length raw →
  ∃ bundle, ccnn_regr_public perm xavier fill engine step save raw labels g = Ok bundle.
Proof.
  intros Hperm Hkeys Hraw Hlen HN.
  destruct (build_graph_ok save Hkeys) as (v1 & v2 & v3 & v4 & _ & _ & _ & _ & Hgr).
  set (gr := Graph _ _ _ _ _ _ _ _) in Hgr.
  destruct (public_training_ok perm xavier fill engine step Hperm gr num_steps raw labels g)
    as [sess Hsess]; try done.
  pose proof (public_training_defined perm xavier fill engine step gr _ _ _ _ _ Hsess) as Hdef.
  destruct (Hdef "layer3_weights") as [w3 Hw3]; [compute_done|].
  destruct (Hdef "layer3_biases") as [b3 Hb3]; [compute_done|].
  destruct (Hdef "layer4_weights") as [w4 Hw4]; [compute_done|].
  destruct (Hdef "layer4_biases") as [b4 Hb4]; [compute_done|].
  unfold ccnn_regr_public. rewrite Hgr. simpl. rewrite Hsess. simpl.
  rewrite Hw3, Hb3, Hw4, Hb4. simpl. by eexists.
Qed.




(** ** The cross-validation script *)

Lemma select_nil_r {A} (m : list bool) : select m (@nil A) = [].
Proof. by destruct m. Qed.

(** The selections of several masks, at the first instance. *)
Lemma select_heads {A} (ms : list (list bool)) (x : A) (l : list A) :
  concat ((λ m, select m (x :: l)) <$> ms)
  ≡ₚ replicate (length (filter (λ m, m !! 0 = Some true) ms)) x
     ++ concat ((λ m, select (tail m) l) <$> ms).
Proof.
  induction ms as [|m ms IH]; [done|].
  rewrite !fmap_cons, filter_cons. simpl concat. rewrite IH.
  destruct m as [|[] m]; simpl.
  - done.
  - constructor. rewrite !(assoc_L (++)).
    apply Permutation_app_tail, Permutation_app_comm.
  - rewrite !(assoc_L (++)).
    apply Permutation_app_tail, Permutation_app_comm.
Qed.

Lemma filter_lookup_tail (ms : list (list bool)) i :
  length (filter (λ m, m !! i = Some true) (tail <$> ms))
  = length (filter (λ m, m !! S i = Some true) ms).
Proof.
  induction ms as [|m ms IH]; [done|].
  rewrite fmap_cons, !filter_cons, lookup_tail.
  case_decide; simpl; by rewrite IH.
Qed.

(** Masks that are true one at a time select every element once. *)
Lemma select_partition {A} (ms : list (list bool)) (l : list A) :
  (∀ i, i < length l → length (filter (λ m, m !! i = Some true) ms) = 1) →
  concat ((λ m, select m l) <$> ms) ≡ₚ l.
Proof.
  revert ms. induction l as [|x l IH]; intros ms Hone.
  - clear Hone. induction ms as [|m ms IH]; [done|].
    rewrite fmap_cons. simpl. by rewrite select_nil_r.
  - rewrite select_heads, (Hone 0) by (simpl; lia). simpl. constructor.
    assert ((λ m, select (tail m) l) <$> ms = (λ m, select m l) <$> (tail <$> ms)) as ->.
    { by rewrite <- list_fmap_compose. }
    apply IH. intros i Hi. rewrite filter_lookup_tail. apply Hone. simpl. lia.
Qed.

Lemma select_length_false {A} (m : list bool) (a : list A) :
  length m = length a →
  length (select (negb <$> m) a) = length (filter (λ b, b = false) m).
Proof.
  revert a. induction m as [|b m IH]; intros [|x a] Hlen; simplify_eq/=; [done|].
  rewrite filter_cons. destruct b; simpl; by rewrite IH.
Qed.

Lemma f64_r_squared_ok sum (y p : list PrimFloat.float) :
  length p = length y → ∃ r, F64.r_squared sum y p = Ok r.
Proof.
  intros Hlen. unfold F64.r_squared, F64.np_broadcast2.
  rewrite decide_True by done. simpl. by eexists.
Qed.

Lemma shape_no_empty {A B} (t : list (list A)) (t' : list (list B)) :
  shape t' = shape t → (∀ x, x ∈ t → x ≠ []) → ∀ x, x ∈ t' → x ≠ [].
Proof.
  intros Hshape Ht x Hx ->.
  assert (0 ∈ shape t) as H0.
  { rewrite <- Hshape. unfold shape.
    apply list_elem_of_In, in_map_iff. exists []. split; [done|].
    by apply list_elem_of_In. }
  unfold shape in H0. apply list_elem_of_In, in_map_iff in H0 as (y & Hy & Hin).
  apply list_elem_of_In in Hin. apply (Ht y Hin). by destruct y.
Qed.

Lemma concat_select_ne_nil {A} (m : list bool) (t : list (list A)) :
  (∀ x, x ∈ t → x ≠ []) → select m t ≠ [] → concat (select m t) ≠ [].
Proof.
  intros Ht Hsel. destruct (select m t) as [|x r] eqn:Hs; [done|].
  apply (concat_ne_nil _ x); [by left|].
  apply Ht. apply (elem_of_select m). rewrite Hs. by left.
Qed.

Lemma select_true_ne_nil {A} (m : list bool) (a : list A) :
  length m = length a → true ∈ m → select m a ≠ [].
Proof.
  intros Hlen [i Hi]%list_elem_of_lookup.
  destruct (lookup_lt_is_Some_2 a i) as [x Hx].
  { rewrite <- Hlen. by eapply lookup_lt_Some. }
  intros Hnil. assert (x ∈ select m a) as Hin.
  { apply elem_of_select_lookup. by exists i. }
  rewrite Hnil in Hin. by apply elem_of_nil in Hin.
Qed.

Lemma f64_num_steps_S : F64.num_steps = S (Z.to_nat 15000).
Proof.
  unfold F64.num_steps. change 15001%Z with (Z.succ 15000).
  apply Z2Nat.inj_succ. lia.
Qed.

Section baseline_props.

Context (sum : list PrimFloat.float → PrimFloat.float).
Context {rng E W : Type} (perm : nat → rng → list nat * rng).
Context (crop : list PrimFloat.float → list PrimFloat.float) (init : E → E * W).
Context (step : E * W → F64.tensor → list PrimFloat.float → E * W).
Context (predict : W → F64.tensor → list PrimFloat.float).
Hypothesis perm_spec : ∀ n g, (perm n g).1 ≡ₚ seq 0 n.

(** A fold with a test instance and more than [batch_size] training
    instances goes through. *)
Lemma run_fold_ok IDs subjects labels (data : F64.tensor) f m (s : rng * E) :
  (∀ w t, length (predict w t) = length t) →
  length data = length subjects → length labels = length subjects →
  (∀ x, x ∈ data → x ≠ []) →
  test_mask f IDs subjects = Ok m →
  true ∈ m →
  F64.batch_size < length (filter (λ b, b = false) m) →
  ∃ pred s',
    F64.run_fold sum perm crop init step predict IDs subjects labels data f s
    = Ok (select m labels, pred, s')
    ∧ length pred = length (select m labels).
Proof.
  intros Hpred Hd Hl Hne Hm Htrue Hfalse.
  pose proof (test_mask_length _ _ _ _ Hm) as Hml.
  unfold F64.run_fold.
  rewrite (f64_create_train_and_test_data_spec sum perm perm_spec f IDs subjects labels data s.1 m)
    by done.
  destruct (f64_normalize_tensor_ok sum (select m data)) as [td Htd].
  { apply concat_select_ne_nil; [done|]. apply select_true_ne_nil; [congruence | done]. }
  assert (length (select (negb <$> m) data) = length (filter (λ b, b = false) m))
    as Hntr by (apply select_length_false; congruence).
  assert (length (select (negb <$> m) labels) = length (filter (λ b, b = false) m))
    as Hnl by (apply select_length_false; congruence).
  destruct (f64_normalize_tensor_ok sum (select (negb <$> m) data)) as [trd Htrd].
  { apply concat_select_ne_nil; [done|].
    intros Hnil. rewrite Hnil in Hntr. simpl in Hntr. unfold F64.batch_size in Hfalse. lia. }
  rewrite Htd, Htrd. simpl.
  apply f64_normalize_tensor_length in Htd as Hltd.
  apply f64_normalize_tensor_length in Htrd as Hltrd.
  set (p := perm (length (select (negb <$> m) labels)) s.1).
  pose proof (perm_spec (length (select (negb <$> m) labels)) s.1) as Hp. fold p in Hp.
  apply Permutation_seq_bound in Hp as Hb.
  apply Permutation_length in Hp as Hlp. rewrite length_seq in Hlp.
  match goal with |- context [train perm step F64.batch_size F64.num_steps ?st0] =>
    destruct (train_loop_spec perm perm_spec step F64.batch_size st0 (seq 0 F64.num_steps))
      as (st & fs & Hrun & _) end.
  { simpl. rewrite length_fmap, !gather_length; [done | done |].
    by rewrite length_map, Hltrd, Hntr, <- Hnl. }
  { simpl. rewrite gather_length by done. lia. }
  unfold train. rewrite Hrun. simpl.
  assert (length (predict (variables st).2 (crop <$> map (map F64.astype_float32) td))
          = length (select m labels)) as Hlen.
  { rewrite Hpred, length_fmap, length_map, Hltd. apply select_length_eq. congruence. }
  destruct (f64_r_squared_ok sum (select m labels)
              (predict (variables st).2 (crop <$> map (map F64.astype_float32) td)) Hlen)
    as [r ->].
  simpl. by eexists _, _.
Qed.

(** What the assembler has answered when it answers. *)
Lemma f64_create_train_and_test_data_inv f IDs subjects (labels : list PrimFloat.float)
    (data : F64.tensor) g trd trl td tl g' :
  F64.create_train_and_test_data sum perm f IDs subjects labels data g
  = Ok (trd, trl, td, tl, g') →
  ∃ m, test_mask f IDs subjects = Ok m
       ∧ true ∈ m
       ∧ length trl = length (filter (λ b, b = false) m)
       ∧ tl = select m labels.
Proof.
  unfold F64.create_train_and_test_data.
  destruct (test_mask f IDs subjects) as [m|]; simpl; [|done].
  unfold bool_index. rewrite !length_fmap.
  destruct (decide (length m = length data)) as [Hmd|]; simpl; [|done].
  destruct (F64.normalize_tensor sum (select m data)) as [td'|] eqn:Htd; simpl; [|done].
  destruct (decide (length m = length labels)) as [Hml|]; simpl; [|done].
  destruct (F64.normalize_tensor sum (select (negb <$> m) data)) as [trd'|]; simpl; [|done].
  unfold randomize_tensor.
  pose proof (perm_spec (length (select (negb <$> m) labels)) g) as Hp.
  destruct (perm (length (select (negb <$> m) labels)) g) as [p g'']. simpl in Hp.
  apply Permutation_seq_bound in Hp as Hb.
  apply Permutation_length in Hp as Hlp. rewrite length_seq in Hlp.
  destruct (take_rows p (map (map F64.astype_float32) trd')) as [d|]; simpl; [|done].
  rewrite (take_rows_ok p (select (negb <$> m) labels)) by done. simpl.
  intros [= <- <- <- <- <-]. exists m. split_and!; try done.
  - destruct (decide (true ∈ m)) as [|Hnone]; [done|].
    rewrite select_none in Htd; [done|].
    intros b Hin. by destruct b.
  - rewrite gather_length by done. by rewrite Hlp, select_length_false.
Qed.

(** A fold without a test instance, or with [batch_size] training
    instances or fewer, or beyond the columns of the table, ends in an
    exception. *)
Lemma run_fold_raise IDs subjects labels (data : F64.tensor) f (s : rng * E) :
  (a2_cols IDs ≤ f
   ∨ ∃ m, test_mask f IDs subjects = Ok m
          ∧ (true ∉ m ∨ length (filter (λ b, b = false) m) ≤ F64.batch_size)) →
  ∃ e, F64.run_fold sum perm crop init step predict IDs subjects labels data f s = Raise e.
Proof.
  intros Hbad. unfold F64.run_fold.
  destruct (F64.create_train_and_test_data sum perm f IDs subjects labels data s.1)
    as [[[[[trd trl] td] tl] g']|e] eqn:Hc; simpl; [|by eexists].
  apply f64_create_train_and_test_data_inv in Hc as (m & Hm & Htrue & Hlen & _).
  destruct Hbad as [Hcols|(m' & Hm' & Hbad)].
  { unfold test_mask, column in Hm. by rewrite decide_False in Hm by lia. }
  rewrite Hm in Hm'. injection Hm' as <-.
  destruct Hbad as [Hnone|Hfew]; [done|].
  unfold train. rewrite f64_num_steps_S, <- cons_seq.
  match goal with |- context [train_loop perm step F64.batch_size ?st0 _] =>
    destruct (train_step_few perm step F64.batch_size st0 0 perm_spec) as [e He] end.
  { simpl. lia. }
  rewrite (train_loop_cons_raise _ _ _ _ _ _ e He). simpl. by eexists.
Qed.

(** The loop over the folds stops at the first fold that fails. *)
Lemma fold_loop_raise IDs subjects labels (data : F64.tensor) folds f :
  f ∈ folds →
  (∀ s, ∃ e, F64.run_fold sum perm crop init step predict IDs subjects labels data f s
             = Raise e) →
  ∀ s, ∃ e, F64.fold_loop sum perm crop init step predict IDs subjects labels data folds s
            = Raise e.
Proof.
  intros Hf Hraise. induction folds as [|i folds IH]; [by apply elem_of_nil in Hf|].
  intros s. simpl.
  destruct (F64.run_fold sum perm crop init step predict IDs subjects labels data i s)
    as [[[tl tp] s1]|e] eqn:Hrun; simpl; [|by eexists].
  apply elem_of_cons in Hf as [->|Hf].
  { destruct (Hraise s) as [e He]. congruence. }
  destruct (IH Hf s1) as [e ->]. simpl. by eexists.
Qed.

(** The loop over folds that all go through. *)
Lemma fold_loop_ok IDs subjects labels (data : F64.tensor) folds (mask : nat → list bool) :
  (∀ w t, length (predict w t) = length t) →
  length data = length subjects → length labels = length subjects →
  (∀ x, x ∈ data → x ≠ []) →
  (∀ f, f ∈ folds →
        test_mask f IDs subjects = Ok (mask f)
        ∧ true ∈ mask f
        ∧ F64.batch_size < length (filter (λ b, b = false) (mask f))) →
  ∀ s, ∃ preds s',
    F64.fold_loop sum perm crop init step predict IDs subjects labels data folds s
    = Ok ((λ f, select (mask f) labels) <$> folds, preds, s')
    ∧ length (concat preds)
      = length (concat ((λ f, select (mask f) labels) <$> folds)).
Proof.
  intros Hpred Hd Hl Hne. induction folds as [|i folds IH]; intros Hfolds s; simpl.
  { by eexists _, _. }
  destruct (Hfolds i) as (Hm & Htrue & Hfalse); [by left|].
  destruct (run_fold_ok IDs subjects labels data i (mask i) s)
    as (pred & s1 & -> & Hlen); try done.
  simpl. destruct (IH (λ f Hf, Hfolds f (proj2 (elem_of_cons _ _ _) (or_intror Hf))) s1)
    as (preds & s' & -> & Hlens).
  simpl. eexists _, _. split; [done|].
  change (concat (pred :: preds)) with (pred ++ concat preds).
  rewrite !length_app, Hlen. f_equal. exact Hlens.
Qed.

End baseline_props.

Lemma count_one_fold (mask : nat → list bool) (i fold n : nat) :
  (∀ f, f < n → mask f !! i = Some (bool_decide (f = fold))) →
  length (filter (λ m, m !! i = Some true) (mask <$> seq 0 n))
  = if decide (fold < n) then 1 else 0.
Proof.
  induction n as [|n IH]; intros Hmask; [done|].
  rewrite seq_S, fmap_app, list.filter_app, length_app, IH by (intros f Hf; apply Hmask; lia).
  simpl. rewrite filter_cons, filter_nil, (Hmask n) by lia.
  destruct (decide (n = fold)) as [->|Hne].
  - rewrite bool_decide_eq_true_2 by done.
    repeat case_decide; try done; simpl; lia.
  - rewrite bool_decide_eq_false_2 by done.
    repeat case_decide; try done; simpl; lia.
Qed.

(** X15: the cross-validation script reports every label once.  When
    every scan has entries and belongs to the test instances of exactly
    one of the ten folds, every fold has a test instance and more than
    [batch_size] training instances, and the network answers one
    prediction per test instance, the script completes; the labels that
    it saves are a permutation of the labels it was given, there are as
    many predictions, and the splits are the table as it was read. *)
Theorem cross_validation_reports_each_label_once {rng E W}
    (np_add_reduce : list PrimFloat.float → PrimFloat.float)
    (perm : nat → rng → list nat * rng)
    (crop : list PrimFloat.float → list PrimFloat.float)
    (init : E → E * W) (step : E * W → F64.tensor → list PrimFloat.float → E * W)
    (predict : W → F64.tensor → list PrimFloat.float)
    (IDs : array2) (subjects : list Z) (labels : list PrimFloat.float)
    (raw : F64.tensor)
    (g : rng) (engine : E) :
  (∀ n g, (perm n g).1 ≡ₚ seq 0 n) →
  (∀ w t, length (predict w t) = length t) →
  length raw = length subjects →
  length labels = length subjects →
  (∀ x, x ∈ raw → x ≠ []) →
  (∀ f, f < F64.num_folds →
        ∃ m, test_mask f IDs subjects = Ok m
             ∧ true ∈ m
             ∧ F64.batch_size < length (filter (λ b, b = false) m)) →
  (∀ i, i < length subjects →
        ∃ fold, fold < F64.num_folds
                ∧ ∀ f m, f < F64.num_folds → test_mask f IDs subjects = Ok m →
                         m !! i = Some (bool_decide (f = fold))) →
  ∃ res rsq,
    F64.ccnn_regr_baseline np_add_reduce perm crop init step predict IDs subjects
      labels raw g engine
    = Ok (res, rsq)
    ∧ F64.res_labels res ≡ₚ labels
    ∧ length (F64.res_predictions res) = length labels
    ∧ F64.res_splits res = IDs.
Proof.
  intros Hperm Hpred Hraw Hlab Hne Hfolds Hpart.
  set (mask := λ f, match test_mask f IDs subjects with Ok m => m | Raise _ => [] end).
  assert (∀ f, f ∈ seq 0 F64.num_folds →
            test_mask f IDs subjects = Ok (mask f)
            ∧ true ∈ mask f
            ∧ F64.batch_size < length (filter (λ b, b = false) (mask f))) as Hmask.
  { intros f Hf%elem_of_seq. destruct (Hfolds f) as (m & Hm & Ht & Hf'); [lia|].
    unfold mask. by rewrite Hm. }
  assert (raw ≠ []) as Hraw0.
  { intros ->. destruct (Hmask 0) as (Hm & [i Hi]%list_elem_of_lookup & _).
    { apply elem_of_seq. unfold F64.num_folds. lia. }
    apply test_mask_length in Hm. apply lookup_lt_Some in Hi. simpl in *. lia. }
  destruct (f64_normalize_tensor_ok np_add_reduce (F64.nan_to_zero raw)) as [data Hdata].
  { unfold F64.nan_to_zero. rewrite concat_map_map. intros Hnil%fmap_nil_inv.
    destruct raw as [|x raw]; [done|].
    apply (concat_ne_nil (x :: raw) x); [by left | apply Hne; by left | done]. }
  apply f64_normalize_tensor_shape in Hdata as Hshape.
  assert (shape data = shape raw) as Hshape'.
  { rewrite Hshape. unfold F64.nan_to_zero. apply shape_map_map. }
  assert (length data = length subjects) as Hd.
  { rewrite <- Hraw. apply (f_equal length) in Hshape'. unfold shape in Hshape'.
    by rewrite !length_map in Hshape'. }
  destruct (fold_loop_ok np_add_reduce perm crop init step predict Hperm IDs subjects labels data
              (seq 0 F64.num_folds) mask Hpred Hd Hlab
              (shape_no_empty raw data Hshape' Hne) Hmask (g, engine))
    as (preds & s' & Hloop & Hlens).
  assert (concat ((λ f, select (mask f) labels) <$> seq 0 F64.num_folds) ≡ₚ labels) as Hl.
  { rewrite (list_fmap_compose mask (λ m, select m labels)).
    apply select_partition. intros i Hi. rewrite Hlab in Hi.
    destruct (Hpart i Hi) as (fold & Hfold & Hm).
    rewrite (count_one_fold mask i fold F64.num_folds).
    - by rewrite decide_True.
    - intros f Hf. apply Hm; [done|]. apply Hmask, elem_of_seq. lia. }
  destruct (f64_r_squared_ok np_add_reduce
              (concat ((λ f, select (mask f) labels) <$> seq 0 F64.num_folds))
              (concat preds) Hlens) as [rsq Hrsq].
  unfold F64.ccnn_regr_baseline. rewrite Hdata.
  revert Hloop Hlens Hl Hrsq. generalize (seq 0 F64.num_folds).
  intros folds Hloop Hlens Hl Hrsq. simpl. rewrite Hloop. simpl.
  rewrite Hrsq. simpl. eexists _, _. split; [done|]. simpl. split_and!.
  - done.
  - rewrite Hlens. by rewrite Hl.
  - done.
Qed.

Lemma cross_validation_reports_each_label_once_witness :
  ∃ res rsq,
    F64.ccnn_regr_baseline F64.sum_left countdown F64.same_crop F64.fresh_session
      F64.one_run F64.first_entry
      F64.ten_folds F64.ten_subjects F64.ten_labels F64.ten_scans 0 0 = Ok (res, rsq)
    ∧ F64.res_labels res ≡ₚ F64.ten_labels
    ∧ length (F64.res_predictions res) = length F64.ten_labels
    ∧ F64.res_splits res = F64.ten_folds.
Proof.
  apply (cross_validation_reports_each_label_once F64.sum_left countdown
           F64.same_crop F64.fresh_session F64.one_run F64.first_entry F64.ten_folds
           F64.ten_subjects F64.ten_labels F64.ten_scans 0 0 countdown_spec).
  - intros w t. unfold F64.first_entry. by rewrite length_fmap.
  - reflexivity.
  - reflexivity.
  - intros x Hx. vm_compute in Hx. list_cases Hx; done.
  - intros f Hf. unfold F64.num_folds in Hf.
    do 10 (destruct f as [|f];
           [eexists; split_and!; [reflexivity | compute_done | vm_compute; lia]|]).
    lia.
  - intros i Hi. exists i. split; [exact Hi|]. intros f m Hf Hm.
    unfold F64.num_folds in Hf. simpl in Hi.
    do 10 (destruct f as [|f];
           [vm_compute in Hm; injection Hm as <-;
            do 10 (destruct i as [|i]; [reflexivity|]); lia|]).
    lia.
Defined.

(** X16: the cross-validation script fails as soon as one of its ten
    folds cannot be run: the table has fewer than ten columns, or a fold
    has no test instance, or it leaves [batch_size] training instances
    or fewer. *)
Theorem cross_validation_fold_fails {rng E W}
    (np_add_reduce : list PrimFloat.float → PrimFloat.float)
    (perm : nat → rng → list nat * rng)
    (crop : list PrimFloat.float → list PrimFloat.float)
    (init : E → E * W) (step : E * W → F64.tensor → list PrimFloat.float → E * W)
    (predict : W → F64.tensor → list PrimFloat.float)
    (IDs : array2) (subjects : list Z) (labels : list PrimFloat.float)
    (raw : F64.tensor)
    (g : rng) (engine : E) (f : nat) :
  (∀ n g, (perm n g).1 ≡ₚ seq 0 n) →
  f < F64.num_folds →
  (a2_cols IDs ≤ f
   ∨ ∃ m, test_mask f IDs subjects = Ok m
          ∧ (true ∉ m ∨ length (filter (λ b, b = false) m) ≤ F64.batch_size)) →
  ∃ e,
    F64.ccnn_regr_baseline np_add_reduce perm crop init step predict IDs subjects
      labels raw g engine
    = Raise e.
Proof.
  intros Hperm Hf Hbad. unfold F64.ccnn_regr_baseline.
  destruct (F64.normalize_tensor np_add_reduce (F64.nan_to_zero raw)) as [data|e];
    [|simpl; by eexists].
  destruct (fold_loop_raise np_add_reduce perm crop init step predict IDs subjects labels data
              (seq 0 F64.num_folds) f) with (s := (g, engine)) as [e He].
  - apply elem_of_seq. lia.
  - intros s. by apply run_fold_raise.
  - revert He. generalize (seq 0 F64.num_folds). intros folds He.
    simpl. rewrite He. simpl. by eexists.
Qed.

Lemma cross_validation_fold_fails_witness :
  ∃ e,
    F64.ccnn_regr_baseline F64.sum_left countdown F64.same_crop F64.fresh_session
      F64.one_run F64.first_entry
      F64.ten_folds (take 9 F64.ten_subjects) (take 9 F64.ten_labels) (take 9 F64.ten_scans) 0 0
    = Raise e.
Proof.
  apply (cross_validation_fold_fails F64.sum_left countdown F64.same_crop F64.fresh_session
           F64.one_run F64.first_entry F64.ten_folds (take 9 F64.ten_subjects) (take 9 F64.ten_labels)
           (take 9 F64.ten_scans) 0 0 9 countdown_spec).
  - unfold F64.num_folds. lia.
  - right. eexists. split; [reflexivity|]. left. compute_done.
Defined.
